(** * yt-extractor: the resumable comment-extraction pipeline of [main.py]

    A shallow embedding of the extraction script: the quota-tracked API
    gateway, the three paginated fetchers, the resumable state store and
    the orchestrating main loop, followed by the properties the
    specification states about them.

    Conventions of the embedding.
    - Python values that come out of [json.load] are values of [json];
      JSON numbers are integers (the script only stores counts).
    - Successful API responses are records typed after the fields the
      script reads; what the remote answers is a parameter ([service]),
      indexed by the number of calls made so far, so that it may answer
      the same request differently at different times. An item of a
      channel listing is what the script's subscripts read from it: the
      string they reach, or the exception they raise; a listing whose
      ['items'] has no length is one whose first item raises the
      [TypeError] of [len].
    - Exceptions are the subclasses of [Exception] the script can meet.
      [exit(n)] is the result of the run; an interrupt from the keyboard
      is not modelled.
    - Module-level state ([quota_used]), standard output, the file
      system, the log of API calls and the log of [time.sleep] arguments
      live in [world] and are threaded explicitly. Output is a list of
      messages, one constructor per [print] site, carrying the values
      printed. Files and error bodies hold bytes: bytes that are not
      UTF-8, text that the JSON decoder rejects, or text that decodes
      to a value. Opening, reading and writing a file does not fail
      otherwise.
    - A Python [set] is kept as the list of the values put into it; the
      script only tests it for emptiness and for membership of strings.
    - [while True] page loops take a page budget; running out of it is
      the outcome [Diverge].
    - [urlparse] is a parameter returning the two fields the script
      reads.
    - [random.uniform(0, 1)] is a parameter; a float is the rational
      it denotes, and the sum [2 ** attempt + jitter] is rounded to
      binary64 as Python's addition does. [time.sleep] records its
      argument, or raises [OverflowError] when the length in
      nanoseconds does not fit a signed 64-bit integer, as CPython 3
      does. *)

From Stdlib Require Import ZArith QArith Lqa String Ascii List Bool Lia.
From stdpp Require Import gmap strings list fin_maps.

Set Warnings "-register-all".
Local Open Scope string_scope.
Local Open Scope Z_scope.
Local Open Scope list_scope.

(** ** Python values *)

Inductive json : Type :=
| JNull
| JBool (b : bool)
| JInt (z : Z)
| JStr (s : string)
| JList (l : list json)
| JDict (d : list (string * json)).

(** What [json.load] and [json.loads] are given: bytes that are not
    UTF-8 text, text that the JSON decoder rejects, or text that decodes
    to a value. *)
Inductive file_content : Type :=
| NotUtf8
| Unparseable
| JsonText (j : json).

Inductive exn : Type :=
| HttpError (status : Z) (content : file_content)
| ValueError (msg : string)
| JSONDecodeError (msg : string)
| KeyError (msg : string)
| TypeError (msg : string)
| AttributeError (msg : string)
| IndexError (msg : string)
| UnicodeDecodeError (msg : string)
| OverflowError (msg : string)
| OtherError (msg : string).

(** [str(e)] *)
Definition str_exn (e : exn) : string :=
  match e with
  | HttpError _ _ => "<HttpError>"
  | ValueError m | JSONDecodeError m | KeyError m | TypeError m
  | AttributeError m | IndexError m | UnicodeDecodeError m
  | OverflowError m | OtherError m => m
  end.

(** [isinstance(e, ValueError)]: [json.JSONDecodeError] and
    [UnicodeDecodeError] derive from [ValueError]. *)
Definition is_ValueError (e : exn) : bool :=
  match e with
  | ValueError _ | JSONDecodeError _ | UnicodeDecodeError _ => true
  | _ => false
  end.

Module Py.

Fixpoint assoc (k : string) (d : list (string * json)) : option json :=
  match d with
  | [] => None
  | (k', v) :: d' => if String.eqb k k' then Some v else assoc k d'
  end.

(** [v[k]] for a string key [k] *)
Definition getitem (v : json) (k : string) : exn + json :=
  match v with
  | JDict d => match assoc k d with
               | Some x => inr x
               | None => inl (KeyError k)
               end
  | JStr _ => inl (TypeError "string indices must be integers")
  | JList _ => inl (TypeError "list indices must be integers or slices")
  | _ => inl (TypeError "object is not subscriptable")
  end.

(** [v[0]] *)
Definition getitem0 (v : json) : exn + json :=
  match v with
  | JList (x :: _) => inr x
  | JList [] => inl (IndexError "list index out of range")
  | JStr (String a _) => inr (JStr (String a EmptyString))
  | JStr EmptyString => inl (IndexError "string index out of range")
  | JDict _ => inl (KeyError "0")
  | _ => inl (TypeError "object is not subscriptable")
  end.

(** [v.get(k, dflt)] *)
Definition get (v : json) (k : string) (dflt : json) : exn + json :=
  match v with
  | JDict d => inr (match assoc k d with Some x => x | None => dflt end)
  | _ => inl (AttributeError "object has no attribute 'get'")
  end.

(** truth value of [v] in a condition *)
Definition truthy (v : json) : bool :=
  match v with
  | JNull => false
  | JBool b => b
  | JInt z => negb (z =? 0)
  | JStr s => negb (String.eqb s "")
  | JList l => match l with [] => false | _ => true end
  | JDict d => match d with [] => false | _ => true end
  end.

Fixpoint chars (s : string) : list json :=
  match s with
  | EmptyString => []
  | String a s' => JStr (String a EmptyString) :: chars s'
  end.

(** the items [for x in v] runs over *)
Definition iter (v : json) : exn + list json :=
  match v with
  | JList l => inr l
  | JDict d => inr (map (fun kv => JStr (fst kv)) d)
  | JStr s => inr (chars s)
  | _ => inl (TypeError "object is not iterable")
  end.

(** [len(v)] *)
Definition len (v : json) : exn + nat :=
  match v with
  | JList l => inr (length l)
  | JDict d => inr (length d)
  | JStr s => inr (String.length s)
  | _ => inl (TypeError "object has no len()")
  end.

(** whether [v] may be put in a [set] *)
Definition hashable (v : json) : bool :=
  match v with
  | JList _ | JDict _ => false
  | _ => true
  end.

(** [v.extend(xs)] *)
Definition extend (v : json) (xs : list json) : exn + json :=
  match v with
  | JList l => inr (JList (l ++ xs))
  | _ => inl (AttributeError "object has no attribute 'extend'")
  end.

(** [s in st] for a string [s] and a set [st] of hashable values *)
Definition str_in_set (s : string) (st : list json) : bool :=
  existsb (fun j => match j with JStr s' => String.eqb s s' | _ => false end) st.

(** [s.strip(c)], [s.split(c)], [s.startswith(c)], [s[1:]] *)
Fixpoint lstrip (c : ascii) (s : string) : string :=
  match s with
  | String a s' => if Ascii.eqb a c then lstrip c s' else s
  | EmptyString => EmptyString
  end.

Fixpoint rstrip (c : ascii) (s : string) : string :=
  match s with
  | EmptyString => EmptyString
  | String a s' =>
      let r := rstrip c s' in
      if Ascii.eqb a c && String.eqb r "" then EmptyString else String a r
  end.

Definition strip (c : ascii) (s : string) : string := rstrip c (lstrip c s).

Fixpoint split (c : ascii) (s : string) : list string :=
  match s with
  | EmptyString => [EmptyString]
  | String a s' =>
      if Ascii.eqb a c then EmptyString :: split c s'
      else match split c s' with
           | x :: xs => String a x :: xs
           | [] => [String a EmptyString]
           end
  end.

Definition startswith (c : ascii) (s : string) : bool :=
  match s with
  | String a _ => Ascii.eqb a c
  | EmptyString => false
  end.

Definition tail (s : string) : string :=
  match s with
  | String _ s' => s'
  | EmptyString => EmptyString
  end.

(** [xs[-1]] of a non-empty list; [dflt] is never used by the callers *)
Definition last_seg (xs : list string) : string := List.last xs EmptyString.

End Py.

(** ** The remote service *)

(** The requests the script sends, as they appear in the call log. *)
Inductive request : Type :=
| SearchList (q : string)
| ChannelsForUsername (username : string)
| ChannelsContentDetails (channel_id : string)
| PlaylistItemsList (playlist_id : string) (page_token : option string)
| CommentThreadsList (video_id : string) (page_token : option string)
| CommentsList (parent_id : string) (page_token : option string).

(** [search().list] and [channels().list]: the script looks at
    ['items' in response], [len(response['items'])] and one field of the
    first item, reached by subscripts (['snippet']['channelId'], ['id'],
    ['contentDetails']['relatedPlaylists']['uploads']). An item is what
    these subscripts give on it: the string, or the exception they
    raise on an item that lacks the field. [None] is a response without
    the key ['items']. *)
Record listing := { items_field : option (list (exn + string)) }.

Record video_ref := { vid : string; vtitle : string }.

Record thread := {
  th_id : string;            (* snippet.topLevelComment.id *)
  th_text : string;          (* ...snippet.textDisplay *)
  th_published : string;     (* ...snippet.publishedAt *)
  th_likes : Z;              (* ...snippet.likeCount *)
  th_reply_count : Z         (* snippet.totalReplyCount *)
}.

Record reply_item := {
  rp_text : string;
  rp_published : string;
  rp_likes : Z
}.

Record page (A : Type) := { items : list A; nextPageToken : option string }.
Arguments items {A} _.
Arguments nextPageToken {A} _.

(** What each [.execute()] answers; the first argument is the number of
    calls the run has made before this one. *)
Record service := {
  search_execute : nat -> string -> exn + listing;
  channels_username_execute : nat -> string -> exn + listing;
  channels_details_execute : nat -> string -> exn + listing;
  playlist_items_execute : nat -> string -> option string -> exn + page video_ref;
  comment_threads_execute : nat -> string -> option string -> exn + page thread;
  comments_execute : nat -> string -> option string -> exn + page reply_item
}.

(** ** Output *)

Inductive message : Type :=
| MsgRetrying (wait_time : Q) (attempt max_retries : nat)
| MsgMaxRetries (max_retries : nat)
| MsgWarnCommentsFile (err : string)
| MsgWarnSubCommentsFile (err : string)
| MsgWarnReplies (parent_comment_id err : string)
| MsgWarnRepliesUnexpected (parent_comment_id err : string)
| MsgProcessingChannel (channel_id : string)
| MsgResolveError (err : string)
| MsgResuming (comments sub_comments : nat)
| MsgStartingFresh
| MsgFoundPlaylist (playlist_id : string)
| MsgChannelError (err : string)
| MsgChannelInfoError (err : string)
| MsgFoundVideos (n : nat)
| MsgVideosError (err : string)
| MsgToProcess (todo done : nat)
| MsgNothingToDo
| MsgSkipDisabled (video_title : string)
| MsgQuotaExceeded (comments sub_comments : nat) (quota daily_limit : Z)
| MsgVideoError (video_title err : string)
| MsgDiscrepancies (n : nat) (path : string)
| MsgComplete (comments sub_comments : nat) (quota daily_limit : Z)
| MsgUnexpected (err : string).

(** ** The state of a run *)

Record world := mkWorld {
  quota_used : Z;
  calls : list request;
  sleeps : list Q;
  stdout : list message;
  files : gmap string file_content
}.

Definition set_quota (q : Z) (w : world) : world :=
  mkWorld q (calls w) (sleeps w) (stdout w) (files w).
Definition log_call (r : request) (w : world) : world :=
  mkWorld (quota_used w) (calls w ++ [r]) (sleeps w) (stdout w) (files w).
Definition sleep (t : Q) (w : world) : world :=
  mkWorld (quota_used w) (calls w) (sleeps w ++ [t]) (stdout w) (files w).
Definition print (m : message) (w : world) : world :=
  mkWorld (quota_used w) (calls w) (sleeps w) (stdout w ++ [m]) (files w).
Definition write_file (path : string) (c : file_content) (w : world) : world :=
  mkWorld (quota_used w) (calls w) (sleeps w) (stdout w) (<[path := c]> (files w)).

(** A fresh process on a given file system. *)
Definition start (fs : gmap string file_content) : world :=
  mkWorld 0 [] [] [] fs.

Inductive outcome (A : Type) : Type :=
| Ret (a : A)
| Raise (e : exn)
| Diverge.
Arguments Ret {A} _.
Arguments Raise {A} _.
Arguments Diverge {A}.

Definition M (A : Type) : Type := world -> outcome A * world.

Definition ret {A} (a : A) : M A := fun w => (Ret a, w).
Definition raise {A} (e : exn) : M A := fun w => (Raise e, w).
Definition bind {A B} (m : M A) (k : A -> M B) : M B :=
  fun w => match m w with
           | (Ret a, w') => k a w'
           | (Raise e, w') => (Raise e, w')
           | (Diverge, w') => (Diverge, w')
           end.
Definition lift {A} (r : exn + A) : M A :=
  fun w => match r with inl e => (Raise e, w) | inr a => (Ret a, w) end.
Definition say (m : message) : M unit := fun w => (Ret tt, print m w).

Notation "'let*' x := m 'in' k" := (bind m (fun x => k))
  (at level 10, x pattern, m at level 100, k at level 200).
Notation "m ;; k" := (bind m (fun _ => k))
  (at level 100, k at level 200, right associativity).

(** ** Configuration *)

Definition output_dir : string := "output".
Definition retry_attempts : nat := 3.
Definition daily_quota_limit : Z := 10000.

(** ** Quota tracking *)

Definition QUOTA_COSTS : list (string * Z) :=
  [ ("channels.list", 1);
    ("playlistItems.list", 1);
    ("commentThreads.list", 1);
    ("comments.list", 1);
    ("search.list", 100) ].

Fixpoint costs_get (tbl : list (string * Z)) (op : string) (dflt : Z) : Z :=
  match tbl with
  | [] => dflt
  | (k, c) :: tbl' => if String.eqb op k then c else costs_get tbl' op dflt
  end.

Definition cost_of (operation_type : string) : Z :=
  costs_get QUOTA_COSTS operation_type 0.

Definition track_quota (operation_type : string) : M Z :=
  fun w =>
    let cost := cost_of operation_type in
    let w' := set_quota (quota_used w + cost) w in
    (Ret (quota_used w'), w').

(** ** Utility functions *)

(** [json.loads(http_error.content)], and [json.load(f)] on a file
    opened with [encoding='utf-8'] *)
Definition json_loads (c : file_content) : exn + json :=
  match c with
  | NotUtf8 => inl (UnicodeDecodeError "'utf-8' codec can't decode byte")
  | Unparseable => inl (JSONDecodeError "Expecting value")
  | JsonText j => inr j
  end.

Definition parse_http_error_reason_body (content : file_content) : exn + json :=
  match json_loads content with
  | inl e => inl e
  | inr error_content =>
      match Py.get error_content "error" (JDict []) with
      | inl e => inl e
      | inr err =>
          match Py.get err "errors" (JList [JDict []]) with
          | inl e => inl e
          | inr errors =>
              if Py.truthy errors then
                match Py.getitem0 errors with
                | inl e => inl e
                | inr first => Py.get first "reason" JNull
                end
              else inr JNull
          end
      end
  end.

(** The [except] clause lists [JSONDecodeError], [AttributeError],
    [IndexError] and [KeyError]; anything else leaves the function. *)
Definition parse_http_error_reason (content : file_content) : exn + json :=
  match parse_http_error_reason_body content with
  | inr r => inr r
  | inl (JSONDecodeError _) | inl (AttributeError _)
  | inl (IndexError _) | inl (KeyError _) => inr JNull
  | inl e => inl e
  end.

Definition reason_is (r : json) (name : string) : bool :=
  match r with JStr s => String.eqb s name | _ => false end.

(** [status in [429, 503]] *)
Definition retryable (status : Z) : bool := (status =? 429) || (status =? 503).

(** [operation_type] is [None] or a string; [if operation_type:] *)
Definition op_truthy (operation_type : option string) : option string :=
  match operation_type with
  | Some s => if String.eqb s "" then None else Some s
  | None => None
  end.

(** [n / d] rounded to the nearest integer, ties to the even one, for
    [d > 0]. *)
Definition round_div (n d : Z) : Z :=
  let f := n / d in
  let r := n mod d in
  if 2 * r <? d then f
  else if d <? 2 * r then f + 1
  else if Z.even f then f else f + 1.

(** The binary64 sum of [float(2 ** attempt)] and a jitter in [0, 1).
    The exact sum lies in [2^attempt, 2^(attempt+1)], where the
    floats are the multiples [m * 2^(attempt-52)]; the sum is rounded
    to the nearest of them, ties to the even [m]. *)
Definition float_add_pow2 (attempt : nat) (jitter : Q) : Q :=
  let p := 2 ^ Z.of_nat attempt in
  let jn := Qnum jitter in
  let jd := Z.pos (Qden jitter) in
  let m := round_div ((p * jd + jn) * 2 ^ 52) (p * jd) in
  Qmake (m * p) (2 ^ 52).

(** [(2 ** attempt) + random.uniform(0, 1)]: the integer is converted
    to a float first, which fails from [2 ** 1024] on. *)
Definition wait_time (attempt : nat) (jitter : Q) : exn + Q :=
  if 1024 <=? Z.of_nat attempt then
    inl (OverflowError "int too large to convert to float")
  else inr (float_add_pow2 attempt jitter).
Arguments wait_time : simpl never.

(** [time.sleep(secs)] converts the length to nanoseconds in a signed
    64-bit integer first. The waits of the gateway lie within one
    second of a power of two, away from the limit, where the rounding
    of the conversion does not matter. *)
Definition sleep_too_long (secs : Q) : bool :=
  Qle_bool (inject_Z (2 ^ 63)) (secs * inject_Z (10 ^ 9)).
Arguments sleep_too_long : simpl never.

Section Gateway.

(** [random.uniform(0, 1)], by draw number *)
Variable uniform01 : nat -> Q.

(** The body of [for attempt in range(max_retries)], from iteration
    [attempt] on, with [n] iterations left. A loop that runs out of
    iterations falls off the end of the function, which returns
    [None]. *)
Fixpoint retry_from {A} (api_func : M A) (operation_type : option string)
    (max_retries : nat) (n attempt : nat) : M (option A) :=
  match n with
  | O => ret None
  | S n' => fun w =>
      match api_func w with
      | (Ret result, w1) =>
          match op_truthy operation_type with
          | Some op => (Ret (Some result), snd (track_quota op w1))
          | None => (Ret (Some result), w1)
          end
      | (Raise (HttpError status content), w1) =>
          if retryable status then
            if (Z.of_nat attempt <? Z.of_nat max_retries - 1) then
              match wait_time attempt (uniform01 (length (sleeps w1))) with
              | inl e => (Raise e, w1)
              | inr t =>
                  let w2 := print (MsgRetrying t (attempt + 1) max_retries) w1 in
                  if sleep_too_long t then
                    (Raise (OverflowError
                              "timestamp too large to convert to C _PyTime_t"), w2)
                  else
                    retry_from api_func operation_type max_retries n' (S attempt)
                      (sleep t w2)
              end
            else
              (Raise (HttpError status content),
               print (MsgMaxRetries max_retries) w1)
          else (Raise (HttpError status content), w1)
      | (Raise e, w1) => (Raise e, w1)
      | (Diverge, w1) => (Diverge, w1)
      end
  end.

Definition api_call_with_retry {A} (api_func : M A)
    (operation_type : option string) (max_retries : option nat) : M (option A) :=
  let max_retries :=
    match max_retries with None => retry_attempts | Some n => n end in
  retry_from api_func operation_type max_retries max_retries 0.

End Gateway.

(** ** Resolution, state store and fetchers *)

(** The two fields of [urlparse(url)] the script reads. *)
Record parsed_url := { netloc : string; path : string }.

Definition youtube_hosts : list string :=
  ["www.youtube.com"; "youtube.com"; "m.youtube.com"].

Definition str_in (s : string) (l : list string) : bool :=
  existsb (String.eqb s) l.

(** [create_video_link] *)
Definition create_video_link (video_id : string) : string :=
  "https://www.youtube.com/watch?v=" +:+ video_id.

(** [atomic_write_json]: the target holds the old content until
    [os.replace] puts the complete new one in its place. *)
Definition atomic_write_json (file_path : string) (data : json) : M unit :=
  fun w => (Ret tt, write_file file_path (JsonText data) w).

(** [if not next_page_token: break] *)
Definition more_pages (next_page_token : option string) : option string :=
  match next_page_token with
  | Some t => if String.eqb t "" then None else Some t
  | None => None
  end.

Record discrepancy := {
  d_parent_comment_id : string;
  d_video_id : string;
  d_video_title : string;
  d_video_link : string;
  d_expected_count : Z;
  d_fetched_count : Z;
  d_missing_count : Z;
  d_error : option string
}.

Definition discrepancy_json (d : discrepancy) : json :=
  JDict ([ ("parent_comment_id", JStr (d_parent_comment_id d));
           ("video_id", JStr (d_video_id d));
           ("video_title", JStr (d_video_title d));
           ("video_link", JStr (d_video_link d));
           ("expected_count", JInt (d_expected_count d));
           ("fetched_count", JInt (d_fetched_count d));
           ("missing_count", JInt (d_missing_count d)) ]
         ++ match d_error d with
            | Some e => [("error", JStr e)]
            | None => []
            end).

Definition comment_obj (video_title video_link : string) (t : thread) : json :=
  JDict [ ("comment", JStr (th_text t));
          ("videoTitle", JStr video_title);
          ("videoLink", JStr video_link);
          ("datePostComment", JStr (th_published t));
          ("likesCount", JInt (th_likes t)) ].

Definition sub_comment_obj (parent_comment_id video_title video_id : string)
    (r : reply_item) : json :=
  JDict [ ("subComment", JStr (rp_text r));
          ("parentCommentId", JStr parent_comment_id);
          ("videoTitle", JStr video_title);
          ("videoLinkId", JStr video_id);
          ("datePostSubComment", JStr (rp_published r));
          ("likeCount", JInt (rp_likes r)) ].

(** The [(parent_comment_id, total_reply_count)] pairs of one page. *)
Definition reply_pointers (ts : list thread) : list (string * Z) :=
  map (fun t => (th_id t, th_reply_count t))
      (List.filter (fun t => 0 <? th_reply_count t) ts).

(** [set(comment['videoLink'] for comment in existing_comments)], the
    set being kept as the list of the values put into it. *)
Fixpoint video_links (comments : list json) : exn + list json :=
  match comments with
  | [] => inr []
  | comment :: rest =>
      match Py.getitem comment "videoLink" with
      | inl e => inl e
      | inr v =>
          if Py.hashable v then
            match video_links rest with
            | inl e => inl e
            | inr vs => inr (v :: vs)
            end
          else inl (TypeError "unhashable type")
      end
  end.

Section Pipeline.

Variable youtube : service.
Variable uniform01 : nat -> Q.
Variable urlparse : string -> exn + parsed_url.

(** [lambda: youtube.<resource>().list(...).execute()] *)
Definition execute {A} (r : request) (answer : nat -> exn + A) : M A :=
  fun w => (match answer (length (calls w)) with
            | inl e => Raise e
            | inr a => Ret a
            end, log_call r w).

(** A gateway call with the default [max_retries]; using the result
    when the gateway returned [None] is a [TypeError]. *)
Definition call {A} (r : request) (answer : nat -> exn + A)
    (operation_type : string) : M A :=
  let* response :=
    api_call_with_retry uniform01 (execute r answer) (Some operation_type) None in
  match response with
  | Some r => ret r
  | None => raise (TypeError "'NoneType' object is not subscriptable")
  end.

(** [if 'items' in response and len(response['items']) > 0:
       return response['items'][0][...]
     else: raise ValueError(msg)] *)
Definition first_item (response : listing) (msg : string) : M string :=
  match items_field response with
  | Some (item :: _) => lift item
  | _ => raise (ValueError msg)
  end.

Definition get_channel_id_from_url_try (url : string) : M string :=
  let* parsed := lift (urlparse url) in
  if negb (str_in (netloc parsed) youtube_hosts) then
    raise (ValueError ("Invalid YouTube URL: " +:+ url))
  else
    let path := Py.strip "/" (path parsed) in
    let path_segments := Py.split "/" path in
    match path_segments with
    | [] => raise (ValueError ("Invalid YouTube channel URL format: " +:+ url))
    | seg0 :: rest =>
        match String.eqb seg0 "channel", rest with
        | true, seg1 :: _ => ret seg1
        | _, _ =>
            if Py.startswith "@" seg0 then
              let username := Py.tail seg0 in
              let q := "@" +:+ username in
              let* response :=
                call (SearchList q) (fun n => search_execute youtube n q)
                  "search.list" in
              first_item response ("Channel not found for handle: @" +:+ username)
            else
              match String.eqb seg0 "c", rest with
              | true, custom_name :: _ =>
                  let* response :=
                    call (SearchList custom_name)
                      (fun n => search_execute youtube n custom_name)
                      "search.list" in
                  first_item response
                    ("Channel not found for custom name: " +:+ custom_name)
              | _, _ =>
                  match String.eqb seg0 "user", rest with
                  | true, username :: _ =>
                      let* response :=
                        call (ChannelsForUsername username)
                          (fun n => channels_username_execute youtube n username)
                          "channels.list" in
                      first_item response
                        ("Channel not found for username: " +:+ username)
                  | _, _ =>
                      let potential_id := Py.last_seg path_segments in
                      if negb (String.eqb potential_id "")
                         && (String.length potential_id =? 24)%nat
                      then ret potential_id
                      else raise (ValueError
                             ("Unable to extract channel ID from URL: " +:+ url))
                  end
              end
        end
    end.

Definition get_channel_id_from_url (url : string) : M string :=
  fun w =>
    match get_channel_id_from_url_try url w with
    | (Raise e, w') =>
        if is_ValueError e then (Raise e, w')
        else (Raise (ValueError ("Error parsing URL: " +:+ str_exn e)), w')
    | r => r
    end.

Definition load_state_try (c : file_content) : exn + (list json * json) :=
  match json_loads c with
  | inl e => inl e
  | inr existing_comments =>
      match Py.iter existing_comments with
      | inl e => inl e
      | inr comments =>
          match video_links comments with
          | inl e => inl e
          | inr processed_videos_set => inr (processed_videos_set, existing_comments)
          end
      end
  end.

Definition load_state (comments_file : string) : M (list json * json) :=
  fun w =>
    match files w !! comments_file with
    | Some c =>
        match load_state_try c with
        | inr r => (Ret r, w)
        | inl (JSONDecodeError m) =>
            (Ret ([], JList []), print (MsgWarnCommentsFile m) w)
        | inl (KeyError m) =>
            (Ret ([], JList []), print (MsgWarnCommentsFile m) w)
        | inl e => (Raise e, w)
        end
    | None => (Ret ([], JList []), w)
    end.

Definition load_sub_comments (sub_comments_file : string) : M json :=
  fun w =>
    match files w !! sub_comments_file with
    | Some c =>
        match json_loads c with
        | inr existing_sub_comments => (Ret existing_sub_comments, w)
        | inl (JSONDecodeError m) =>
            (Ret (JList []), print (MsgWarnSubCommentsFile m) w)
        | inl e => (Raise e, w)
        end
    | None => (Ret (JList []), w)
    end.

Definition get_uploads_playlist_id (channel_id : string) : M string :=
  fun w =>
    match (let* response :=
             call (ChannelsContentDetails channel_id)
               (fun n => channels_details_execute youtube n channel_id)
               "channels.list" in
           first_item response ("Channel not found: " +:+ channel_id)) w with
    | (Raise e, w') =>
        if is_ValueError e then (Raise e, w')
        else (Raise (OtherError
                ("Error retrieving uploads playlist ID: " +:+ str_exn e)), w')
    | r => r
    end.

Fixpoint videos_pages (fuel : nat) (playlist_id : string)
    (next_page_token : option string) (videos : list video_ref)
    : M (list video_ref) :=
  match fuel with
  | O => fun w => (Diverge, w)
  | S fuel' =>
      let* response :=
        call (PlaylistItemsList playlist_id next_page_token)
          (fun n => playlist_items_execute youtube n playlist_id next_page_token)
          "playlistItems.list" in
      let videos := videos ++ items response in
      match more_pages (nextPageToken response) with
      | Some t => videos_pages fuel' playlist_id (Some t) videos
      | None => ret videos
      end
  end.

Definition get_all_video_ids_and_titles (fuel : nat) (playlist_id : string)
    : M (list video_ref) :=
  fun w =>
    match videos_pages fuel playlist_id None [] w with
    | (Raise e, w') =>
        (Raise (OtherError ("Error fetching videos from playlist "
                            +:+ playlist_id +:+ ": " +:+ str_exn e)), w')
    | r => r
    end.

Fixpoint comment_pages (fuel : nat) (video_id video_title video_link : string)
    (next_page_token : option string)
    (comments_list : list json) (threads_with_replies : list (string * Z))
    : M (list json * list (string * Z)) :=
  match fuel with
  | O => fun w => (Diverge, w)
  | S fuel' =>
      let* response :=
        call (CommentThreadsList video_id next_page_token)
          (fun n => comment_threads_execute youtube n video_id next_page_token)
          "commentThreads.list" in
      let comments_list :=
        comments_list ++ map (comment_obj video_title video_link) (items response) in
      let threads_with_replies :=
        threads_with_replies ++ reply_pointers (items response) in
      match more_pages (nextPageToken response) with
      | Some t =>
          comment_pages fuel' video_id video_title video_link (Some t)
            comments_list threads_with_replies
      | None => ret (comments_list, threads_with_replies)
      end
  end.

(** The [except HttpError: raise] clause changes nothing. *)
Definition fetch_video_comments (fuel : nat)
    (video_id video_title video_link : string)
    : M (list json * list (string * Z)) :=
  comment_pages fuel video_id video_title video_link None [] [].

Fixpoint reply_pages (fuel : nat) (parent_comment_id video_title video_id : string)
    (next_page_token : option string) (sub_comments_list : list json)
    : M (list json) :=
  match fuel with
  | O => fun w => (Diverge, w)
  | S fuel' =>
      let* response :=
        call (CommentsList parent_comment_id next_page_token)
          (fun n => comments_execute youtube n parent_comment_id next_page_token)
          "comments.list" in
      let sub_comments_list :=
        sub_comments_list
        ++ map (sub_comment_obj parent_comment_id video_title video_id)
               (items response) in
      match more_pages (nextPageToken response) with
      | Some t =>
          reply_pages fuel' parent_comment_id video_title video_id (Some t)
            sub_comments_list
      | None => ret sub_comments_list
      end
  end.

Definition fetch_comment_replies (fuel : nat)
    (parent_comment_id video_title video_id : string) : M (list json) :=
  fun w =>
    match reply_pages fuel parent_comment_id video_title video_id None [] w with
    | (Raise (HttpError status content), w') =>
        match parse_http_error_reason content with
        | inl e' => (Raise e', w')
        | inr error_reason =>
            if reason_is error_reason "quotaExceeded" then
              (Raise (HttpError status content), w')
            else
              (Ret [], print (MsgWarnReplies parent_comment_id
                                (str_exn (HttpError status content))) w')
        end
    | (Raise e, w') =>
        (Ret [], print (MsgWarnRepliesUnexpected parent_comment_id (str_exn e)) w')
    | r => r
    end.

(** *** The main loop *)

(** The loop-carried variables of [__main__]. *)
Record masters := {
  master_comments_list : json;
  master_sub_comments_list : json;
  failed_reply_fetches : list discrepancy
}.

(** How an iteration of [for video in ...] ends: falling through or
    [continue], or [break]. *)
Inductive flow : Type := Next | Break.

Definition mismatch (video : video_ref) (parent_comment_id : string)
    (reply_count fetched : Z) (err : option string) : discrepancy :=
  {| d_parent_comment_id := parent_comment_id;
     d_video_id := vid video;
     d_video_title := vtitle video;
     d_video_link := create_video_link (vid video);
     d_expected_count := reply_count;
     d_fetched_count := fetched;
     d_missing_count := reply_count - fetched;
     d_error := err |}.

(** One iteration of [for parent_comment_id, reply_count in
    threads_with_replies], with its own [try]/[except Exception]. *)
Definition reply_step (fuel : nat) (video : video_ref)
    (acc : list json * list discrepancy) (ptr : string * Z)
    : M (list json * list discrepancy) :=
  fun w =>
    let new_sub_comments := fst acc in
    let failed := snd acc in
    let parent_comment_id := fst ptr in
    let reply_count := snd ptr in
    match fetch_comment_replies fuel parent_comment_id (vtitle video) (vid video) w with
    | (Ret replies, w') =>
        let fetched := Z.of_nat (length replies) in
        (Ret (new_sub_comments ++ replies,
              if fetched =? reply_count then failed
              else failed ++ [mismatch video parent_comment_id reply_count fetched None]),
         w')
    | (Raise e, w') =>
        (Ret (new_sub_comments,
              failed ++ [mismatch video parent_comment_id reply_count 0
                           (Some (str_exn e))]),
         w')
    | (Diverge, w') => (Diverge, w')
    end.

Fixpoint replies_loop (fuel : nat) (video : video_ref)
    (threads_with_replies : list (string * Z))
    (acc : list json * list discrepancy) : M (list json * list discrepancy) :=
  match threads_with_replies with
  | [] => ret acc
  | ptr :: rest =>
      let* acc' := reply_step fuel video acc ptr in
      replies_loop fuel video rest acc'
  end.

(** The [try] block of an iteration: the comments, then the replies. *)
Definition video_try (fuel : nat) (video : video_ref) (failed : list discrepancy)
    : M (list json * (list json * list discrepancy)) :=
  let* fetched :=
    fetch_video_comments fuel (vid video) (vtitle video)
      (create_video_link (vid video)) in
  let* acc := replies_loop fuel video (snd fetched) ([], failed) in
  ret (fst fetched, acc).

(** The merge and the two saves that end an iteration. *)
Definition merge_and_save (comments_file sub_comments_file : string)
    (st : masters) (new_comments new_sub_comments : list json)
    (failed : list discrepancy) : M (flow * masters) :=
  let* mc := lift (Py.extend (master_comments_list st) new_comments) in
  let* ms := lift (Py.extend (master_sub_comments_list st) new_sub_comments) in
  atomic_write_json comments_file mc ;;
  atomic_write_json sub_comments_file ms ;;
  ret (Next, {| master_comments_list := mc;
                master_sub_comments_list := ms;
                failed_reply_fetches := failed |}).

(** The [except HttpError] clause of an iteration. *)
Definition on_http_error (video : video_ref) (st : masters)
    (status : Z) (content : file_content) : M (flow * masters) :=
  let* error_reason := lift (parse_http_error_reason content) in
  if reason_is error_reason "commentsDisabled" then
    say (MsgSkipDisabled (vtitle video)) ;; ret (Next, st)
  else if reason_is error_reason "quotaExceeded" then
    let* n := lift (Py.len (master_comments_list st)) in
    let* m := lift (Py.len (master_sub_comments_list st)) in
    (fun w => (Ret (Break, st),
               print (MsgQuotaExceeded n m (quota_used w) daily_quota_limit) w))
  else
    say (MsgVideoError (vtitle video) (str_exn (HttpError status content))) ;;
    ret (Next, st).

(** One iteration of [for video in videos_to_process]. The reply loop
    catches every exception of its body, so the [try] block raises
    only out of [fetch_video_comments], before [failed_reply_fetches]
    is touched. *)
Definition process_video (fuel : nat) (comments_file sub_comments_file : string)
    (video : video_ref) (st : masters) : M (flow * masters) :=
  fun w =>
    match video_try fuel video (failed_reply_fetches st) w with
    | (Ret (new_comments, (new_sub_comments, failed)), w') =>
        merge_and_save comments_file sub_comments_file st
          new_comments new_sub_comments failed w'
    | (Raise (HttpError status content), w') =>
        on_http_error video st status content w'
    | (Raise e, w') =>
        (Ret (Next, st), print (MsgVideoError (vtitle video) (str_exn e)) w')
    | (Diverge, w') => (Diverge, w')
    end.

Fixpoint main_loop (fuel : nat) (comments_file sub_comments_file : string)
    (videos_to_process : list video_ref) (st : masters) : M masters :=
  match videos_to_process with
  | [] => ret st
  | video :: rest =>
      let* r := process_video fuel comments_file sub_comments_file video st in
      match fst r with
      | Next => main_loop fuel comments_file sub_comments_file rest (snd r)
      | Break => ret (snd r)
      end
  end.

(** *** The run *)

Definition comments_path (channel_id : string) : string :=
  output_dir +:+ "/" +:+ channel_id +:+ "_comments.json".
Definition sub_comments_path (channel_id : string) : string :=
  output_dir +:+ "/" +:+ channel_id +:+ "_sub_comments.json".
Definition failed_replies_path (channel_id : string) : string :=
  output_dir +:+ "/" +:+ channel_id +:+ "_failed_replies.json".

(** Step 7 *)
Definition worklist (all_videos : list video_ref) (processed_videos_set : list json)
    : list video_ref :=
  List.filter (fun v => negb (Py.str_in_set (create_video_link (vid v)) processed_videos_set))
         all_videos.

(** Steps 8 to 10 *)
Definition extract (fuel : nat) (channel_id : string)
    (videos_to_process : list video_ref) (mc ms : json) : M Z :=
  let* st :=
    main_loop fuel (comments_path channel_id) (sub_comments_path channel_id)
      videos_to_process
      {| master_comments_list := mc;
         master_sub_comments_list := ms;
         failed_reply_fetches := [] |} in
  (match failed_reply_fetches st with
   | [] => ret tt
   | ds =>
       atomic_write_json (failed_replies_path channel_id)
         (JList (map discrepancy_json ds)) ;;
       say (MsgDiscrepancies (length ds) (failed_replies_path channel_id))
   end) ;;
  let* n := lift (Py.len (master_comments_list st)) in
  let* m := lift (Py.len (master_sub_comments_list st)) in
  (fun w => (Ret 0, print (MsgComplete n m (quota_used w) daily_quota_limit) w)).

(** Steps 3 to 10, once the channel id is known. The result is the
    exit status. *)
Definition run_channel (fuel : nat) (channel_id : string) : M Z :=
  let* st := load_state (comments_path channel_id) in
  let processed_videos_set := fst st in
  let master_comments_list := snd st in
  let* master_sub_comments_list := load_sub_comments (sub_comments_path channel_id) in
  (match processed_videos_set with
   | _ :: _ =>
       let* n := lift (Py.len master_comments_list) in
       let* m := lift (Py.len master_sub_comments_list) in
       say (MsgResuming n m)
   | [] => say MsgStartingFresh
   end) ;;
  fun w =>
    match get_uploads_playlist_id channel_id w with
    | (Raise e, w1) =>
        if is_ValueError e then (Ret 1, print (MsgChannelError (str_exn e)) w1)
        else (Ret 1, print (MsgChannelInfoError (str_exn e)) w1)
    | (Diverge, w1) => (Diverge, w1)
    | (Ret uploads_playlist_id, w1) =>
        let w1 := print (MsgFoundPlaylist uploads_playlist_id) w1 in
        match get_all_video_ids_and_titles fuel uploads_playlist_id w1 with
        | (Raise e, w2) => (Ret 1, print (MsgVideosError (str_exn e)) w2)
        | (Diverge, w2) => (Diverge, w2)
        | (Ret all_videos, w2) =>
            let w2 := print (MsgFoundVideos (length all_videos)) w2 in
            let videos_to_process := worklist all_videos processed_videos_set in
            let w2 := print (MsgToProcess (length videos_to_process)
                               (length all_videos - length videos_to_process)) w2 in
            match videos_to_process with
            | [] => (Ret 0, print MsgNothingToDo w2)
            | _ =>
                extract fuel channel_id videos_to_process
                  master_comments_list master_sub_comments_list w2
            end
        end
    end.

(** Step 2 onwards *)
Definition main_try (fuel : nat) (channel_url : string) : M Z :=
  fun w =>
    match get_channel_id_from_url channel_url w with
    | (Raise e, w1) =>
        if is_ValueError e then (Ret 1, print (MsgResolveError (str_exn e)) w1)
        else (Raise e, w1)
    | (Diverge, w1) => (Diverge, w1)
    | (Ret channel_id, w1) =>
        run_channel fuel channel_id (print (MsgProcessingChannel channel_id) w1)
    end.

(** [__main__] with its outermost [except Exception]: the exit status
    of the process, or [None] when a page loop never ends. *)
Definition main (fuel : nat) (channel_url : string) (w : world) : option Z * world :=
  match main_try fuel channel_url w with
  | (Ret status, w') => (Some status, w')
  | (Raise e, w') => (Some 1, print (MsgUnexpected (str_exn e)) w')
  | (Diverge, w') => (None, w')
  end.

End Pipeline.

(** ** Vocabulary of the statements *)

(** A thunk that only talks to the remote: it may log calls, and leaves
    the counter, the sleep log, the output and the files alone. *)
Definition remote_only {A} (api_func : M A) : Prop :=
  forall w,
    quota_used (snd (api_func w)) = quota_used w
    /\ sleeps (snd (api_func w)) = sleeps w
    /\ stdout (snd (api_func w)) = stdout w
    /\ files (snd (api_func w)) = files w.

(** The four documented URL shapes, as conditions on the path segments:
    [/channel/ID], [/@handle], [/c/Name], [/user/name]. *)
Definition documented_format (path_segments : list string) : bool :=
  match path_segments with
  | seg0 :: rest =>
      (String.eqb seg0 "channel" && (2 <=? length path_segments)%nat)
      || Py.startswith "@" seg0
      || (String.eqb seg0 "c" && (2 <=? length path_segments)%nat)
      || (String.eqb seg0 "user" && (2 <=? length path_segments)%nat)
  | [] => false
  end.

Definition segments_of (p : parsed_url) : list string :=
  Py.split "/" (Py.strip "/" (path p)).

(** What a gateway call charges when it succeeds. *)
Definition charge (operation_type : option string) : Z :=
  match op_truthy operation_type with
  | Some op => cost_of op
  | None => 0
  end.

(** A gateway call: its thunk, its operation type, its retry ceiling. *)
Record gateway_call := {
  gc_result : Type;
  gc_thunk : M gc_result;
  gc_operation_type : option string;
  gc_max_retries : option nat
}.

(** Gateway calls made one after the other, whatever each one's fate;
    the result lists the operation types of the calls that succeeded. *)
Fixpoint run_calls (uniform01 : nat -> Q) (cs : list gateway_call) (w : world)
    : list (option string) * world :=
  match cs with
  | [] => ([], w)
  | c :: rest =>
      match api_call_with_retry uniform01 (gc_thunk c) (gc_operation_type c)
              (gc_max_retries c) w with
      | (Ret (Some _), w') =>
          let r := run_calls uniform01 rest w' in
          (gc_operation_type c :: fst r, snd r)
      | (_, w') => run_calls uniform01 rest w'
      end
  end.

Definition same_kind (kind : string) (operation_type : option string) : bool :=
  match operation_type with
  | Some op => String.eqb op kind
  | None => false
  end.

Fixpoint total_charge (ops : list (option string)) : Z :=
  match ops with
  | [] => 0
  | op :: rest => charge op + total_charge rest
  end.

(** [2^i <= t < 2^i + 1] *)
Definition in_backoff_window (i : nat) (t : Q) : Prop :=
  (inject_Z (2 ^ Z.of_nat i) <= t)%Q /\ (t < inject_Z (2 ^ Z.of_nat i) + 1)%Q.

(** [2^i <= t <= 2^i + 1] *)
Definition in_closed_backoff_window (i : nat) (t : Q) : Prop :=
  (inject_Z (2 ^ Z.of_nat i) <= t)%Q /\ (t <= inject_Z (2 ^ Z.of_nat i) + 1)%Q.

Definition is_retryable_error (e : exn) : bool :=
  match e with
  | HttpError status _ => retryable status
  | _ => false
  end.

(** ** Concrete instances, to run the model *)

(** A reading of [urlparse] for URLs of the shape
    [scheme://host/path?query#fragment]: the host is what stands between
    [//] and the next [/], [?] or [#]; the path runs up to [?] or [#]. *)
Fixpoint break_at (stop : ascii -> bool) (s : string) : string * string :=
  match s with
  | EmptyString => (EmptyString, EmptyString)
  | String a s' =>
      if stop a then (EmptyString, s)
      else let r := break_at stop s' in (String a (fst r), snd r)
  end.

Definition urlparse_simple (url : string) : exn + parsed_url :=
  let after_scheme :=
    match snd (break_at (Ascii.eqb ":") url) with
    | String _ r => r
    | EmptyString => url
    end in
  match after_scheme with
  | String "/" (String "/" r) =>
      let host := break_at (fun a => Ascii.eqb a "/" || Ascii.eqb a "?" || Ascii.eqb a "#") r in
      inr {| netloc := fst host;
             path := fst (break_at (fun a => Ascii.eqb a "?" || Ascii.eqb a "#") (snd host)) |}
  | _ =>
      inr {| netloc := EmptyString;
             path := fst (break_at (fun a => Ascii.eqb a "?" || Ascii.eqb a "#") after_scheme) |}
  end.

Definition half_jitter : nat -> Q := fun _ => (1 # 2)%Q.

Definition error_body (reason : string) : file_content :=
  JsonText (JDict [("error", JDict [("errors", JList [JDict [("reason", JStr reason)]])])]).

Definition quota_exceeded : exn := HttpError 403 (error_body "quotaExceeded").

Definition demo_thread (id text : string) (replies : Z) : thread :=
  {| th_id := id; th_text := text; th_published := "2024-01-01T00:00:00Z";
     th_likes := 0; th_reply_count := replies |}.

Definition demo_reply (text : string) : reply_item :=
  {| rp_text := text; rp_published := "2024-01-02T00:00:00Z"; rp_likes := 1 |}.

Definition one_page {A} (xs : list A) : page A :=
  {| items := xs; nextPageToken := None |}.

(** A small channel. The handle ["@ghost"] resolves to nothing. Video
    ["v1"] has two comments without replies; the comment listing of
    ["v2"] is refused for lack of quota; ["v3"] has one comment that
    announces five replies of which three are served; ["v4"] has one
    comment whose replies are refused for lack of quota; any other video
    has no comment. *)
Definition demo : service := {|
  search_execute := fun _ q =>
    if String.eqb q "@ghost" then inr {| items_field := Some [] |}
    else inr {| items_field := Some [inr "UCdemodemodemodemodemo00"] |};
  channels_username_execute := fun _ _ => inr {| items_field := None |};
  channels_details_execute := fun _ _ => inr {| items_field := Some [inr "UUdemo"] |};
  playlist_items_execute := fun _ _ _ =>
    inr (one_page [ {| vid := "v1"; vtitle := "First" |};
                    {| vid := "v2"; vtitle := "Second" |};
                    {| vid := "v3"; vtitle := "Third" |} ]);
  comment_threads_execute := fun _ video_id _ =>
    if String.eqb video_id "v1" then
      inr (one_page [demo_thread "c1" "hello" 0; demo_thread "c2" "world" 0])
    else if String.eqb video_id "v2" then inl quota_exceeded
    else if String.eqb video_id "v3" then inr (one_page [demo_thread "c5" "thread" 5])
    else if String.eqb video_id "v4" then inr (one_page [demo_thread "cq" "late" 2])
    else inr (one_page []);
  comments_execute := fun _ parent_id _ =>
    if String.eqb parent_id "c5" then
      inr (one_page [demo_reply "r1"; demo_reply "r2"; demo_reply "r3"])
    else if String.eqb parent_id "cq" then inl quota_exceeded
    else inr (one_page [])
|}.

(** A channel with one video, which has no comment. *)
Definition silent : service := {|
  search_execute := fun _ _ => inr {| items_field := Some [] |};
  channels_username_execute := fun _ _ => inr {| items_field := None |};
  channels_details_execute := fun _ _ => inr {| items_field := Some [inr "UUsilent"] |};
  playlist_items_execute := fun _ _ _ => inr (one_page [ {| vid := "s1"; vtitle := "Quiet" |} ]);
  comment_threads_execute := fun _ _ _ => inr (one_page []);
  comments_execute := fun _ _ _ => inr (one_page [])
|}.

(** A thunk that is rate limited on the first [k] calls of the run and
    answers afterwards; one that is always rate limited; one that is
    refused outright. *)
Definition flaky (k : nat) : M nat :=
  fun w => (if (length (calls w) <? k)%nat then Raise (HttpError 429 Unparseable)
            else Ret (length (calls w)),
            log_call (SearchList "flaky") w).

Definition always_limited : M nat :=
  fun w => (Raise (HttpError 503 Unparseable), log_call (SearchList "limited") w).

Definition forbidden : M nat :=
  fun w => (Raise (HttpError 403 Unparseable), log_call (SearchList "forbidden") w).

Definition v1 : video_ref := {| vid := "v1"; vtitle := "First" |}.
Definition v2 : video_ref := {| vid := "v2"; vtitle := "Second" |}.
Definition v3 : video_ref := {| vid := "v3"; vtitle := "Third" |}.
Definition v4 : video_ref := {| vid := "v4"; vtitle := "Fourth" |}.

(** Four gateway calls on [demo]: a channel lookup, a search, a reply
    listing that is refused, and a second channel lookup. *)
Definition demo_calls : list gateway_call :=
  [ {| gc_result := listing;
       gc_thunk := execute (ChannelsContentDetails "UCx")
                     (fun n => channels_details_execute demo n "UCx");
       gc_operation_type := Some "channels.list";
       gc_max_retries := None |};
    {| gc_result := listing;
       gc_thunk := execute (SearchList "@someone")
                     (fun n => search_execute demo n "@someone");
       gc_operation_type := Some "search.list";
       gc_max_retries := None |};
    {| gc_result := page reply_item;
       gc_thunk := execute (CommentsList "cq" None)
                     (fun n => comments_execute demo n "cq" None);
       gc_operation_type := Some "comments.list";
       gc_max_retries := None |};
    {| gc_result := listing;
       gc_thunk := execute (ChannelsContentDetails "UCy")
                     (fun n => channels_details_execute demo n "UCy");
       gc_operation_type := Some "channels.list";
       gc_max_retries := None |} ].

(** A comment file that is valid JSON of another shape: a list holding
    a number. *)
Definition misshapen_fs : gmap string file_content :=
  {[ "output/UCx_comments.json" := JsonText (JList [JInt 1]) ]}.

(** A computation that leaves the files alone. *)
Definition tame {A} (m : M A) : Prop := forall w, files (snd (m w)) = files w.

(** ** Vocabulary for two runs in a row *)

(** The remote answers a request the same way whenever it is asked:
    there is no new upstream data. *)
Definition time_invariant (s : service) : Prop :=
  (forall n m q, search_execute s n q = search_execute s m q)
  /\ (forall n m u, channels_username_execute s n u = channels_username_execute s m u)
  /\ (forall n m c, channels_details_execute s n c = channels_details_execute s m c)
  /\ (forall n m p t, playlist_items_execute s n p t = playlist_items_execute s m p t)
  /\ (forall n m v t, comment_threads_execute s n v t = comment_threads_execute s m v t)
  /\ (forall n m c t, comments_execute s n c t = comments_execute s m c t).

(** A computation whose result does not depend on the world it starts
    in. *)
Definition blind {A} (m : M A) : Prop := forall w w', fst (m w) = fst (m w').

(** How an iteration of the main loop ends for a video, when the master
    sequences are lists. *)
Inductive verdict : Type :=
| VMerge (cs subs : list json) (ds : list discrepancy)
| VSkip
| VBreak
| VCrash (e : exn)
| VDiverge.

(** The verdict on a video, read off a run of the [try] block and of the
    handler's test from a blank world. *)
Definition verdict_of (youtube : service) (uniform01 : nat -> Q) (fuel : nat)
    (video : video_ref) : verdict :=
  match fst (video_try youtube uniform01 fuel video [] (start ∅)) with
  | Ret (cs, (subs, ds)) => VMerge cs subs ds
  | Raise (HttpError status content) =>
      match parse_http_error_reason content with
      | inl e => VCrash e
      | inr error_reason =>
          if reason_is error_reason "commentsDisabled" then VSkip
          else if reason_is error_reason "quotaExceeded" then VBreak
          else VSkip
      end
  | Raise _ => VSkip
  | Diverge => VDiverge
  end.

Section Replay.

Variable verdict_on : video_ref -> verdict.

(** The videos the loop gets to. *)
Fixpoint reached (vs : list video_ref) : list video_ref :=
  match vs with
  | [] => []
  | u :: rest =>
      u :: match verdict_on u with
           | VMerge _ _ _ | VSkip => reached rest
           | _ => []
           end
  end.

(** What the loop appends to the two master sequences and to the
    discrepancies, and whether it saves at all. *)
Fixpoint merged (vs : list video_ref) : list json * list json * list discrepancy :=
  match vs with
  | [] => ([], [], [])
  | u :: rest =>
      match verdict_on u with
      | VMerge cs subs ds =>
          (cs ++ fst (fst (merged rest)), subs ++ snd (fst (merged rest)),
           ds ++ snd (merged rest))
      | VSkip => merged rest
      | _ => ([], [], [])
      end
  end.

Fixpoint saves (vs : list video_ref) : bool :=
  match vs with
  | [] => false
  | u :: rest =>
      match verdict_on u with
      | VMerge _ _ _ => true
      | VSkip => saves rest
      | _ => false
      end
  end.

(** How the loop ends: it runs to the end of the list or to a [break]
    ([None]), is left by an exception, or never ends. *)
Fixpoint ending (vs : list video_ref) : outcome unit :=
  match vs with
  | [] => Ret tt
  | u :: rest =>
      match verdict_on u with
      | VMerge _ _ _ | VSkip => ending rest
      | VBreak => Ret tt
      | VCrash e => Raise e
      | VDiverge => Diverge
      end
  end.

End Replay.

Definition is_stop (v : verdict) : bool :=
  match v with
  | VBreak | VCrash _ => true
  | _ => false
  end.

Definition is_list (j : json) : bool :=
  match j with JList _ => true | _ => false end.

(** Master sequences that are lists. *)
Definition lists (a b : list json) (f : list discrepancy) : masters :=
  {| master_comments_list := JList a;
     master_sub_comments_list := JList b;
     failed_reply_fetches := f |}.

(** [c['videoLink'] == link] *)
Definition has_link (link : string) (c : json) : Prop :=
  Py.getitem c "videoLink" = inr (JStr link).

(** ** Vocabulary for the further properties *)

(** The pages a listing serves to a loop that asks for the first one
    with [token] as the [n]-th call: each page is the answer to the
    token of the page before it, asked by the next call, and the last
    one is the first whose token ends the loop. *)
Fixpoint served {A} (answer : nat -> option string -> exn + page A)
    (n : nat) (token : option string) (pages : list (page A)) : Prop :=
  match pages with
  | [] => False
  | p :: rest =>
      answer n token = inr p
      /\ match rest with
         | [] => more_pages (nextPageToken p) = None
         | _ :: _ =>
             exists t, more_pages (nextPageToken p) = Some t
                       /\ served answer (S n) (Some t) rest
         end
  end.

(** The requests that fetch these pages. *)
Fixpoint page_requests {A} (list_request : option string -> request)
    (token : option string) (pages : list (page A)) : list request :=
  match pages with
  | [] => []
  | p :: rest =>
      list_request token :: page_requests list_request (more_pages (nextPageToken p)) rest
  end.

(** The world after these pages have been fetched without a failure. *)
Fixpoint after_pages {A} (list_request : option string -> request) (cost : Z)
    (token : option string) (pages : list (page A)) (w : world) : world :=
  match pages with
  | [] => w
  | p :: rest =>
      after_pages list_request cost (more_pages (nextPageToken p)) rest
        (set_quota (quota_used w + cost) (log_call (list_request token) w))
  end.

(** All the items of some pages, in order. *)
Definition all_items {A} (pages : list (page A)) : list A :=
  concat (map items pages).

(** [c['videoTitle'] == title] *)
Definition has_title (title : string) (c : json) : Prop :=
  Py.getitem c "videoTitle" = inr (JStr title).

(** A channel whose listings come in two pages: two videos and then a
    third; video ["a"] has two comments and then one, the first and the
    third with replies; comment ["ca1"] has one reply and then a
    second. An empty token ends a listing like a missing one. *)
Definition paged : service := {|
  search_execute := fun _ _ => inr {| items_field := Some [inr "UCpagedpagedpagedpaged00"] |};
  channels_username_execute := fun _ _ => inr {| items_field := Some [inr "UCpagedpagedpagedpaged00"] |};
  channels_details_execute := fun _ _ => inr {| items_field := Some [inr "UUpaged"] |};
  playlist_items_execute := fun _ _ token =>
    match token with
    | None =>
        inr {| items := [ {| vid := "a"; vtitle := "A" |}; {| vid := "b"; vtitle := "B" |} ];
               nextPageToken := Some "p2" |}
    | Some _ =>
        inr {| items := [ {| vid := "c"; vtitle := "C" |} ]; nextPageToken := Some "" |}
    end;
  comment_threads_execute := fun _ video_id token =>
    if String.eqb video_id "a" then
      match token with
      | None =>
          inr {| items := [demo_thread "ca1" "one" 2; demo_thread "ca2" "two" 0];
                 nextPageToken := Some "t2" |}
      | Some _ =>
          inr {| items := [demo_thread "ca3" "three" 1]; nextPageToken := None |}
      end
    else inr (one_page []);
  comments_execute := fun _ parent_id token =>
    if String.eqb parent_id "ca1" then
      match token with
      | None => inr {| items := [demo_reply "ra"]; nextPageToken := Some "r2" |}
      | Some _ => inr {| items := [demo_reply "rb"]; nextPageToken := None |}
      end
    else inr (one_page [demo_reply "rc"])
|}.

(** A remote that refuses everything with a server error. *)
Definition broken : service := {|
  search_execute := fun _ _ => inl (HttpError 500 (error_body "backendError"));
  channels_username_execute := fun _ _ => inl (HttpError 500 (error_body "backendError"));
  channels_details_execute := fun _ _ => inl (HttpError 500 (error_body "backendError"));
  playlist_items_execute := fun _ _ _ => inl (HttpError 500 (error_body "backendError"));
  comment_threads_execute := fun _ video_id _ =>
    if String.eqb video_id "off" then inl (HttpError 403 (error_body "commentsDisabled"))
    else inl (HttpError 500 (error_body "backendError"));
  comments_execute := fun _ _ _ => inl (HttpError 500 (error_body "backendError"))
|}.

(** A playlist that never serves a last page. *)
Definition endless : service := {|
  search_execute := search_execute paged;
  channels_username_execute := channels_username_execute paged;
  channels_details_execute := channels_details_execute paged;
  playlist_items_execute := fun _ _ _ =>
    inr {| items := [ {| vid := "a"; vtitle := "A" |} ]; nextPageToken := Some "next" |};
  comment_threads_execute := comment_threads_execute paged;
  comments_execute := comments_execute paged
|}.

(** *** The official price of a run *)

(** The API operation a request belongs to, and what the quota table
    charges for it. *)
Definition operation_of (q : request) : string :=
  match q with
  | SearchList _ => "search.list"
  | ChannelsForUsername _ | ChannelsContentDetails _ => "channels.list"
  | PlaylistItemsList _ _ => "playlistItems.list"
  | CommentThreadsList _ _ => "commentThreads.list"
  | CommentsList _ _ => "comments.list"
  end.

Definition request_cost (q : request) : Z := cost_of (operation_of q).

Definition is_ok {A} (r : exn + A) : bool :=
  match r with inr _ => true | inl _ => false end.

(** Whether the remote answers the request [q] when it is the [n]-th
    call of the run. *)
Definition answered (s : service) (n : nat) (q : request) : bool :=
  match q with
  | SearchList query => is_ok (search_execute s n query)
  | ChannelsForUsername username => is_ok (channels_username_execute s n username)
  | ChannelsContentDetails channel_id => is_ok (channels_details_execute s n channel_id)
  | PlaylistItemsList playlist_id token => is_ok (playlist_items_execute s n playlist_id token)
  | CommentThreadsList video_id token => is_ok (comment_threads_execute s n video_id token)
  | CommentsList parent_id token => is_ok (comments_execute s n parent_id token)
  end.

(** The price of the requests [new], sent as calls [n], [n+1], ...:
    the cost of each one that was answered. *)
Fixpoint spent (s : service) (n : nat) (new : list request) : Z :=
  match new with
  | [] => 0
  | q :: rest => (if answered s n q then request_cost q else 0) + spent s (S n) rest
  end.

(** From [w] to [w'] the log of calls has only grown, by requests that
    satisfy [P], and the counter has grown by their price. *)
Definition extends (s : service) (P : request -> Prop) (w w' : world) : Prop :=
  exists new,
    calls w' = calls w ++ new
    /\ Forall P new
    /\ quota_used w' = quota_used w + spent s (length (calls w)) new.

Definition accounted {A} (s : service) (P : request -> Prop) (m : M A) : Prop :=
  forall w, extends s P w (snd (m w)).

(** The requests that may be sent when only the videos in [allowed]
    are to be fetched. *)
Definition fetches_only (allowed : string -> Prop) (q : request) : Prop :=
  match q with
  | CommentThreadsList video_id _ => allowed video_id
  | _ => True
  end.

(** The small channel with its playlist refused for lack of quota. *)
Definition unlisted : service := {|
  search_execute := search_execute demo;
  channels_username_execute := channels_username_execute demo;
  channels_details_execute := channels_details_execute demo;
  playlist_items_execute := fun _ _ _ => inl quota_exceeded;
  comment_threads_execute := comment_threads_execute demo;
  comments_execute := comments_execute demo
|}.

(** *** The lookup of a resolution *)

(** What the remote answers to a channel lookup sent as the [n]-th
    call, when it answers. *)
Definition listing_of (s : service) (n : nat) (q : request) : option listing :=
  match q with
  | SearchList query =>
      match search_execute s n query with inr l => Some l | inl _ => None end
  | ChannelsForUsername username =>
      match channels_username_execute s n username with inr l => Some l | inl _ => None end
  | ChannelsContentDetails channel_id =>
      match channels_details_execute s n channel_id with inr l => Some l | inl _ => None end
  | _ => None
  end.

(** The lookup a channel reference asks for, by the segments of its
    path: a search for a handle or for a custom name, a username lookup
    for a legacy user name, none for a direct channel id and for the
    fallback. *)
Definition lookup_of (path_segments : list string) : option request :=
  match path_segments with
  | [] => None
  | seg0 :: rest =>
      match String.eqb seg0 "channel", rest with
      | true, _ :: _ => None
      | _, _ =>
          if Py.startswith "@" seg0 then Some (SearchList ("@" +:+ Py.tail seg0))
          else
            match String.eqb seg0 "c", rest with
            | true, custom_name :: _ => Some (SearchList custom_name)
            | _, _ =>
                match String.eqb seg0 "user", rest with
                | true, username :: _ => Some (ChannelsForUsername username)
                | _, _ => None
                end
            end
      end
  end.

(** A listing whose first item holds the field the script reads. *)
Definition usable (l : listing) : bool :=
  match items_field l with
  | Some (inr _ :: _) => true
  | _ => false
  end.

(** *** The reply fetches of a video *)

(** One more outcome in front of the outcomes of the later fetches. *)
Definition and_then (out : exn + list json)
    (later : outcome (list (exn + list json)) * world)
    : outcome (list (exn + list json)) * world :=
  match later with
  | (Ret outs, w) => (Ret (out :: outs), w)
  | (Raise e, w) => (Raise e, w)
  | (Diverge, w) => (Diverge, w)
  end.

(** The outcomes of the reply fetches for the pointers of a video, one
    after the other, each from the world the one before it left: the
    replies returned, or the exception raised. *)
Fixpoint reply_fetches (youtube : service) (uniform01 : nat -> Q) (fuel : nat)
    (video : video_ref) (ptrs : list (string * Z)) (w : world)
    : outcome (list (exn + list json)) * world :=
  match ptrs with
  | [] => (Ret [], w)
  | ptr :: rest =>
      match fetch_comment_replies youtube uniform01 fuel (fst ptr) (vtitle video)
              (vid video) w with
      | (Ret replies, w') =>
          and_then (inr replies) (reply_fetches youtube uniform01 fuel video rest w')
      | (Raise e, w') =>
          and_then (inl e) (reply_fetches youtube uniform01 fuel video rest w')
      | (Diverge, w') => (Diverge, w')
      end
  end.

(** The discrepancy the specification asks for, for a pointer with
    expected count [E] and the outcome of its fetch: none when [E]
    replies came, otherwise one record with the expected count, the
    fetched count, their difference and, for a fetch that failed, the
    count 0 and the text of the error. *)
Definition discrepancy_of (video : video_ref) (ptr : string * Z)
    (out : exn + list json) : list discrepancy :=
  let expected := snd ptr in
  let fetched := match out with inr replies => Z.of_nat (length replies) | inl _ => 0 end in
  let record :=
    {| d_parent_comment_id := fst ptr;
       d_video_id := vid video;
       d_video_title := vtitle video;
       d_video_link := create_video_link (vid video);
       d_expected_count := expected;
       d_fetched_count := fetched;
       d_missing_count := expected - fetched;
       d_error := match out with inr _ => None | inl e => Some (str_exn e) end |} in
  match out with
  | inr _ => if fetched =? expected then [] else [record]
  | inl _ => [record]
  end.

Fixpoint discrepancies_of (video : video_ref) (ptrs : list (string * Z))
    (outs : list (exn + list json)) : list discrepancy :=
  match ptrs, outs with
  | ptr :: ptrs', out :: outs' =>
      discrepancy_of video ptr out ++ discrepancies_of video ptrs' outs'
  | _, _ => []
  end.

(** The replies that came, in order. *)
Fixpoint replies_of (outs : list (exn + list json)) : list json :=
  match outs with
  | [] => []
  | inr replies :: outs' => replies ++ replies_of outs'
  | inl _ :: outs' => replies_of outs'
  end.

(** A pointer whose fetch did not bring the expected number of replies. *)
Definition short_of (ptr : string * Z) (out : exn + list json) : bool :=
  match out with
  | inr replies => negb (Z.of_nat (length replies) =? snd ptr)
  | inl _ => true
  end.

(** * Properties *)

(** ** The monad *)

Lemma bind_lift {A B} (r : exn + A) (k : A -> M B) w :
  bind (lift r) k w = match r with inl e => (Raise e, w) | inr a => k a w end.
Proof. unfold bind, lift. destruct r; reflexivity. Qed.

Lemma bind_ret {A B} (a : A) (k : A -> M B) w : bind (ret a) k w = k a w.
Proof. reflexivity. Qed.

Lemma bind_eq {A B} (m : M A) (k : A -> M B) w :
  bind m k w = match m w with
               | (Ret a, w') => k a w'
               | (Raise e, w') => (Raise e, w')
               | (Diverge, w') => (Diverge, w')
               end.
Proof. reflexivity. Qed.

(** ** The gateway *)

Section GatewayFacts.

Variable uniform01 : nat -> Q.

(** What one gateway call leaves behind, by outcome. *)
Lemma retry_from_effect {A} (api_func : M A) op max_retries :
  remote_only api_func ->
  forall n attempt w,
    let r := retry_from uniform01 api_func op max_retries n attempt w in
    files (snd r) = files w
    /\ match fst r with
       | Ret (Some _) => quota_used (snd r) = quota_used w + charge op
       | _ => quota_used (snd r) = quota_used w
       end.
Proof.
  intros Hro n. induction n as [|n IH]; intros attempt w; simpl.
  - split; reflexivity.
  - destruct (Hro w) as (Hq & _ & _ & Hf).
    destruct (api_func w) as [[result|e|] w1]; simpl in *.
    + unfold charge. destruct (op_truthy op); simpl; rewrite ?Hq, ?Hf; split; lia || reflexivity.
    + destruct e; simpl; try (split; congruence).
      destruct (retryable status); simpl; [|split; congruence].
      destruct (_ <? _); simpl; [|split; congruence].
      destruct (wait_time attempt _) as [e'|t]; simpl; [split; congruence|].
      destruct (sleep_too_long t); simpl; [split; congruence|].
      specialize (IH (S attempt)
        (sleep t (print (MsgRetrying t (attempt + 1) max_retries) w1))).
      simpl in IH. destruct IH as [IHf IHq]. split; [congruence|].
      destruct (fst _) as [[?|]| |]; congruence.
    + split; congruence.
Qed.

Lemma retry_from_total {A} (api_func : M A) op max_retries :
  (forall w, fst (api_func w) <> Diverge) ->
  forall n attempt w,
    fst (retry_from uniform01 api_func op max_retries n attempt w) <> Diverge.
Proof.
  intros Hnd n. induction n as [|n IH]; intros attempt w; simpl; [discriminate|].
  specialize (Hnd w).
  destruct (api_func w) as [[result|e|] w1]; simpl in *; try congruence.
  - destruct (op_truthy op); discriminate.
  - destruct e; simpl; try discriminate.
    destruct (retryable status); simpl; [|discriminate].
    destruct (_ <? _); simpl; [|discriminate].
    destruct (wait_time attempt _) as [e'|t]; simpl; [discriminate|].
    destruct (sleep_too_long t); simpl; [discriminate|apply IH].
Qed.

(** With a positive ceiling the loop never falls off its end. *)
Lemma retry_from_some {A} (api_func : M A) op max_retries :
  forall n attempt w,
    (Z.of_nat attempt + Z.of_nat n = Z.of_nat max_retries) -> (0 < n)%nat ->
    fst (retry_from uniform01 api_func op max_retries n attempt w) <> Ret None.
Proof.
  intros n. induction n as [|n IH]; intros attempt w Hsum Hpos; [lia|]. simpl.
  destruct (api_func w) as [[result|e|] w1]; simpl; try discriminate.
  - destruct (op_truthy op); discriminate.
  - destruct e; simpl; try discriminate.
    destruct (retryable status); simpl; [|discriminate].
    destruct (Z.ltb_spec (Z.of_nat attempt) (Z.of_nat max_retries - 1)); simpl; [|discriminate].
    destruct (wait_time attempt _) as [e'|t]; simpl; [discriminate|].
    destruct (sleep_too_long t); simpl; [discriminate|].
    apply IH; lia.
Qed.

End GatewayFacts.

(** ** Thunks of the script *)

Section CallFacts.

Variable youtube : service.
Variable uniform01 : nat -> Q.
Variable urlparse : string -> exn + parsed_url.

Lemma execute_remote_only {A} r (answer : nat -> exn + A) :
  remote_only (execute r answer).
Proof. intros w. unfold execute. simpl. auto. Qed.

Lemma execute_total {A} r (answer : nat -> exn + A) w :
  fst (execute r answer w) <> Diverge.
Proof. unfold execute. simpl. destruct (answer _); discriminate. Qed.

(** A call through the gateway with the default ceiling: it ends, it
    leaves the files alone, and it charges its cost exactly when it
    returns. *)
Lemma call_effect {A} r (answer : nat -> exn + A) op w :
  files (snd (call uniform01 r answer op w)) = files w
  /\ match fst (call uniform01 r answer op w) with
     | Ret _ => quota_used (snd (call uniform01 r answer op w))
                = quota_used w + charge (Some op)
     | Raise _ => quota_used (snd (call uniform01 r answer op w)) = quota_used w
     | Diverge => False
     end.
Proof.
  unfold call, bind, api_call_with_retry.
  pose proof (retry_from_effect uniform01 (execute r answer) (Some op) retry_attempts
                (execute_remote_only r answer) retry_attempts 0%nat w) as [Hf Hq].
  pose proof (retry_from_total uniform01 (execute r answer) (Some op) retry_attempts
                (execute_total r answer) retry_attempts 0%nat w) as Hd.
  pose proof (retry_from_some uniform01 (execute r answer) (Some op) retry_attempts
                retry_attempts 0%nat w eq_refl ltac:(unfold retry_attempts; lia)) as Hs.
  destruct (retry_from _ _ _ _ _ _ _) as [[[a|]|e|] w1]; simpl in *; try congruence; auto.
Qed.

Lemma first_item_effect response msg w :
  snd (first_item response msg w) = w
  /\ match items_field response with
     | Some (inr x :: _) => fst (first_item response msg w) = Ret x
     | Some (inl e :: _) => fst (first_item response msg w) = Raise e
     | _ => fst (first_item response msg w) = Raise (ValueError msg)
     end.
Proof.
  unfold first_item. destruct (items_field response) as [[|[e|x] xs]|]; simpl; eauto.
Qed.

(** A lookup: one gateway call, then the first item, the exception of
    reading it, or [ValueError]. *)
Lemma lookup_effect r (answer : nat -> exn + listing) op msg w :
  let m := (let* response := call uniform01 r answer op in first_item response msg) in
  files (snd (m w)) = files w
  /\ match fst (m w) with
     | Ret _ => quota_used (snd (m w)) = quota_used w + charge (Some op)
     | Raise e =>
         quota_used (snd (m w)) = quota_used w + charge (Some op)
         \/ quota_used (snd (m w)) = quota_used w
     | Diverge => False
     end.
Proof.
  simpl. unfold bind.
  pose proof (call_effect r answer op w) as [Hf Hq].
  destruct (call uniform01 r answer op w) as [[response|e|] w1]; simpl in *; auto.
  destruct (first_item_effect response msg w1) as [Hw Hx].
  destruct (first_item response msg w1) as [o w2]; simpl in *; subst w2.
  split; [exact Hf|].
  destruct (items_field response) as [[|[e|x] xs]|]; subst o; auto.
Qed.

End CallFacts.

(** ** Channel resolution *)

Section Resolution.

Variable youtube : service.
Variable uniform01 : nat -> Q.
Variable urlparse : string -> exn + parsed_url.

Abbreviation resolve_try := (get_channel_id_from_url_try youtube uniform01 urlparse).
Abbreviation resolve := (get_channel_id_from_url youtube uniform01 urlparse).

(** The body of the [try]: it ends, writes no file, and charges at
    most one lookup, which it does even when the lookup finds nothing. *)
Lemma resolve_try_effect url w :
  files (snd (resolve_try url w)) = files w
  /\ match fst (resolve_try url w) with
     | Ret _ => True
     | Raise e =>
         quota_used (snd (resolve_try url w)) = quota_used w
         \/ quota_used (snd (resolve_try url w)) = quota_used w + 1
         \/ quota_used (snd (resolve_try url w)) = quota_used w + 100
     | Diverge => False
     end.
Proof.
  unfold get_channel_id_from_url_try. rewrite bind_lift.
  destruct (urlparse url) as [e|parsed]; simpl; [auto|].
  destruct (negb _); simpl; [auto|].
  destruct (Py.split _ _) as [|seg0 rest] eqn:Hsegs; simpl; [auto|].
  assert (Hlookup : forall r answer op msg,
    (charge (Some op) = 1 \/ charge (Some op) = 100) ->
    let m := (let* response := call uniform01 r answer op in first_item response msg) in
    files (snd (m w)) = files w
    /\ match fst (m w) with
       | Ret _ => True
       | Raise e =>
           quota_used (snd (m w)) = quota_used w
           \/ quota_used (snd (m w)) = quota_used w + 1
           \/ quota_used (snd (m w)) = quota_used w + 100
       | Diverge => False
       end).
  { intros r answer op msg Hc. simpl.
    pose proof (lookup_effect uniform01 r answer op msg w) as [Hf Hq]. simpl in Hf, Hq.
    split; [exact Hf|].
    destruct (fst _) as [x|e|]; auto.
    destruct Hq as [Hq|Hq]; [right|left; exact Hq].
    destruct Hc as [Hc|Hc]; rewrite Hc in Hq; auto. }
  destruct (String.eqb seg0 "channel"), rest as [|seg1 rest'];
    simpl; auto;
    (destruct (Py.startswith _ seg0);
     [apply Hlookup; right; reflexivity|]);
    destruct (String.eqb seg0 "c"); simpl; auto;
    try (apply Hlookup; right; reflexivity);
    destruct (String.eqb seg0 "user"); simpl; auto;
    try (apply Hlookup; left; reflexivity);
    match goal with |- context [if ?c then _ else _] => destruct c end;
    simpl; auto.
Qed.

(** The wrapper lets nothing but instances of [ValueError] out. *)
Lemma resolve_outcome url w :
  match fst (resolve url w) with
  | Ret _ => True
  | Raise e => is_ValueError e = true
  | Diverge => False
  end.
Proof.
  unfold get_channel_id_from_url.
  pose proof (resolve_try_effect url w) as [_ Hd].
  destruct (resolve_try url w) as [[channel_id|e|] w1]; simpl in *; auto.
  destruct (is_ValueError e) eqn:He; simpl; auto.
Qed.

(** C9. Whatever the URL and whatever the remote and the URL parser
    do, [get_channel_id_from_url] either returns a channel id or
    raises an instance of [ValueError]; an exception of another class
    raised inside it comes out wrapped in a [ValueError] that carries
    its text. *)
Theorem get_channel_id_from_url_raises_only_ValueError url w :
  ((exists channel_id w', resolve url w = (Ret channel_id, w'))
   \/ (exists e w', resolve url w = (Raise e, w') /\ is_ValueError e = true))
  /\ (forall e w', resolve_try url w = (Raise e, w') ->
        is_ValueError e = false ->
        resolve url w
        = (Raise (ValueError ("Error parsing URL: " +:+ str_exn e)), w')).
Proof.
  split.
  - pose proof (resolve_outcome url w) as H.
    destruct (resolve url w) as [[channel_id|e|] w1]; simpl in H;
      [left|right|contradiction]; eauto.
  - intros e w' Htry He. unfold get_channel_id_from_url.
    rewrite Htry, He. reflexivity.
Qed.

(** C10. On a YouTube host, when the path has none of the four
    documented shapes, the last path segment is returned as it stands
    if it is 24 characters long, and nothing happens to the world (no
    call, no charge); otherwise, and only then, [ValueError] is
    raised. *)
Theorem fallback_returns_24_char_segment url parsed w :
  urlparse url = inr parsed ->
  str_in (netloc parsed) youtube_hosts = true ->
  documented_format (segments_of parsed) = false ->
  let potential_id := Py.last_seg (segments_of parsed) in
  (String.length potential_id = 24%nat ->
     resolve url w = (Ret potential_id, w))
  /\ (String.length potential_id <> 24%nat ->
        resolve url w
        = (Raise (ValueError ("Unable to extract channel ID from URL: " +:+ url)), w))
  /\ ((exists e w', resolve url w = (Raise e, w')) ->
        potential_id = "" \/ String.length potential_id <> 24%nat).
Proof.
  intros Hparse Hhost Hfmt potential_id.
  assert (Hres : resolve url w
    = if negb (String.eqb potential_id "") && (String.length potential_id =? 24)%nat
      then (Ret potential_id, w)
      else (Raise (ValueError ("Unable to extract channel ID from URL: " +:+ url)), w)).
  { unfold get_channel_id_from_url, get_channel_id_from_url_try.
    rewrite bind_lift, Hparse, Hhost. simpl.
    subst potential_id. unfold segments_of in *.
    destruct (Py.split _ _) as [|seg0 rest] eqn:Hsegs.
    { exfalso. clear -Hsegs. destruct (Py.strip _ _) as [|a s]; simpl in Hsegs;
        [discriminate|]. destruct (Ascii.eqb a "/"); [discriminate|].
      destruct (Py.split "/" s); discriminate. }
    unfold documented_format in Hfmt.
    destruct (Py.startswith "@" seg0);
      [rewrite orb_true_r in Hfmt; discriminate|].
    destruct (String.eqb seg0 "channel"), (String.eqb seg0 "c"),
      (String.eqb seg0 "user"), rest as [|seg1 rest'];
      simpl in Hfmt; try discriminate;
      match goal with |- context [if ?c then _ else _] => destruct c end;
      reflexivity. }
  rewrite Hres. clear Hres.
  destruct (Nat.eqb_spec (String.length potential_id) 24) as [Hlen|Hlen].
  - destruct (String.eqb_spec potential_id "") as [He|He].
    + rewrite He in Hlen. discriminate.
    + simpl. split; [auto|]. split; [congruence|].
      intros (e & w' & Heq). discriminate.
  - rewrite andb_false_r. split; [congruence|]. split; auto.
Qed.

End Resolution.

Lemma fallback_returns_24_char_segment_witness :
  urlparse_simple "https://www.youtube.com/UCabcdefghijklmnopqrstuv"
  = inr {| netloc := "www.youtube.com"; path := "/UCabcdefghijklmnopqrstuv" |}
  /\ get_channel_id_from_url demo half_jitter urlparse_simple
       "https://www.youtube.com/UCabcdefghijklmnopqrstuv" (start ∅)
     = (Ret "UCabcdefghijklmnopqrstuv", start ∅).
Proof.
  split; [reflexivity|].
  exact (proj1 (fallback_returns_24_char_segment demo half_jitter urlparse_simple
                  "https://www.youtube.com/UCabcdefghijklmnopqrstuv" _ (start ∅)
                  eq_refl eq_refl eq_refl) eq_refl).
Defined.

(** ** Quota accounting *)

Lemma cost_of_nonneg op : 0 <= cost_of op.
Proof.
  unfold cost_of, QUOTA_COSTS. simpl.
  repeat match goal with |- context [if ?c then _ else _] => destruct c end; lia.
Qed.

Lemma charge_nonneg op : 0 <= charge op.
Proof. unfold charge. destruct (op_truthy op); [apply cost_of_nonneg|lia]. Qed.

Lemma charge_same_kind kind op : same_kind kind op = true -> charge op = cost_of kind.
Proof.
  destruct op as [s|]; simpl; [|discriminate].
  intros H. apply String.eqb_eq in H. subst s.
  unfold charge, op_truthy. destruct (String.eqb_spec kind ""); [subst|]; reflexivity.
Qed.

Lemma total_charge_nonneg ops : 0 <= total_charge ops.
Proof.
  induction ops as [|op ops IH]; simpl; [lia|].
  pose proof (charge_nonneg op). lia.
Qed.

(** Splitting what a list of successful calls charged by kind. *)
Lemma total_charge_by_kind kind ops :
  total_charge ops
  = Z.of_nat (length (List.filter (same_kind kind) ops)) * cost_of kind
    + total_charge (List.filter (fun op => negb (same_kind kind op)) ops).
Proof.
  induction ops as [|op ops IH]; [simpl; lia|].
  cbn [List.filter total_charge].
  destruct (same_kind kind op) eqn:Hk; cbn [negb total_charge length].
  - rewrite (charge_same_kind _ _ Hk). lia.
  - lia.
Qed.

Section QuotaAccounting.

Variable uniform01 : nat -> Q.

Lemma run_calls_total_charge cs :
  (forall c, In c cs -> remote_only (gc_thunk c)) ->
  forall w,
    quota_used (snd (run_calls uniform01 cs w))
    = quota_used w + total_charge (fst (run_calls uniform01 cs w)).
Proof.
  induction cs as [|c cs IH]; intros Hro w; simpl; [lia|].
  assert (Hc : remote_only (gc_thunk c)) by (apply Hro; left; reflexivity).
  assert (Hcs : forall c', In c' cs -> remote_only (gc_thunk c'))
    by (intros c' Hin; apply Hro; right; exact Hin).
  unfold api_call_with_retry.
  set (mr := match gc_max_retries c with Some n => n | None => retry_attempts end).
  pose proof (retry_from_effect uniform01 (gc_thunk c) (gc_operation_type c) mr Hc
                mr 0%nat w) as [_ Hq].
  simpl in Hq.
  destruct (retry_from _ _ _ _ _ _ _) as [[[a|]|e|] w1]; simpl in *;
    rewrite (IH Hcs w1); lia.
Qed.

(** C5. Let gateway calls of any kinds be made in any order, each
    with a thunk that does not itself touch the counter, and let [K]
    of the calls that succeeded be of the kind [kind]. Then the
    counter has grown by [K] times the cost of [kind], on top of what
    the successful calls of the other kinds charged, wherever these
    stand in the sequence. A single call adds its cost once when it
    succeeds with an operation type and nothing otherwise, whatever
    the number of attempts it took, and the counter never goes
    down. *)
Theorem quota_counts_each_successful_call_once cs kind w :
  (forall c, In c cs -> remote_only (gc_thunk c)) ->
  let ops := fst (run_calls uniform01 cs w) in
  let w' := snd (run_calls uniform01 cs w) in
  let K := length (List.filter (same_kind kind) ops) in
  quota_used w'
  = quota_used w + Z.of_nat K * cost_of kind
    + total_charge (List.filter (fun op => negb (same_kind kind op)) ops)
  /\ ((forall op, In op ops -> same_kind kind op = true) ->
      quota_used w' = quota_used w + Z.of_nat K * cost_of kind)
  /\ quota_used w <= quota_used w'
  /\ (forall c, In c cs -> forall w0,
        let r := api_call_with_retry uniform01 (gc_thunk c) (gc_operation_type c)
                   (gc_max_retries c) w0 in
        match fst r with
        | Ret (Some _) =>
            quota_used (snd r) = quota_used w0 + charge (gc_operation_type c)
        | _ => quota_used (snd r) = quota_used w0
        end).
Proof.
  intros Hro ops w' K.
  pose proof (run_calls_total_charge cs Hro w) as Htot.
  fold ops w' in Htot.
  pose proof (total_charge_by_kind kind ops) as Hsplit. fold K in Hsplit.
  split; [lia|]. split; [|split].
  - intros Hall.
    assert (Hnone : List.filter (fun op => negb (same_kind kind op)) ops = []).
    { clear -Hall. induction ops as [|op ops IH]; [reflexivity|].
      cbn [List.filter]. rewrite (Hall op (or_introl eq_refl)). simpl.
      apply IH. intros op' Hin. apply Hall. right. exact Hin. }
    rewrite Hnone in Hsplit. simpl in Hsplit. lia.
  - pose proof (total_charge_nonneg ops). lia.
  - intros c Hin w0. unfold api_call_with_retry.
    apply (retry_from_effect uniform01 (gc_thunk c) (gc_operation_type c) _ (Hro c Hin)).
Qed.

End QuotaAccounting.
(** ** Backoff and propagation *)

Lemma round_div_lower n d z : 0 < d -> z * d <= n -> z <= round_div n d.
Proof.
  intros Hd Hn. unfold round_div.
  assert (Hf : z <= n / d) by (apply Z.div_le_lower_bound; lia).
  destruct (_ <? _); [exact Hf|]. destruct (_ <? _); [lia|].
  destruct (Z.even _); lia.
Qed.

Lemma round_div_upper n d z : 0 < d -> n <= z * d -> round_div n d <= z.
Proof.
  intros Hd Hn. unfold round_div.
  pose proof (Z.div_mod n d ltac:(lia)) as Hdm.
  pose proof (Z.mod_pos_bound n d Hd) as Hr.
  assert (Hf : n / d <= z) by (apply Z.div_le_upper_bound; lia).
  destruct (Z.ltb_spec (2 * (n mod d)) d) as [Hlt|Hge]; [exact Hf|].
  assert (n / d < z) by nia.
  destruct (_ <? _); [lia|]. destruct (Z.even _); lia.
Qed.

Lemma round_div_upper_half n d z :
  0 < d -> 2 * n < (2 * z + 1) * d -> round_div n d <= z.
Proof.
  intros Hd Hn. unfold round_div.
  pose proof (Z.div_mod n d ltac:(lia)) as Hdm.
  pose proof (Z.mod_pos_bound n d Hd) as Hr.
  assert (Hf : n / d <= z) by (apply Z.lt_succ_r, Z.div_lt_upper_bound; nia).
  destruct (Z.ltb_spec (2 * (n mod d)) d) as [Hlt|Hge]; [exact Hf|].
  assert (n / d < z) by nia.
  destruct (_ <? _); [lia|]. destruct (Z.even _); lia.
Qed.

(** The rounded sum stays between the two floats that enclose the
    exact one: [2^attempt] and [2^attempt + 1]. *)
Lemma float_add_pow2_in_window attempt jitter :
  (0 <= jitter)%Q -> (jitter < 1)%Q ->
  in_closed_backoff_window attempt (float_add_pow2 attempt jitter).
Proof.
  destruct jitter as [jn jd]. unfold Qle, Qlt. cbn [Qnum Qden]. intros H0 H1.
  assert (Hjd : 0 < Z.pos jd) by lia.
  unfold in_closed_backoff_window, float_add_pow2. cbn [Qnum Qden].
  set (p := 2 ^ Z.of_nat attempt).
  assert (Hp : 0 < p) by (apply Z.pow_pos_nonneg; lia).
  set (m := round_div ((p * Z.pos jd + jn) * 2 ^ 52) (p * Z.pos jd)).
  assert (Hd : 0 < p * Z.pos jd) by nia.
  assert (Hlow : 2 ^ 52 <= m).
  { apply round_div_lower; [exact Hd|]. nia. }
  assert (Hhigh : m * p <= (p + 1) * 2 ^ 52).
  { destruct (Z.le_gt_cases (Z.of_nat attempt) 52) as [Hsmall|Hbig].
    - assert (Hsplit : p * 2 ^ (52 - Z.of_nat attempt) = 2 ^ 52).
      { unfold p. rewrite <- Z.pow_add_r by lia. f_equal. lia. }
      assert (Hq : 0 < 2 ^ (52 - Z.of_nat attempt)) by (apply Z.pow_pos_nonneg; lia).
      assert (Hm : m <= 2 ^ 52 + 2 ^ (52 - Z.of_nat attempt)).
      { apply round_div_upper; [exact Hd|].
        set (c := 2 ^ 52) in *. set (q := 2 ^ (52 - Z.of_nat attempt)) in *.
        assert (c * Z.pos jd = (Z.pos jd * q) * p) by nia. nia. }
      set (c := 2 ^ 52) in *. set (q := 2 ^ (52 - Z.of_nat attempt)) in *. nia.
    - assert (Hp53 : 2 ^ 53 <= p) by (apply Z.pow_le_mono_r; lia).
      assert (Hm : m <= 2 ^ 52).
      { apply round_div_upper_half; [exact Hd|].
        change (2 ^ 53) with (2 * 2 ^ 52) in Hp53.
        set (c := 2 ^ 52) in *. assert (0 < c) by (unfold c; lia). nia. }
      set (c := 2 ^ 52) in *. assert (0 < c) by (unfold c; lia). nia. }
  unfold Qle, Qplus, inject_Z. cbn [Qnum Qden].
  change (Z.pos (2 ^ 52)) with (2 ^ 52). change (Z.pos (1 * 1)) with 1.
  split; nia.
Qed.

Lemma wait_time_in_window attempt jitter t :
  (0 <= jitter)%Q -> (jitter < 1)%Q ->
  wait_time attempt jitter = inr t -> in_closed_backoff_window attempt t.
Proof.
  intros H0 H1. unfold wait_time. destruct (1024 <=? Z.of_nat attempt); [discriminate|].
  intros [= <-]. apply float_add_pow2_in_window; assumption.
Qed.

Lemma wait_time_below_1024 attempt jitter :
  (attempt < 1024)%nat -> wait_time attempt jitter = inr (float_add_pow2 attempt jitter).
Proof.
  intros Hlt. unfold wait_time.
  destruct (Z.leb_spec 1024 (Z.of_nat attempt)); [lia|reflexivity].
Qed.

Lemma wait_time_from_1024 attempt jitter :
  (1024 <= attempt)%nat ->
  wait_time attempt jitter = inl (OverflowError "int too large to convert to float").
Proof.
  intros Hge. unfold wait_time.
  destruct (Z.leb_spec 1024 (Z.of_nat attempt)); [reflexivity|lia].
Qed.

(** The waits of attempts 0 to 33 fit the nanosecond clock of
    [time.sleep]; those of later attempts do not. *)
Lemma short_wait_fits attempt t :
  (attempt < 34)%nat -> in_closed_backoff_window attempt t -> sleep_too_long t = false.
Proof.
  intros Hlt [_ Hhi]. unfold sleep_too_long.
  destruct (Qle_bool _ _) eqn:Hb; [|reflexivity].
  apply Qle_bool_iff in Hb. exfalso.
  assert (Hp : 2 ^ Z.of_nat attempt <= 2 ^ 33) by (apply Z.pow_le_mono_r; lia).
  destruct t as [n d]. unfold Qle, Qmult, Qplus, inject_Z in *. cbn [Qnum Qden] in *.
  rewrite ?Pos.mul_1_r, ?Z.mul_1_r in *.
  set (p := 2 ^ Z.of_nat attempt) in *.
  change (2 ^ 33) with 8589934592 in Hp.
  change (2 ^ 63) with 9223372036854775808 in Hb.
  change (10 ^ 9) with 1000000000 in Hb.
  nia.
Qed.

Lemma long_wait_overflows attempt t :
  (34 <= attempt)%nat -> in_closed_backoff_window attempt t -> sleep_too_long t = true.
Proof.
  intros Hge [Hlo _]. unfold sleep_too_long. apply Qle_bool_iff.
  assert (Hp : 2 ^ 34 <= 2 ^ Z.of_nat attempt) by (apply Z.pow_le_mono_r; lia).
  destruct t as [n d]. unfold Qle, Qmult, Qplus, inject_Z in *. cbn [Qnum Qden] in *.
  rewrite ?Pos.mul_1_r, ?Z.mul_1_r in *.
  set (p := 2 ^ Z.of_nat attempt) in *.
  change (2 ^ 34) with 17179869184 in Hp.
  change (2 ^ 63) with 9223372036854775808.
  change (10 ^ 9) with 1000000000.
  nia.
Qed.

Section Backoff.

Variable uniform01 : nat -> Q.
Hypothesis uniform01_range : forall k, (0 <= uniform01 k)%Q /\ (uniform01 k < 1)%Q.

Context {A : Type}.
Variable api_func : M A.
Variable operation_type : option string.
Variable max_retries : nat.
Hypothesis api_func_remote_only : remote_only api_func.

Abbreviation loop := (retry_from uniform01 api_func operation_type max_retries).

(** The waits of the loop from iteration [attempt] on: the [i]-th of
    them is the wait of attempt [attempt + i], and a wait is only ever
    taken before the last attempt. *)
Lemma loop_waits n : forall attempt w,
  exists waits,
    sleeps (snd (loop n attempt w)) = sleeps w ++ waits
    /\ (waits = [] \/ (attempt + length waits <= max_retries - 1)%nat)
    /\ forall i t, waits !! i = Some t -> in_closed_backoff_window (attempt + i) t.
Proof.
  induction n as [|n IH]; intros attempt w; simpl.
  { exists []. rewrite app_nil_r. split; [reflexivity|]. split; [auto|].
    intros i t Hi. discriminate. }
  destruct (api_func_remote_only w) as (_ & Hs & _ & _).
  assert (Hnil : forall (o : outcome (option A)) w1, sleeps w1 = sleeps w ->
    exists waits, sleeps (snd (o, w1)) = sleeps w ++ waits
      /\ (waits = [] \/ (attempt + length waits <= max_retries - 1)%nat)
      /\ forall i t, waits !! i = Some t -> in_closed_backoff_window (attempt + i) t).
  { intros o w1 Hw1. exists []. rewrite app_nil_r. simpl. split; [exact Hw1|].
    split; [auto|]. intros i t Hi. discriminate. }
  destruct (api_func w) as [[result|e|] w1]; simpl in Hs.
  - destruct (op_truthy operation_type); apply Hnil; exact Hs.
  - destruct e; try (apply Hnil; exact Hs).
    destruct (retryable status); [|apply Hnil; exact Hs].
    destruct (Z.ltb_spec (Z.of_nat attempt) (Z.of_nat max_retries - 1)) as [Hlt|Hge];
      [|apply Hnil; exact Hs].
    destruct (wait_time attempt (uniform01 (length (sleeps w1)))) as [e'|t] eqn:Ht;
      [apply Hnil; exact Hs|].
    destruct (sleep_too_long t); [apply Hnil; exact Hs|].
    destruct (IH (S attempt) (sleep t (print (MsgRetrying t (attempt + 1) max_retries) w1)))
      as (waits & Hsl & Hlen & Hwin).
    exists (t :: waits). split; [|split].
    + rewrite Hsl. simpl. rewrite Hs, <- app_assoc. reflexivity.
    + right. simpl. destruct Hlen as [->|Hlen]; simpl; lia.
    + intros [|i] u Hi; simpl in Hi.
      * injection Hi as <-. rewrite Nat.add_0_r.
        apply (wait_time_in_window attempt (uniform01 (length (sleeps w1))));
          [apply uniform01_range..|exact Ht].
      * replace (attempt + S i)%nat with (S attempt + i)%nat by lia.
        apply Hwin. exact Hi.
  - apply Hnil; exact Hs.
Qed.

(** A thunk that fails retryably every time is tried until the
    ceiling, and the failure of the last attempt comes out. *)
Lemma loop_exhausts n : forall attempt w,
  (forall w0, exists status content w1,
      api_func w0 = (Raise (HttpError status content), w1) /\ retryable status = true) ->
  (max_retries <= 35)%nat ->
  (attempt + n = max_retries)%nat -> (0 < n)%nat ->
  (exists status content,
      fst (loop n attempt w) = Raise (HttpError status content)
      /\ retryable status = true)
  /\ length (sleeps (snd (loop n attempt w))) = (length (sleeps w) + (n - 1))%nat.
Proof.
  induction n as [|n IH]; intros attempt w Hfail Hmax Hsum Hpos; [lia|]. simpl.
  destruct (api_func_remote_only w) as (_ & Hs & _ & _).
  destruct (Hfail w) as (status & content & w1 & Hw & Hr).
  rewrite Hw in *. simpl in Hs. rewrite Hr.
  destruct (Z.ltb_spec (Z.of_nat attempt) (Z.of_nat max_retries - 1)) as [Hlt|Hge].
  - rewrite wait_time_below_1024 by lia.
    rewrite (short_wait_fits attempt)
      by (try apply float_add_pow2_in_window; try apply uniform01_range; lia).
    destruct (IH (S attempt)
                (sleep (float_add_pow2 attempt (uniform01 (length (sleeps w1))))
                   (print (MsgRetrying (float_add_pow2 attempt
                                          (uniform01 (length (sleeps w1))))
                             (attempt + 1) max_retries) w1))
                Hfail Hmax ltac:(lia) ltac:(lia)) as [Hout Hlen].
    split; [exact Hout|]. rewrite Hlen. simpl. rewrite length_app, Hs. simpl. lia.
  - simpl. split; [eauto|]. rewrite Hs. lia.
Qed.

(** One attempt that fails: what the loop does next. *)
Lemma loop_step n attempt w e w1 :
  api_func w = (Raise e, w1) ->
  loop (S n) attempt w
  = if is_retryable_error e then
      if Z.of_nat attempt <? Z.of_nat max_retries - 1 then
        match wait_time attempt (uniform01 (length (sleeps w1))) with
        | inl overflow => (Raise overflow, w1)
        | inr t =>
            if sleep_too_long t then
              (Raise (OverflowError "timestamp too large to convert to C _PyTime_t"),
               print (MsgRetrying t (attempt + 1) max_retries) w1)
            else
              loop n (S attempt)
                (sleep t (print (MsgRetrying t (attempt + 1) max_retries) w1))
        end
      else (Raise e, print (MsgMaxRetries max_retries) w1)
    else (Raise e, w1).
Proof.
  intros Hw. simpl. rewrite Hw.
  destruct e; reflexivity.
Qed.

End Backoff.

(** C6, as the code has it. Let the jitter lie in [0, 1) and the thunk
    leave the sleep log alone. Then the waits of a gateway call are
    those of attempts 0, 1, ... in this order, the wait of attempt [i]
    lies in the closed interval from [2^i] to [2^i + 1], the sum being
    a float, and there are fewer waits than the ceiling allows
    attempts. If the thunk fails retryably every time and the ceiling
    is at most 35, the call makes as many attempts as the ceiling
    allows and then raises the retryable failure. At any attempt, a
    retryable failure at the last attempt is raised, a failure of
    another kind is raised at once, the world being as the thunk left
    it: no wait, no output; a retryable failure before the last attempt
    leads to a wait in the window and to the next attempt, as long as
    the attempt number is below 34. From attempt 34 on the wait is
    announced but too long for [time.sleep], and from attempt 1024 on
    [2 ** attempt] is too large for a float: [OverflowError] comes out
    instead of a wait. *)
Theorem backoff_window_and_propagation
    (uniform01 : nat -> Q) {A} (api_func : M A) operation_type (max_retries : nat) w :
  (forall k, (0 <= uniform01 k)%Q /\ (uniform01 k < 1)%Q) ->
  remote_only api_func ->
  let r := api_call_with_retry uniform01 api_func operation_type (Some max_retries) w in
  (exists waits,
      sleeps (snd r) = sleeps w ++ waits
      /\ (length waits <= max_retries - 1)%nat
      /\ forall i t, waits !! i = Some t -> in_closed_backoff_window i t)
  /\ ((forall w0, exists status content w1,
          api_func w0 = (Raise (HttpError status content), w1)
          /\ retryable status = true) ->
      (0 < max_retries <= 35)%nat ->
      (exists status content,
          fst r = Raise (HttpError status content) /\ retryable status = true)
      /\ length (sleeps (snd r)) = (length (sleeps w) + (max_retries - 1))%nat)
  /\ (forall n attempt w0 e w1,
        api_func w0 = (Raise e, w1) ->
        let next := retry_from uniform01 api_func operation_type max_retries
                      (S n) attempt w0 in
        (is_retryable_error e = false -> next = (Raise e, w1))
        /\ (is_retryable_error e = true ->
            (Z.of_nat max_retries - 1 <= Z.of_nat attempt) ->
            next = (Raise e, print (MsgMaxRetries max_retries) w1))
        /\ (is_retryable_error e = true ->
            (Z.of_nat attempt < Z.of_nat max_retries - 1) ->
            (attempt < 34)%nat ->
            exists t,
              in_closed_backoff_window attempt t
              /\ next = retry_from uniform01 api_func operation_type max_retries
                          n (S attempt)
                          (sleep t (print (MsgRetrying t (attempt + 1) max_retries) w1)))
        /\ (is_retryable_error e = true ->
            (Z.of_nat attempt < Z.of_nat max_retries - 1) ->
            (34 <= attempt < 1024)%nat ->
            exists t,
              in_closed_backoff_window attempt t
              /\ next = (Raise (OverflowError
                                  "timestamp too large to convert to C _PyTime_t"),
                         print (MsgRetrying t (attempt + 1) max_retries) w1))
        /\ (is_retryable_error e = true ->
            (Z.of_nat attempt < Z.of_nat max_retries - 1) ->
            (1024 <= attempt)%nat ->
            next = (Raise (OverflowError "int too large to convert to float"), w1))).
Proof.
  intros Hrange Hro r. subst r. unfold api_call_with_retry.
  split; [|split].
  - destruct (loop_waits uniform01 Hrange api_func operation_type max_retries Hro
                max_retries 0%nat w) as (waits & Hsl & Hlen & Hwin).
    exists waits. split; [exact Hsl|]. split; [|exact Hwin].
    destruct Hlen as [->|Hlen]; simpl in *; lia.
  - intros Hfail Hpos.
    apply (loop_exhausts uniform01 Hrange api_func operation_type max_retries Hro
             max_retries 0%nat w Hfail); lia.
  - intros n attempt w0 e w1 Hw. cbv zeta.
    rewrite (loop_step uniform01 api_func operation_type max_retries n attempt w0 e w1 Hw).
    assert (Hwin : in_closed_backoff_window attempt
                     (float_add_pow2 attempt (uniform01 (length (sleeps w1)))))
      by (apply float_add_pow2_in_window; apply Hrange).
    split; [|split; [|split; [|split]]].
    + intros ->. reflexivity.
    + intros -> Hge. destruct (Z.ltb_spec (Z.of_nat attempt) (Z.of_nat max_retries - 1));
        [lia|reflexivity].
    + intros -> Hlt Hsmall.
      destruct (Z.ltb_spec (Z.of_nat attempt) (Z.of_nat max_retries - 1)); [|lia].
      rewrite wait_time_below_1024 by lia.
      rewrite (short_wait_fits attempt) by assumption.
      eexists. split; [exact Hwin|reflexivity].
    + intros -> Hlt [Hlong Hsmall].
      destruct (Z.ltb_spec (Z.of_nat attempt) (Z.of_nat max_retries - 1)); [|lia].
      rewrite wait_time_below_1024 by lia.
      rewrite (long_wait_overflows attempt) by assumption.
      eexists. split; [exact Hwin|reflexivity].
    + intros -> Hlt Hbig.
      destruct (Z.ltb_spec (Z.of_nat attempt) (Z.of_nat max_retries - 1)); [|lia].
      rewrite wait_time_from_1024 by exact Hbig. reflexivity.
Qed.

(** ** The reply loop *)

Section ReplyLoop.

Variable youtube : service.
Variable uniform01 : nat -> Q.

Abbreviation fetch_replies := (fetch_comment_replies youtube uniform01).
Abbreviation step := (reply_step youtube uniform01).

(** The [try]/[except Exception] around a reply fetch lets nothing
    out. *)
Lemma reply_step_catches fuel video acc ptr w :
  forall e, fst (step fuel video acc ptr w) <> Raise e.
Proof.
  intros e. unfold reply_step.
  destruct (fetch_comment_replies _ _ _ _ _ _ _) as [[replies|e'|] w1];
    simpl; discriminate.
Qed.

Lemma replies_loop_catches fuel video ptrs :
  forall acc w e, fst (replies_loop youtube uniform01 fuel video ptrs acc w) <> Raise e.
Proof.
  induction ptrs as [|ptr ptrs IH]; intros acc w e; simpl; [discriminate|].
  rewrite bind_eq.
  pose proof (reply_step_catches fuel video acc ptr w) as Hs.
  destruct (step fuel video acc ptr w) as [[acc'|e'|] w1]; simpl in *.
  - apply IH.
  - exfalso. exact (Hs e' eq_refl).
  - discriminate.
Qed.

(** The discrepancies only grow along the loop. *)
Lemma replies_loop_extends fuel video ptrs :
  forall acc w acc' w',
    replies_loop youtube uniform01 fuel video ptrs acc w = (Ret acc', w') ->
    exists subs ds, acc' = (fst acc ++ subs, snd acc ++ ds).
Proof.
  induction ptrs as [|ptr ptrs IH]; intros acc w acc' w'; simpl.
  { intros [= <- <-]. exists [], []. rewrite !app_nil_r. destruct acc; reflexivity. }
  rewrite bind_eq. unfold reply_step at 1.
  destruct (fetch_comment_replies _ _ _ _ _ _ _) as [[replies|e'|] w1]; simpl;
    try discriminate; intros Hloop; apply IH in Hloop as (subs & ds & ->); simpl.
  - destruct (_ =? _); eexists _, _; rewrite <- !app_assoc; reflexivity.
  - eexists subs, _. rewrite <- !app_assoc. reflexivity.
Qed.

End ReplyLoop.

(** ** Files *)

Lemma comments_path_not_sub_comments_path channel_id :
  comments_path channel_id <> sub_comments_path channel_id.
Proof.
  unfold comments_path, sub_comments_path. intros H.
  do 3 apply String.app_inj in H. discriminate.
Qed.

Lemma tame_bind {A B} (m : M A) (k : A -> M B) :
  tame m -> (forall a, tame (k a)) -> tame (bind m k).
Proof.
  intros Hm Hk w. rewrite bind_eq. specialize (Hm w).
  destruct (m w) as [[a|e|] w1]; simpl in *; [|exact Hm..].
  rewrite Hk. exact Hm.
Qed.

Lemma tame_ret {A} (a : A) : tame (ret a).
Proof. intros w. reflexivity. Qed.

Section Fetchers.

Variable youtube : service.
Variable uniform01 : nat -> Q.

Lemma tame_call {A} r (answer : nat -> exn + A) op : tame (call uniform01 r answer op).
Proof. intros w. apply call_effect. Qed.

Lemma tame_comment_pages fuel video_id video_title video_link :
  forall token cl tw,
    tame (comment_pages youtube uniform01 fuel video_id video_title video_link token cl tw).
Proof.
  induction fuel as [|fuel IH]; intros token cl tw; simpl.
  - intros w. reflexivity.
  - apply tame_bind; [apply tame_call|]. intros response.
    destruct (more_pages _); [apply IH|apply tame_ret].
Qed.

Lemma tame_reply_pages fuel parent_comment_id video_title video_id :
  forall token sl,
    tame (reply_pages youtube uniform01 fuel parent_comment_id video_title video_id token sl).
Proof.
  induction fuel as [|fuel IH]; intros token sl; simpl.
  - intros w. reflexivity.
  - apply tame_bind; [apply tame_call|]. intros response.
    destruct (more_pages _); [apply IH|apply tame_ret].
Qed.

Lemma tame_fetch_comment_replies fuel parent_comment_id video_title video_id :
  tame (fetch_comment_replies youtube uniform01 fuel parent_comment_id video_title video_id).
Proof.
  intros w. unfold fetch_comment_replies.
  pose proof (tame_reply_pages fuel parent_comment_id video_title video_id None [] w) as H.
  destruct (reply_pages _ _ _ _ _ _ _ _ _) as [[a|e|] w1]; simpl in *; auto.
  destruct e; simpl; auto.
  destruct (parse_http_error_reason content); simpl; auto.
  destruct (reason_is _ _); simpl; auto.
Qed.

Lemma tame_replies_loop fuel video ptrs :
  forall acc, tame (replies_loop youtube uniform01 fuel video ptrs acc).
Proof.
  induction ptrs as [|ptr ptrs IH]; intros acc; simpl; [apply tame_ret|].
  apply tame_bind; [|intros; apply IH].
  intros w. unfold reply_step.
  pose proof (tame_fetch_comment_replies fuel (fst ptr) (vtitle video) (vid video) w) as H.
  destruct (fetch_comment_replies _ _ _ _ _ _ _) as [[a|e|] w1]; simpl in *; auto.
Qed.

Lemma tame_video_try fuel video failed :
  tame (video_try youtube uniform01 fuel video failed).
Proof.
  unfold video_try, fetch_video_comments.
  apply tame_bind; [apply tame_comment_pages|]. intros fetched.
  apply tame_bind; [apply tame_replies_loop|]. intros acc. apply tame_ret.
Qed.

(** C1. The worklist is [V1; V2; V3] and nothing was persisted
    before. V1 yields the two comments [c1], [c2] and no reply
    pointer; after they are saved, the comment fetch of V2 fails with
    an HTTP error whose reason is [quotaExceeded]. Then the loop
    stops: no call is made after the one that failed, so V3 is not
    attempted; the comment file holds exactly [c1; c2] and the reply
    file the empty sequence; the output ends with the graceful-stop
    message, which reports the quota used, and the closing summary;
    the exit status is 0. *)
Theorem quota_exhausted_stops_the_loop fuel channel_id V1 V2 V3 c1 c2 w w1
    status content w2 :
  fetch_video_comments youtube uniform01 fuel (vid V1) (vtitle V1)
    (create_video_link (vid V1)) w = (Ret ([c1; c2], []), w1) ->
  fetch_video_comments youtube uniform01 fuel (vid V2) (vtitle V2)
    (create_video_link (vid V2))
    (write_file (sub_comments_path channel_id) (JsonText (JList []))
       (write_file (comments_path channel_id) (JsonText (JList [c1; c2])) w1))
  = (Raise (HttpError status content), w2) ->
  parse_http_error_reason content = inr (JStr "quotaExceeded") ->
  let r := extract youtube uniform01 fuel channel_id [V1; V2; V3]
             (JList []) (JList []) w in
  r = (Ret 0,
       print (MsgComplete 2 0 (quota_used w2) daily_quota_limit)
         (print (MsgQuotaExceeded 2 0 (quota_used w2) daily_quota_limit) w2))
  /\ calls (snd r) = calls w2
  /\ files (snd r) !! comments_path channel_id = Some (JsonText (JList [c1; c2]))
  /\ files (snd r) !! sub_comments_path channel_id = Some (JsonText (JList [])).
Proof.
  intros H1 H2 Hreason r.
  assert (Hr : r = (Ret 0,
       print (MsgComplete 2 0 (quota_used w2) daily_quota_limit)
         (print (MsgQuotaExceeded 2 0 (quota_used w2) daily_quota_limit) w2))).
  { subst r. unfold extract, main_loop, process_video, video_try, bind.
    cbn [failed_reply_fetches]. rewrite H1. simpl.
    unfold fetch_video_comments in H2 |- *. rewrite H2.
    unfold on_http_error, bind, lift. rewrite Hreason. simpl. reflexivity. }
  split; [exact Hr|]. rewrite Hr. cbn [snd]. split; [reflexivity|].
  pose proof (tame_comment_pages fuel (vid V2) (vtitle V2) (create_video_link (vid V2))
                None [] []
                (write_file (sub_comments_path channel_id) (JsonText (JList []))
                   (write_file (comments_path channel_id) (JsonText (JList [c1; c2])) w1)))
    as Hf.
  unfold fetch_video_comments in H2. rewrite H2 in Hf. simpl in Hf.
  simpl. rewrite Hf. split.
  - rewrite lookup_insert_ne by (apply not_eq_sym, comments_path_not_sub_comments_path).
    apply lookup_insert_eq.
  - apply lookup_insert_eq.
Qed.

End Fetchers.

(** ** The model at work *)

Example strip_and_split :
  Py.split "/" (Py.strip "/" "/channel/UC123/") = ["channel"; "UC123"]
  /\ Py.split "/" (Py.strip "/" "") = [""]
  /\ Py.split "/" (Py.strip "/" "/a//b/") = ["a"; ""; "b"].
Proof. repeat split; reflexivity. Qed.

Example reason_of_error_body :
  parse_http_error_reason (error_body "quotaExceeded") = inr (JStr "quotaExceeded")
  /\ parse_http_error_reason Unparseable = inr JNull
  /\ parse_http_error_reason (JsonText (JDict [("error", JInt 5)])) = inr JNull
  /\ parse_http_error_reason (JsonText (JDict [("error", JDict [("errors", JInt 5)])]))
     = inl (TypeError "object is not subscriptable").
Proof. repeat split; reflexivity. Qed.

Example flaky_call_is_retried_once :
  api_call_with_retry half_jitter (flaky 1) (Some "search.list") None (start ∅)
  = (Ret (Some 1%nat),
     mkWorld 100 [SearchList "flaky"; SearchList "flaky"] [float_add_pow2 0 (1 # 2)]
       [MsgRetrying (float_add_pow2 0 (1 # 2)) 1 3] ∅)
  /\ (float_add_pow2 0 (1 # 2) == 3 # 2)%Q.
Proof. split; vm_compute; reflexivity. Qed.

Example limited_call_gives_up :
  api_call_with_retry half_jitter always_limited (Some "search.list") None (start ∅)
  = (Raise (HttpError 503 Unparseable),
     mkWorld 0 [SearchList "limited"; SearchList "limited"; SearchList "limited"]
       [float_add_pow2 0 (1 # 2); float_add_pow2 1 (1 # 2)]
       [MsgRetrying (float_add_pow2 0 (1 # 2)) 1 3;
        MsgRetrying (float_add_pow2 1 (1 # 2)) 2 3; MsgMaxRetries 3] ∅)
  /\ (float_add_pow2 1 (1 # 2) == 5 # 2)%Q.
Proof. split; vm_compute; reflexivity. Qed.

Example forbidden_call_is_not_retried :
  api_call_with_retry half_jitter forbidden (Some "search.list") None (start ∅)
  = (Raise (HttpError 403 Unparseable), mkWorld 0 [SearchList "forbidden"] [] [] ∅).
Proof. reflexivity. Qed.

Example resolve_direct_channel_id :
  get_channel_id_from_url demo half_jitter urlparse_simple
    "https://www.youtube.com/channel/UCx" (start ∅)
  = (Ret "UCx", start ∅).
Proof. reflexivity. Qed.

Example resolve_handle_with_one_search :
  get_channel_id_from_url demo half_jitter urlparse_simple
    "https://www.youtube.com/@someone" (start ∅)
  = (Ret "UCdemodemodemodemodemo00", mkWorld 100 [SearchList "@someone"] [] [] ∅).
Proof. reflexivity. Qed.

Example resolve_other_host :
  fst (get_channel_id_from_url demo half_jitter urlparse_simple
         "https://example.com/channel/UCx" (start ∅))
  = Raise (ValueError "Invalid YouTube URL: https://example.com/channel/UCx").
Proof. reflexivity. Qed.

Lemma half_jitter_range k : (0 <= half_jitter k)%Q /\ (half_jitter k < 1)%Q.
Proof. unfold half_jitter. split; [discriminate|reflexivity]. Qed.

Lemma always_limited_remote_only : remote_only always_limited.
Proof. intros w. simpl. auto. Qed.

Lemma demo_calls_remote_only c : In c demo_calls -> remote_only (gc_thunk c).
Proof.
  intros [<-|[<-|[<-|[<-|[]]]]]; apply execute_remote_only.
Qed.

Lemma quota_counts_each_successful_call_once_witness :
  fst (run_calls half_jitter demo_calls (start ∅))
  = [Some "channels.list"; Some "search.list"; Some "channels.list"]
  /\ quota_used (snd (run_calls half_jitter demo_calls (start ∅)))
     = 0 + 2 * 1 + 100.
Proof.
  split; [reflexivity|].
  exact (proj1 (quota_counts_each_successful_call_once half_jitter demo_calls
                  "channels.list" (start ∅) demo_calls_remote_only)).
Defined.

Lemma backoff_window_and_propagation_witness :
  exists waits,
    sleeps (snd (api_call_with_retry half_jitter always_limited (Some "search.list")
                   (Some 3%nat) (start ∅)))
    = [] ++ waits
    /\ (length waits <= 3 - 1)%nat
    /\ forall i t, waits !! i = Some t -> in_closed_backoff_window i t.
Proof.
  exact (proj1 (backoff_window_and_propagation half_jitter always_limited
                  (Some "search.list") 3 (start ∅)
                  half_jitter_range always_limited_remote_only)).
Defined.

(** C6, as stated, fails: with the largest jitter below 1 the binary64
    sums [1 + jitter] and [2 + jitter] round up to [2] and [3], the
    upper ends of the windows of attempts 0 and 1, which the half-open
    intervals leave out. *)
Lemma backoff_wait_reaches_the_upper_end :
  let top : nat -> Q := fun _ => Qmake (2 ^ 53 - 1) (2 ^ 53) in
  let r := api_call_with_retry top always_limited (Some "search.list") (Some 3%nat)
             (start ∅) in
  (forall k, (0 <= top k)%Q /\ (top k < 1)%Q)
  /\ remote_only always_limited
  /\ exists t0 t1,
       sleeps (snd r) = [t0; t1]
       /\ (t0 == 2)%Q /\ (t1 == 3)%Q
       /\ ~ in_backoff_window 0 t0
       /\ ~ in_backoff_window 1 t1.
Proof.
  cbv zeta. split; [intros k; split; [discriminate|reflexivity]|].
  split; [exact always_limited_remote_only|].
  eexists _, _. split; [vm_compute; reflexivity|].
  split; [vm_compute; reflexivity|]. split; [vm_compute; reflexivity|].
  split; intros [_ Hlt]; vm_compute in Hlt; discriminate Hlt.
Qed.

Lemma quota_exhausted_stops_the_loop_witness :
  fst (extract demo half_jitter 5 "UCx" [v1; v2; v3] (JList []) (JList []) (start ∅))
  = Ret 0
  /\ calls (snd (extract demo half_jitter 5 "UCx" [v1; v2; v3] (JList []) (JList [])
                   (start ∅)))
     = [CommentThreadsList "v1" None; CommentThreadsList "v2" None]
  /\ files (snd (extract demo half_jitter 5 "UCx" [v1; v2; v3] (JList []) (JList [])
                   (start ∅))) !! comments_path "UCx"
     = Some (JsonText (JList [comment_obj "First" (create_video_link "v1")
                                (demo_thread "c1" "hello" 0);
                              comment_obj "First" (create_video_link "v1")
                                (demo_thread "c2" "world" 0)])).
Proof.
  pose proof (quota_exhausted_stops_the_loop demo half_jitter 5 "UCx" v1 v2 v3
                (comment_obj "First" (create_video_link "v1") (demo_thread "c1" "hello" 0))
                (comment_obj "First" (create_video_link "v1") (demo_thread "c2" "world" 0))
                (start ∅)
                (snd (fetch_video_comments demo half_jitter 5 "v1" "First"
                        (create_video_link "v1") (start ∅)))
                403 (error_body "quotaExceeded")
                (snd (fetch_video_comments demo half_jitter 5 "v2" "Second"
                        (create_video_link "v2")
                        (write_file (sub_comments_path "UCx") (JsonText (JList []))
                           (write_file (comments_path "UCx")
                              (JsonText (JList
                                 [comment_obj "First" (create_video_link "v1")
                                    (demo_thread "c1" "hello" 0);
                                  comment_obj "First" (create_video_link "v1")
                                    (demo_thread "c2" "world" 0)]))
                              (snd (fetch_video_comments demo half_jitter 5 "v1" "First"
                                      (create_video_link "v1") (start ∅)))))))
                eq_refl eq_refl eq_refl) as (Hr & Hc & Hf & _).
  split; [rewrite Hr; reflexivity|]. split; [rewrite Hc; reflexivity|exact Hf].
Defined.

(** C2, on [demo]. The comment of ["v4"] announces two replies and the
    reply listing is refused with reason [quotaExceeded]. The fetcher
    raises, as its comment says it must for the main loop to stop, but
    the handler around the reply fetch catches the exception: one
    discrepancy is recorded, the video is merged and saved, the next
    video of the worklist is fetched, and the run ends with the closing
    summary and without the graceful-stop message. *)
Theorem quota_failure_of_reply_fetch_is_swallowed :
  let w0 := snd (fetch_video_comments demo half_jitter 5 "v4" "Fourth"
                   (create_video_link "v4") (start ∅)) in
  let r := extract demo half_jitter 5 "UCx" [v4; v1] (JList []) (JList []) (start ∅) in
  fst (fetch_comment_replies demo half_jitter 5 "cq" "Fourth" "v4" w0) = Raise quota_exceeded
  /\ fst (reply_step demo half_jitter 5 v4 ([], []) ("cq", 2) w0)
     = Ret ([], [mismatch v4 "cq" 2 0 (Some "<HttpError>")])
  /\ fst r = Ret 0
  /\ calls (snd r)
     = [CommentThreadsList "v4" None; CommentsList "cq" None; CommentThreadsList "v1" None]
  /\ stdout (snd r)
     = [MsgDiscrepancies 1 (failed_replies_path "UCx"); MsgComplete 3 0 2 daily_quota_limit].
Proof. vm_compute. repeat split; reflexivity. Qed.

(** C4, on a comment file that holds the JSON text [[1]]. Subscripting
    the number raises [TypeError], which is neither of the two classes
    the loader catches: the exception leaves [load_state] and the run
    ends with status 1 on the outermost handler. Without a file, with
    undecodable text, or with a record that lacks the key, the loader
    does return the empty state. *)
Theorem load_state_lets_TypeError_escape :
  load_state "output/UCx_comments.json" (start misshapen_fs)
  = (Raise (TypeError "object is not subscriptable"), start misshapen_fs)
  /\ main demo half_jitter urlparse_simple 5 "https://www.youtube.com/channel/UCx"
       (start misshapen_fs)
     = (Some 1,
        mkWorld 0 [] []
          [MsgProcessingChannel "UCx"; MsgUnexpected "object is not subscriptable"]
          misshapen_fs)
  /\ load_state "output/UCx_comments.json" (start ∅) = (Ret ([], JList []), start ∅)
  /\ fst (load_state "output/UCx_comments.json"
            (start {[ "output/UCx_comments.json" := Unparseable ]}))
     = Ret ([], JList [])
  /\ fst (load_state "output/UCx_comments.json"
            (start {[ "output/UCx_comments.json" := JsonText (JList [JDict []]) ]}))
     = Ret ([], JList []).
Proof. vm_compute. repeat split; reflexivity. Qed.

(** ** Results that do not depend on the world *)

Lemma blind_bind {A B} (m : M A) (k : A -> M B) :
  blind m -> (forall a, blind (k a)) -> blind (bind m k).
Proof.
  intros Hm Hk w w'. rewrite !bind_eq. specialize (Hm w w').
  destruct (m w) as [[a|e|] w1], (m w') as [[a'|e'|] w1']; simpl in Hm;
    try discriminate; try (injection Hm as ->); auto.
  apply Hk.
Qed.

Lemma blind_ret {A} (a : A) : blind (ret a).
Proof. intros w w'. reflexivity. Qed.

Lemma blind_raise {A} (e : exn) : blind (@raise A e).
Proof. intros w w'. reflexivity. Qed.

Lemma blind_lift {A} (r : exn + A) : blind (lift r).
Proof. intros w w'. unfold lift. destruct r; reflexivity. Qed.

Lemma blind_say m : blind (say m).
Proof. intros w w'. reflexivity. Qed.

Section Blind.

Variable youtube : service.
Variable uniform01 : nat -> Q.
Variable urlparse : string -> exn + parsed_url.
Hypothesis steady : time_invariant youtube.
Hypothesis jitter_range : forall k, (0 <= uniform01 k)%Q /\ (uniform01 k < 1)%Q.

Lemma blind_retry_from {A} (api_func : M A) op max_retries :
  blind api_func ->
  forall n attempt, blind (retry_from uniform01 api_func op max_retries n attempt).
Proof.
  intros Hb n. induction n as [|n IH]; intros attempt w w'; simpl; [reflexivity|].
  specialize (Hb w w').
  destruct (api_func w) as [[a|e|] w1], (api_func w') as [[a'|e'|] w1']; simpl in Hb;
  try discriminate; try (injection Hb as ->); auto.
  - destruct (op_truthy op); reflexivity.
  - destruct e'; simpl; auto.
  destruct (retryable status); simpl; auto.
  destruct (_ <? _); simpl; auto.
  unfold wait_time. destruct (1024 <=? Z.of_nat attempt); [reflexivity|].
  destruct (Nat.lt_ge_cases attempt 34) as [Hshort|Hlong].
  + rewrite !(short_wait_fits attempt)
      by (try apply float_add_pow2_in_window; try apply jitter_range; exact Hshort).
    apply IH.
  + rewrite !(long_wait_overflows attempt)
      by (try apply float_add_pow2_in_window; try apply jitter_range; exact Hlong).
    reflexivity.
Qed.

Lemma blind_call {A} r (answer : nat -> exn + A) op :
  (forall n m, answer n = answer m) -> blind (call uniform01 r answer op).
Proof.
  intros Hs. unfold call. apply blind_bind.
  - apply blind_retry_from. intros w w'. unfold execute. simpl.
  rewrite (Hs (length (calls w)) (length (calls w'))). reflexivity.
  - intros [a|]; [apply blind_ret|apply blind_raise].
Qed.

Lemma blind_first_item response msg : blind (first_item response msg).
Proof.
  unfold first_item. destruct (items_field response) as [[|x xs]|];
  (apply blind_lift || apply blind_raise).
Qed.

Lemma blind_resolve url : blind (get_channel_id_from_url youtube uniform01 urlparse url).
Proof.
  destruct steady as (Hsearch & Huser & _).
  assert (Htry : blind (get_channel_id_from_url_try youtube uniform01 urlparse url)).
  { unfold get_channel_id_from_url_try. apply blind_bind; [apply blind_lift|].
  intros parsed. destruct (negb _); [apply blind_raise|].
  destruct (Py.split _ _) as [|seg0 rest]; [apply blind_raise|].
  assert (Hlook : forall r (answer : nat -> exn + listing) op msg,
            (forall n m, answer n = answer m) ->
            blind (let* response := call uniform01 r answer op in first_item response msg)).
  { intros r answer op msg Ha. apply blind_bind; [apply blind_call, Ha|].
    intros response. apply blind_first_item. }
  destruct (String.eqb seg0 "channel"), rest as [|seg1 rest'];
    try apply blind_ret;
    (destruct (Py.startswith _ seg0);
     [apply Hlook; intros; apply Hsearch|]);
    destruct (String.eqb seg0 "c"); simpl;
    try (apply Hlook; intros; apply Hsearch);
    destruct (String.eqb seg0 "user"); simpl;
    try (apply Hlook; intros; apply Huser);
    match goal with |- context [if ?c then _ else _] => destruct c end;
    (apply blind_ret || apply blind_raise). }
  intros w w'. unfold get_channel_id_from_url. specialize (Htry w w').
  destruct (get_channel_id_from_url_try _ _ _ _ w) as [[a|e|] w1],
  (get_channel_id_from_url_try _ _ _ _ w') as [[a'|e'|] w1']; simpl in Htry;
  try discriminate; try (injection Htry as ->); auto.
  destruct (is_ValueError e'); reflexivity.
Qed.

Lemma blind_get_uploads_playlist_id channel_id :
  blind (get_uploads_playlist_id youtube uniform01 channel_id).
Proof.
  destruct steady as (_ & _ & Hdetails & _).
  intros w w'. unfold get_uploads_playlist_id.
  assert (Hb : blind (let* response :=
                      call uniform01 (ChannelsContentDetails channel_id)
                        (fun n => channels_details_execute youtube n channel_id)
                        "channels.list" in
                    first_item response ("Channel not found: " +:+ channel_id))).
  { apply blind_bind; [apply blind_call; intros; apply Hdetails|].
  intros response. apply blind_first_item. }
  specialize (Hb w w'). cbv beta in Hb.
  destruct (bind _ _ w) as [[a|e|] w1], (bind _ _ w') as [[a'|e'|] w1']; simpl in Hb;
  try discriminate; try (injection Hb as ->); auto.
  destruct (is_ValueError e'); reflexivity.
Qed.

Lemma blind_videos_pages fuel playlist_id :
  forall token videos, blind (videos_pages youtube uniform01 fuel playlist_id token videos).
Proof.
  destruct steady as (_ & _ & _ & Hplaylist & _).
  induction fuel as [|fuel IH]; intros token videos; simpl.
  - intros w w'. reflexivity.
  - apply blind_bind; [apply blind_call; intros; apply Hplaylist|].
  intros response. destruct (more_pages _); [apply IH|apply blind_ret].
Qed.

Lemma blind_get_all_video_ids_and_titles fuel playlist_id :
  blind (get_all_video_ids_and_titles youtube uniform01 fuel playlist_id).
Proof.
  intros w w'. unfold get_all_video_ids_and_titles.
  pose proof (blind_videos_pages fuel playlist_id None [] w w') as Hb.
  destruct (videos_pages _ _ _ _ _ _ w) as [[a|e|] w1],
  (videos_pages _ _ _ _ _ _ w') as [[a'|e'|] w1']; simpl in Hb;
  try discriminate; try (injection Hb as ->); auto.
Qed.

Lemma blind_comment_pages fuel video_id video_title video_link :
  forall token cl tw,
  blind (comment_pages youtube uniform01 fuel video_id video_title video_link token cl tw).
Proof.
  destruct steady as (_ & _ & _ & _ & Hthreads & _).
  induction fuel as [|fuel IH]; intros token cl tw; simpl.
  - intros w w'. reflexivity.
  - apply blind_bind; [apply blind_call; intros; apply Hthreads|].
  intros response. destruct (more_pages _); [apply IH|apply blind_ret].
Qed.

Lemma blind_reply_pages fuel parent_comment_id video_title video_id :
  forall token sl,
  blind (reply_pages youtube uniform01 fuel parent_comment_id video_title video_id token sl).
Proof.
  destruct steady as (_ & _ & _ & _ & _ & Hcomments).
  induction fuel as [|fuel IH]; intros token sl; simpl.
  - intros w w'. reflexivity.
  - apply blind_bind; [apply blind_call; intros; apply Hcomments|].
  intros response. destruct (more_pages _); [apply IH|apply blind_ret].
Qed.

Lemma blind_fetch_comment_replies fuel parent_comment_id video_title video_id :
  blind (fetch_comment_replies youtube uniform01 fuel parent_comment_id video_title video_id).
Proof.
  intros w w'. unfold fetch_comment_replies.
  pose proof (blind_reply_pages fuel parent_comment_id video_title video_id None [] w w') as Hb.
  destruct (reply_pages _ _ _ _ _ _ _ _ w) as [[a|e|] w1],
  (reply_pages _ _ _ _ _ _ _ _ w') as [[a'|e'|] w1']; simpl in Hb;
  try discriminate; try (injection Hb as ->); auto.
  destruct e'; simpl; auto.
  destruct (parse_http_error_reason content); simpl; auto.
  destruct (reason_is _ _); reflexivity.
Qed.

Lemma blind_reply_step fuel video acc ptr :
  blind (reply_step youtube uniform01 fuel video acc ptr).
Proof.
  intros w w'. unfold reply_step.
  pose proof (blind_fetch_comment_replies fuel (fst ptr) (vtitle video) (vid video) w w') as Hb.
  destruct (fetch_comment_replies _ _ _ _ _ _ w) as [[a|e|] w1],
  (fetch_comment_replies _ _ _ _ _ _ w') as [[a'|e'|] w1']; simpl in Hb;
  try discriminate; try (injection Hb as ->); auto.
Qed.

Lemma blind_replies_loop fuel video ptrs :
  forall acc, blind (replies_loop youtube uniform01 fuel video ptrs acc).
Proof.
  induction ptrs as [|ptr ptrs IH]; intros acc; simpl; [apply blind_ret|].
  apply blind_bind; [apply blind_reply_step|apply IH].
Qed.

Lemma blind_video_try fuel video failed :
  blind (video_try youtube uniform01 fuel video failed).
Proof.
  unfold video_try, fetch_video_comments.
  apply blind_bind; [apply blind_comment_pages|]. intros fetched.
  apply blind_bind; [apply blind_replies_loop|]. intros acc. apply blind_ret.
Qed.

End Blind.

(** ** What a run does to the files, stage by stage *)

Section Stages.

Variable youtube : service.
Variable uniform01 : nat -> Q.
Variable urlparse : string -> exn + parsed_url.

Lemma tame_resolve url : tame (get_channel_id_from_url youtube uniform01 urlparse url).
Proof.
  intros w. unfold get_channel_id_from_url.
  pose proof (resolve_try_effect youtube uniform01 urlparse url w) as [Hf _].
  destruct (get_channel_id_from_url_try _ _ _ _ _) as [[a|e|] w1]; simpl in *; auto.
  destruct (is_ValueError e); exact Hf.
Qed.

Lemma tame_first_item response msg : tame (first_item response msg).
Proof. intros w. apply (f_equal files), first_item_effect. Qed.

Lemma tame_get_uploads_playlist_id channel_id :
  tame (get_uploads_playlist_id youtube uniform01 channel_id).
Proof.
  intros w. unfold get_uploads_playlist_id.
  assert (Ht : tame (let* response :=
                     call uniform01 (ChannelsContentDetails channel_id)
                       (fun n => channels_details_execute youtube n channel_id)
                       "channels.list" in
                   first_item response ("Channel not found: " +:+ channel_id))).
  { apply tame_bind; [apply tame_call|]. intros; apply tame_first_item. }
  specialize (Ht w). cbv beta in Ht.
  destruct (bind _ _ w) as [[a|e|] w1]; simpl in *; auto.
  destruct (is_ValueError e); exact Ht.
Qed.

Lemma tame_videos_pages fuel playlist_id :
  forall token videos, tame (videos_pages youtube uniform01 fuel playlist_id token videos).
Proof.
  induction fuel as [|fuel IH]; intros token videos; simpl.
  - intros w. reflexivity.
  - apply tame_bind; [apply tame_call|]. intros response.
  destruct (more_pages _); [apply IH|apply tame_ret].
Qed.

Lemma tame_get_all_video_ids_and_titles fuel playlist_id :
  tame (get_all_video_ids_and_titles youtube uniform01 fuel playlist_id).
Proof.
  intros w. unfold get_all_video_ids_and_titles.
  pose proof (tame_videos_pages fuel playlist_id None [] w) as Ht.
  destruct (videos_pages _ _ _ _ _ _ _) as [[a|e|] w1]; simpl in *; auto.
Qed.

Lemma tame_load_state comments_file : tame (load_state comments_file).
Proof.
  intros w. unfold load_state.
  destruct (files w !! comments_file) as [c|]; [|reflexivity].
  destruct (load_state_try c) as [e|r]; [|reflexivity].
  destruct e; reflexivity.
Qed.

Lemma tame_load_sub_comments sub_comments_file : tame (load_sub_comments sub_comments_file).
Proof.
  intros w. unfold load_sub_comments.
  destruct (files w !! sub_comments_file) as [c|]; [|reflexivity].
  destruct (json_loads c) as [e|r]; [|reflexivity].
  destruct e; reflexivity.
Qed.

(** The discrepancies found so far ride along the reply loop. *)
Lemma replies_loop_failed fuel video ptrs :
  forall subs failed w,
  replies_loop youtube uniform01 fuel video ptrs (subs, failed) w
  = match replies_loop youtube uniform01 fuel video ptrs (subs, []) w with
    | (Ret acc, w') => (Ret (fst acc, failed ++ snd acc), w')
    | (Raise e, w') => (Raise e, w')
    | (Diverge, w') => (Diverge, w')
    end.
Proof.
  induction ptrs as [|ptr ptrs IH]; intros subs failed w; simpl.
  { unfold ret. rewrite app_nil_r. reflexivity. }
  rewrite !bind_eq. unfold reply_step. cbn [fst snd].
  destruct (fetch_comment_replies _ _ _ _ _ _ _) as [[replies|e|] w1]; [| |reflexivity].
  - destruct (_ =? _).
  + apply IH.
  + rewrite IH. rewrite (IH _ ([] ++ _)).
    destruct (replies_loop _ _ _ _ _ _ _) as [[acc|e|] w2]; try reflexivity.
    simpl. rewrite <- app_assoc. reflexivity.
  - rewrite IH. rewrite (IH _ ([] ++ _)).
  destruct (replies_loop _ _ _ _ _ _ _) as [[acc|e'|] w2]; try reflexivity.
  simpl. rewrite <- app_assoc. reflexivity.
Qed.

Lemma video_try_failed fuel video failed w :
  video_try youtube uniform01 fuel video failed w
  = match video_try youtube uniform01 fuel video [] w with
  | (Ret r, w') => (Ret (fst r, (fst (snd r), failed ++ snd (snd r))), w')
  | (Raise e, w') => (Raise e, w')
  | (Diverge, w') => (Diverge, w')
  end.
Proof.
  unfold video_try. rewrite !bind_eq.
  destruct (fetch_video_comments _ _ _ _ _ _ _) as [[fetched|e|] w1]; try reflexivity.
  rewrite !bind_eq, replies_loop_failed.
  destruct (replies_loop _ _ _ _ _ _ _) as [[acc|e|] w2]; reflexivity.
Qed.

End Stages.

(** ** Verdicts *)

Section Verdicts.

Variable youtube : service.
Variable uniform01 : nat -> Q.
Hypothesis steady : time_invariant youtube.
Hypothesis jitter_range : forall k, (0 <= uniform01 k)%Q /\ (uniform01 k < 1)%Q.
Variable fuel : nat.
Variables comments_file sub_comments_file : string.

Abbreviation verdict_on := (verdict_of youtube uniform01 fuel).
Abbreviation iteration := (process_video youtube uniform01 fuel comments_file sub_comments_file).
Abbreviation the_loop := (main_loop youtube uniform01 fuel comments_file sub_comments_file).

(** With lists for master sequences, an iteration does what the verdict
    on its video says, in whatever world it runs. *)
Lemma process_video_verdict u a b f w :
  match verdict_on u with
  | VMerge cs subs ds =>
      fst (iteration u (lists a b f) w) = Ret (Next, lists (a ++ cs) (b ++ subs) (f ++ ds))
      /\ files (snd (iteration u (lists a b f) w))
         = <[sub_comments_file := JsonText (JList (b ++ subs))]>
             (<[comments_file := JsonText (JList (a ++ cs))]> (files w))
  | VSkip =>
      fst (iteration u (lists a b f) w) = Ret (Next, lists a b f)
      /\ files (snd (iteration u (lists a b f) w)) = files w
  | VBreak =>
      fst (iteration u (lists a b f) w) = Ret (Break, lists a b f)
      /\ files (snd (iteration u (lists a b f) w)) = files w
  | VCrash e =>
      fst (iteration u (lists a b f) w) = Raise e
      /\ files (snd (iteration u (lists a b f) w)) = files w
  | VDiverge => fst (iteration u (lists a b f) w) = Diverge
  end.
Proof.
  unfold verdict_of, process_video.
  pose proof (blind_video_try youtube uniform01 steady jitter_range fuel u [] w (start ∅)) as Hb.
  pose proof (tame_video_try youtube uniform01 fuel u [] w) as Ht.
  cbn [failed_reply_fetches lists].
  rewrite (video_try_failed youtube uniform01 fuel u f w).
  destruct (video_try youtube uniform01 fuel u [] w) as [o w1]. simpl in Hb, Ht.
  rewrite <- Hb. clear Hb.
  destruct o as [[cs [subs ds]]|e|]; cbn [fst snd].
  - unfold merge_and_save, atomic_write_json, lists. simpl. rewrite Ht. auto.
  - destruct e; simpl; auto.
    unfold on_http_error. rewrite bind_lift.
    destruct (parse_http_error_reason content) as [e'|reason]; simpl; auto.
    destruct (reason_is reason "commentsDisabled"); simpl; auto.
    destruct (reason_is reason "quotaExceeded"); simpl; auto.
  - reflexivity.
Qed.

(** When a master sequence is not a list, the first merge fails before
    anything is saved: an iteration writes nothing and, if it ends
    normally, changes nothing. *)
Lemma process_video_not_lists u st w :
  is_list (master_comments_list st) && is_list (master_sub_comments_list st) = false ->
  files (snd (iteration u st w)) = files w
  /\ forall fl st', fst (iteration u st w) = Ret (fl, st') -> st' = st.
Proof.
  intros Hnl. unfold process_video.
  pose proof (tame_video_try youtube uniform01 fuel u (failed_reply_fetches st) w) as Ht.
  destruct (video_try _ _ _ _ _ _) as [[[cs [subs ds]]|e|] w1]; simpl in Ht.
  - unfold merge_and_save. rewrite bind_lift.
    destruct (master_comments_list st); simpl in *;
      try (split; [exact Ht|discriminate]).
    rewrite bind_lift.
    destruct (master_sub_comments_list st); simpl in *;
      try (split; [exact Ht|discriminate]).
    discriminate.
  - destruct e; simpl; try (split; [exact Ht|intros fl st' [= _ <-]; reflexivity]).
    unfold on_http_error. rewrite bind_lift.
    destruct (parse_http_error_reason content) as [e'|reason]; simpl;
      [split; [exact Ht|discriminate]|].
    destruct (reason_is reason "commentsDisabled"); simpl;
      [split; [exact Ht|intros fl st' [= _ <-]; reflexivity]|].
    destruct (reason_is reason "quotaExceeded"); simpl;
      [|split; [exact Ht|intros fl st' [= _ <-]; reflexivity]].
    rewrite bind_lift.
    destruct (Py.len (master_comments_list st)); simpl; [split; [exact Ht|discriminate]|].
    rewrite bind_lift.
    destruct (Py.len (master_sub_comments_list st)); simpl; [split; [exact Ht|discriminate]|].
    split; [exact Ht|intros fl st' [= _ <-]; reflexivity].
  - split; [exact Ht|discriminate].
Qed.

Lemma main_loop_not_lists vs : forall st w,
  is_list (master_comments_list st) && is_list (master_sub_comments_list st) = false ->
  files (snd (the_loop vs st w)) = files w
  /\ forall st', fst (the_loop vs st w) = Ret st' -> st' = st.
Proof.
  induction vs as [|u vs IH]; intros st w Hnl; simpl.
  { split; [reflexivity|]. intros st' [= <-]. reflexivity. }
  rewrite bind_eq.
  destruct (process_video_not_lists u st w Hnl) as [Hf Hst].
  destruct (iteration u st w) as [[[fl st1]|e|] w1]; simpl in *;
    try (split; [exact Hf|discriminate]).
  rewrite (Hst fl st1 eq_refl).
  destruct fl; simpl.
  - destruct (IH st w1 Hnl) as [Hf' Hst']. split; [congruence|exact Hst'].
  - split; [exact Hf|]. intros st' [= <-]. reflexivity.
Qed.

(** *** The first run, on lists *)

Lemma merged_without_saves vs :
  saves verdict_on vs = false -> merged verdict_on vs = ([], [], []).
Proof.
  induction vs as [|u vs IH]; simpl; [reflexivity|].
  destruct (verdict_on u); auto. discriminate.
Qed.

Lemma main_loop_replay vs : forall a b f w,
  comments_file <> sub_comments_file ->
  let r := the_loop vs (lists a b f) w in
  let m := merged verdict_on vs in
  match ending verdict_on vs with
  | Ret _ => fst r = Ret (lists (a ++ fst (fst m)) (b ++ snd (fst m)) (f ++ snd m))
  | Raise e => fst r = Raise e
  | Diverge => fst r = Diverge
  end
  /\ (ending verdict_on vs <> Diverge ->
      files (snd r) !! comments_file
      = (if saves verdict_on vs then Some (JsonText (JList (a ++ fst (fst m))))
         else files w !! comments_file)
      /\ files (snd r) !! sub_comments_file
         = (if saves verdict_on vs then Some (JsonText (JList (b ++ snd (fst m))))
            else files w !! sub_comments_file)
      /\ forall p, p <> comments_file -> p <> sub_comments_file ->
           files (snd r) !! p = files w !! p).
Proof.
  induction vs as [|u vs IH]; intros a b f w Hne; cbn zeta.
  { simpl. rewrite !app_nil_r. auto. }
  cbn [main_loop ending merged saves]. rewrite bind_eq.
  pose proof (process_video_verdict u a b f w) as Hv.
  destruct (verdict_on u) as [cs subs ds| | |e|].
  - destruct Hv as [Hfst Hfiles].
    destruct (iteration u (lists a b f) w) as [o w1]. simpl in Hfst, Hfiles. subst o.
    cbn [fst snd].
    destruct (IH (a ++ cs) (b ++ subs) (f ++ ds) w1 Hne) as [Hend Hf]. cbv zeta in Hend, Hf.
    split.
    + destruct (ending verdict_on vs) as [[]|e|]; rewrite Hend; [|reflexivity..].
      cbn [fst snd]. rewrite <- !app_assoc. reflexivity.
    + intros Hnd. destruct (Hf Hnd) as (Hc & Hs & Ho). rewrite Hc, Hs, Hfiles.
      cbn [fst snd].
      destruct (saves verdict_on vs) eqn:Hsv.
      * rewrite <- !app_assoc. split; [reflexivity|]. split; [reflexivity|].
        intros p Hpc Hps. rewrite Ho, Hfiles by assumption.
        rewrite !lookup_insert_ne by congruence. reflexivity.
      * rewrite (merged_without_saves vs Hsv). cbn [fst snd]. rewrite !app_nil_r.
        rewrite lookup_insert_ne by congruence. rewrite !lookup_insert_eq.
        split; [reflexivity|]. split; [reflexivity|].
        intros p Hpc Hps. rewrite Ho, Hfiles by assumption.
        rewrite !lookup_insert_ne by congruence. reflexivity.
  - destruct Hv as [Hfst Hfiles].
    destruct (iteration u (lists a b f) w) as [o w1]. simpl in Hfst, Hfiles. subst o.
    cbn [fst snd].
    destruct (IH a b f w1 Hne) as [Hend Hf]. cbv zeta in Hend, Hf.
    split; [exact Hend|]. intros Hnd. rewrite <- Hfiles. exact (Hf Hnd).
  - destruct Hv as [Hfst Hfiles].
    destruct (iteration u (lists a b f) w) as [o w1]. simpl in Hfst, Hfiles. subst o.
    unfold ret. cbn [fst snd]. rewrite !app_nil_r. rewrite Hfiles. auto.
  - destruct Hv as [Hfst Hfiles].
    destruct (iteration u (lists a b f) w) as [o w1]. simpl in Hfst, Hfiles. subst o.
    cbn [fst snd]. rewrite Hfiles. auto.
  - destruct (iteration u (lists a b f) w) as [o w1]. simpl in Hv. subst o.
    cbn [fst snd]. split; [reflexivity|]. intros H. contradiction.
Qed.

End Verdicts.

(** ** What the comment fetch returns *)

Section CommentPages.

Variable youtube : service.
Variable uniform01 : nat -> Q.

(** No reply pointer without a comment. *)
Lemma comment_pages_pointers fuel video_id video_title video_link :
  forall token cl tw w cs ptrs w',
    (cl = [] -> tw = []) ->
    comment_pages youtube uniform01 fuel video_id video_title video_link token cl tw w
    = (Ret (cs, ptrs), w') ->
    cs = [] -> ptrs = [].
Proof.
  induction fuel as [|fuel IH]; intros token cl tw w cs ptrs w' Hinv; simpl;
    [discriminate|].
  rewrite bind_eq.
  destruct (call _ _ _ _ _) as [[response|e|] w1]; try discriminate.
  assert (Hinv' : cl ++ map (comment_obj video_title video_link) (items response) = [] ->
                  tw ++ reply_pointers (items response) = []).
  { intros H. apply app_eq_nil in H as [Hcl Hmap]. apply map_eq_nil in Hmap.
    rewrite Hmap, (Hinv Hcl). reflexivity. }
  destruct (more_pages _).
  - apply IH. exact Hinv'.
  - intros [= <- <- <-]. exact Hinv'.
Qed.

(** Every comment carries the link of its video. *)
Lemma comment_pages_links fuel video_id video_title video_link :
  forall token cl tw w cs ptrs w',
    Forall (has_link video_link) cl ->
    comment_pages youtube uniform01 fuel video_id video_title video_link token cl tw w
    = (Ret (cs, ptrs), w') ->
    Forall (has_link video_link) cs.
Proof.
  induction fuel as [|fuel IH]; intros token cl tw w cs ptrs w' Hinv; simpl;
    [discriminate|].
  rewrite bind_eq.
  destruct (call _ _ _ _ _) as [[response|e|] w1]; try discriminate.
  assert (Hinv' : Forall (has_link video_link)
                    (cl ++ map (comment_obj video_title video_link) (items response))).
  { apply Forall_app. split; [exact Hinv|].
    apply Forall_forall. intros c Hc. apply list_elem_of_In, in_map_iff in Hc as (t & <- & _).
    reflexivity. }
  destruct (more_pages _).
  - apply IH. exact Hinv'.
  - intros [= <- <- <-]. exact Hinv'.
Qed.

(** Whether the fetch raises, and what, does not depend on the title. *)
Lemma comment_pages_raise_any_title fuel video_id video_link t t' :
  forall token cl cl' tw tw' w e,
    fst (comment_pages youtube uniform01 fuel video_id t video_link token cl tw w) = Raise e ->
    fst (comment_pages youtube uniform01 fuel video_id t' video_link token cl' tw' w) = Raise e.
Proof.
  induction fuel as [|fuel IH]; intros token cl cl' tw tw' w e; simpl; [discriminate|].
  rewrite !bind_eq.
  destruct (call _ _ _ _ _) as [[response|e0|] w1]; try (simpl; congruence).
  destruct (more_pages _); [apply IH|discriminate].
Qed.

(** The [try] block raises only out of the comment fetch. *)
Lemma video_try_raise fuel video failed w e :
  fst (video_try youtube uniform01 fuel video failed w) = Raise e ->
  fst (fetch_video_comments youtube uniform01 fuel (vid video) (vtitle video)
         (create_video_link (vid video)) w) = Raise e.
Proof.
  unfold video_try. rewrite bind_eq.
  destruct (fetch_video_comments _ _ _ _ _ _ _) as [[fetched|e0|] w1]; simpl;
    [|intros [= ->]; reflexivity|discriminate].
  rewrite bind_eq.
  pose proof (replies_loop_catches youtube uniform01 fuel video (snd fetched)
                ([], failed) w1) as Hc.
  destruct (replies_loop _ _ _ _ _ _ _) as [[acc|e0|] w2]; simpl in *; intros H;
    [discriminate H|exfalso; exact (Hc e0 eq_refl)|discriminate H].
Qed.

Lemma video_try_of_raise fuel video failed w e :
  fst (fetch_video_comments youtube uniform01 fuel (vid video) (vtitle video)
         (create_video_link (vid video)) w) = Raise e ->
  fst (video_try youtube uniform01 fuel video failed w) = Raise e.
Proof.
  unfold video_try. rewrite bind_eq.
  destruct (fetch_video_comments _ _ _ _ _ _ _) as [[fetched|e0|] w1]; simpl;
    try discriminate. intros [= ->]. reflexivity.
Qed.

Abbreviation verdict_on := (verdict_of youtube uniform01).

Lemma verdict_merge_nothing fuel u subs ds :
  verdict_on fuel u = VMerge [] subs ds -> subs = [] /\ ds = [].
Proof.
  unfold verdict_of, video_try. rewrite bind_eq. unfold fetch_video_comments.
  destruct (comment_pages _ _ _ _ _ _ _ _ _ _) as [[[cs ptrs]|e|] w1] eqn:Hcp;
    cbn [fst snd].
  - rewrite bind_eq.
    destruct (replies_loop _ _ _ _ _ _ _) as [[[subs' ds']|e|] w2] eqn:Hrl; simpl;
      try discriminate.
    + intros [= -> -> ->].
      rewrite (comment_pages_pointers _ _ _ _ _ _ _ _ _ _ _ (fun _ => eq_refl) Hcp eq_refl)
        in Hrl.
      simpl in Hrl. injection Hrl as <- <- _. auto.
    + destruct e; try discriminate.
      destruct (parse_http_error_reason content); try discriminate.
      repeat match goal with |- context [if ?c then _ else _] => destruct c end;
        discriminate.
  - destruct e; try discriminate.
    destruct (parse_http_error_reason content); try discriminate.
    repeat match goal with |- context [if ?c then _ else _] => destruct c end;
      discriminate.
  - discriminate.
Qed.

Lemma verdict_merge_links fuel u cs subs ds :
  verdict_on fuel u = VMerge cs subs ds ->
  Forall (has_link (create_video_link (vid u))) cs.
Proof.
  unfold verdict_of, video_try. rewrite bind_eq. unfold fetch_video_comments.
  destruct (comment_pages _ _ _ _ _ _ _ _ _ _) as [[[cs' ptrs]|e|] w1] eqn:Hcp;
    cbn [fst snd].
  - rewrite bind_eq.
    destruct (replies_loop _ _ _ _ _ _ _) as [[[subs' ds']|e|] w2] eqn:Hrl; simpl;
      try discriminate.
    + intros [= <- <- <-].
      exact (comment_pages_links _ _ _ _ _ _ _ _ _ _ _ (Forall_nil_2 _) Hcp).
    + destruct e; try discriminate.
      destruct (parse_http_error_reason content); try discriminate.
      repeat match goal with |- context [if ?c then _ else _] => destruct c end;
        discriminate.
  - destruct e; try discriminate.
    destruct (parse_http_error_reason content); try discriminate.
    repeat match goal with |- context [if ?c then _ else _] => destruct c end;
      discriminate.
  - discriminate.
Qed.

(** Two entries of the listing with the same id: if one is merged, the
    other does not stop the loop. *)
Lemma verdict_same_id fuel u u' cs subs ds :
  vid u = vid u' ->
  verdict_on fuel u = VMerge cs subs ds ->
  is_stop (verdict_on fuel u') = false.
Proof.
  intros Hid Hu.
  destruct (is_stop (verdict_on fuel u')) eqn:Hstop; [exfalso|reflexivity].
  assert (Hraise : exists e, fst (video_try youtube uniform01 fuel u' [] (start ∅)) = Raise e).
  { revert Hstop. unfold verdict_of.
    destruct (fst (video_try youtube uniform01 fuel u' [] (start ∅))) as [[c [s d]]|e|];
      simpl; try discriminate. eauto. }
  destruct Hraise as [e He]. apply video_try_raise in He.
  unfold fetch_video_comments in He. rewrite <- Hid in He.
  apply (comment_pages_raise_any_title fuel (vid u) (create_video_link (vid u))
           (vtitle u') (vtitle u) None [] [] [] []) in He.
  apply (video_try_of_raise fuel u []) in He.
  revert Hu. unfold verdict_of. rewrite He.
  destruct e; try discriminate.
  destruct (parse_http_error_reason content); try discriminate.
  repeat match goal with |- context [if ?c then _ else _] => destruct c end; discriminate.
Qed.

End CommentPages.

(** ** The second run *)

Section SecondRun.

Variable youtube : service.
Variable uniform01 : nat -> Q.
Hypothesis steady : time_invariant youtube.
Hypothesis jitter_range : forall k, (0 <= uniform01 k)%Q /\ (uniform01 k < 1)%Q.
Variable fuel : nat.
Variables comments_file sub_comments_file : string.
Variable L : list json.

Abbreviation verdict_on := (verdict_of youtube uniform01 fuel).
Abbreviation the_loop := (main_loop youtube uniform01 fuel comments_file sub_comments_file).
Abbreviation processed u := (Py.str_in_set (create_video_link (vid u)) L).

(** The loop of a second run goes over the videos that left no comment
    behind. If the first run came to an end, if every video it merged
    with at least one comment is now in the processed set, and if no
    video of the processed set would stop the loop, then the second
    loop saves what is already saved, or nothing, and finds no
    discrepancy. *)
Lemma second_loop_quiet vs :
  ending verdict_on vs <> Diverge ->
  (forall u, In u vs -> processed u = true -> is_stop (verdict_on u) = false) ->
  (forall u cs subs ds, In u (reached verdict_on vs) ->
     verdict_on u = VMerge cs subs ds -> cs <> [] -> processed u = true) ->
  forall A B w,
    files w !! comments_file = Some (JsonText (JList A)) ->
    files w !! sub_comments_file = Some (JsonText (JList B)) ->
    files (snd (the_loop (worklist vs L) (lists A B []) w)) = files w
    /\ (fst (the_loop (worklist vs L) (lists A B []) w) = Ret (lists A B [])
        \/ exists e, fst (the_loop (worklist vs L) (lists A B []) w) = Raise e).
Proof.
  induction vs as [|u vs IH]; intros Hend Hstop Hmerged A B w Hc Hs.
  { simpl. split; [reflexivity|left; reflexivity]. }
  cbn [worklist List.filter]. fold (worklist vs L).
  cbn [ending reached] in Hend, Hmerged.
  destruct (processed u) eqn:Hp; cbn [negb].
  - assert (Hns := Hstop u (or_introl eq_refl) Hp).
    apply IH; [| | |exact Hc|exact Hs].
    + destruct (verdict_on u); simpl in Hns; try discriminate; try exact Hend.
      intros _. apply Hend. reflexivity.
    + intros u' Hin. apply Hstop. right. exact Hin.
    + intros u' cs subs ds Hin. apply Hmerged. right.
      destruct (verdict_on u); simpl in Hns; try discriminate; try exact Hin.
      exfalso. apply Hend. reflexivity.
  - cbn [main_loop]. rewrite bind_eq.
    pose proof (process_video_verdict youtube uniform01 steady jitter_range fuel
                  comments_file sub_comments_file u A B [] w) as Hv.
    pose proof (fun cs subs ds => Hmerged u cs subs ds (or_introl eq_refl)) as Hu.
    destruct (verdict_on u) as [cs subs ds| | |e|] eqn:Hvu.
    + assert (Hcs : cs = []).
      { destruct cs as [|c cs]; [reflexivity|].
        specialize (Hu _ _ _ eq_refl ltac:(discriminate)). congruence. }
      subst cs. destruct (verdict_merge_nothing youtube uniform01 fuel u subs ds Hvu) as [-> ->].
      rewrite !app_nil_r in Hv. destruct Hv as [Hfst Hfiles].
      rewrite (insert_id _ _ _ Hc) in Hfiles. rewrite (insert_id _ _ _ Hs) in Hfiles.
      destruct (process_video _ _ _ _ _ _ _ _) as [o w1]. simpl in Hfst, Hfiles. subst o.
      cbn [fst snd]. rewrite <- Hfiles. apply IH.
      * exact Hend.
      * intros u' Hin. apply Hstop. right. exact Hin.
      * intros u' cs subs ds Hin. apply Hmerged. right. exact Hin.
      * rewrite Hfiles. exact Hc.
      * rewrite Hfiles. exact Hs.
    + destruct Hv as [Hfst Hfiles].
      destruct (process_video _ _ _ _ _ _ _ _) as [o w1]. simpl in Hfst, Hfiles. subst o.
      cbn [fst snd]. rewrite <- Hfiles. apply IH.
      * exact Hend.
      * intros u' Hin. apply Hstop. right. exact Hin.
      * intros u' cs subs ds Hin. apply Hmerged. right. exact Hin.
      * rewrite Hfiles. exact Hc.
      * rewrite Hfiles. exact Hs.
    + destruct Hv as [Hfst Hfiles].
      destruct (process_video _ _ _ _ _ _ _ _) as [o w1]. simpl in Hfst, Hfiles. subst o.
      unfold ret. cbn [fst snd]. split; [exact Hfiles|left; reflexivity].
    + destruct Hv as [Hfst Hfiles].
      destruct (process_video _ _ _ _ _ _ _ _) as [o w1]. simpl in Hfst, Hfiles. subst o.
      cbn [fst snd]. split; [exact Hfiles|right; exists e; reflexivity].
    + exfalso. apply Hend. reflexivity.
Qed.

End SecondRun.

(** ** The tail of a run *)

Lemma failed_replies_path_not_comments_path channel_id :
  failed_replies_path channel_id <> comments_path channel_id.
Proof.
  unfold comments_path, failed_replies_path. intros H.
  do 3 apply String.app_inj in H. discriminate.
Qed.

Lemma failed_replies_path_not_sub_comments_path channel_id :
  failed_replies_path channel_id <> sub_comments_path channel_id.
Proof.
  unfold sub_comments_path, failed_replies_path. intros H.
  do 3 apply String.app_inj in H. discriminate.
Qed.

Lemma create_video_link_inj a b : create_video_link a = create_video_link b -> a = b.
Proof. unfold create_video_link. apply String.app_inj. Qed.

Lemma has_link_inj s s' c : has_link s c -> has_link s' c -> s = s'.
Proof. unfold has_link. intros H H'. rewrite H in H'. congruence. Qed.

Section Extract.

Variable youtube : service.
Variable uniform01 : nat -> Q.
Hypothesis steady : time_invariant youtube.
Hypothesis jitter_range : forall k, (0 <= uniform01 k)%Q /\ (uniform01 k < 1)%Q.
Variable fuel : nat.
Variable channel_id : string.

Abbreviation verdict_on := (verdict_of youtube uniform01 fuel).
Abbreviation cp := (comments_path channel_id).
Abbreviation sp := (sub_comments_path channel_id).

(** Steps 8 to 10 of a first run: either no file changes, or the
    master sequences were lists and the two files hold them, extended
    by what the loop merged. *)
Lemma extract_first vs mc ms w :
  fst (extract youtube uniform01 fuel channel_id vs mc ms w) <> Diverge ->
  files (snd (extract youtube uniform01 fuel channel_id vs mc ms w)) = files w
  \/ exists a0 b0,
       mc = JList a0 /\ ms = JList b0
       /\ ending verdict_on vs <> Diverge
       /\ files (snd (extract youtube uniform01 fuel channel_id vs mc ms w)) !! cp
          = Some (JsonText (JList (a0 ++ fst (fst (merged verdict_on vs)))))
       /\ files (snd (extract youtube uniform01 fuel channel_id vs mc ms w)) !! sp
          = Some (JsonText (JList (b0 ++ snd (fst (merged verdict_on vs))))).
Proof.
  unfold extract. rewrite bind_eq.
  destruct (is_list mc && is_list ms) eqn:Hl.
  - destruct mc as [| | | |a0|]; try discriminate.
    destruct ms as [| | | |b0|]; try discriminate.
    pose proof (main_loop_replay youtube uniform01 steady jitter_range fuel cp sp vs a0 b0 [] w
                  (comments_path_not_sub_comments_path channel_id)) as [Hend Hfiles].
    fold (lists a0 b0 []). cbv zeta in Hend, Hfiles.
    destruct (main_loop _ _ _ _ _ _ _ _) as [o w1]. cbn [fst snd] in Hend, Hfiles.
    destruct (ending verdict_on vs) as [[]|e|] eqn:Hending.
    + subst o. destruct (Hfiles ltac:(discriminate)) as (Hc & Hs & Ho).
      destruct (saves verdict_on vs) eqn:Hsv.
      * intros _. right. exists a0, b0. split; [reflexivity|]. split; [reflexivity|].
        split; [discriminate|].
        cbn [failed_reply_fetches lists master_comments_list master_sub_comments_list].
        destruct (snd (merged verdict_on vs)) as [|d ds]; simpl.
        -- split; assumption.
        -- rewrite !lookup_insert_ne
             by (first [apply failed_replies_path_not_comments_path
                       |apply failed_replies_path_not_sub_comments_path]).
           split; assumption.
      * intros _. left.
        rewrite (merged_without_saves youtube uniform01 fuel vs Hsv). simpl.
        apply map_eq. intros p.
        destruct (decide (p = cp)) as [->|Hpc]; [exact Hc|].
        destruct (decide (p = sp)) as [->|Hps]; [exact Hs|].
        apply Ho; assumption.
    + subst o. intros _.
      destruct (Hfiles ltac:(discriminate)) as (Hc & Hs & Ho). cbn [fst snd].
      destruct (saves verdict_on vs) eqn:Hsv.
      * right. exists a0, b0. split; [reflexivity|]. split; [reflexivity|].
        split; [discriminate|]. split; assumption.
      * left. apply map_eq. intros p.
        destruct (decide (p = cp)) as [->|Hpc]; [exact Hc|].
        destruct (decide (p = sp)) as [->|Hps]; [exact Hs|].
        apply Ho; assumption.
    + subst o. intros H. exfalso. apply H. reflexivity.
  - pose proof (main_loop_not_lists youtube uniform01 fuel cp sp vs
                  {| master_comments_list := mc; master_sub_comments_list := ms;
                     failed_reply_fetches := [] |} w Hl) as [Hf Hst].
    destruct (main_loop _ _ _ _ _ _ _ _) as [[st'|e|] w1]; cbn [fst snd] in *.
    + rewrite (Hst st' eq_refl). cbn [failed_reply_fetches]. rewrite bind_ret.
      cbn [master_comments_list master_sub_comments_list]. rewrite bind_lift.
      intros _. left.
      destruct (Py.len mc); [exact Hf|]. rewrite bind_lift.
      destruct (Py.len ms); exact Hf.
    + intros _. left. exact Hf.
    + intros H. exfalso. apply H. reflexivity.
Qed.

(** Steps 8 to 10 of a second run, over the videos that left no comment
    behind. *)
Lemma extract_second vs L A B w :
  ending verdict_on vs <> Diverge ->
  (forall u, In u vs -> Py.str_in_set (create_video_link (vid u)) L = true ->
     is_stop (verdict_on u) = false) ->
  (forall u cs subs ds, In u (reached verdict_on vs) ->
     verdict_on u = VMerge cs subs ds -> cs <> [] ->
     Py.str_in_set (create_video_link (vid u)) L = true) ->
  files w !! cp = Some (JsonText (JList A)) ->
  files w !! sp = Some (JsonText (JList B)) ->
  fst (extract youtube uniform01 fuel channel_id (worklist vs L) (JList A) (JList B) w)
  <> Diverge
  /\ files (snd (extract youtube uniform01 fuel channel_id (worklist vs L)
                   (JList A) (JList B) w)) = files w.
Proof.
  intros Hend Hstop Hmerged Hc Hs.
  destruct (second_loop_quiet youtube uniform01 steady jitter_range fuel cp sp L vs Hend Hstop Hmerged
              A B w Hc Hs) as [Hf Ho].
  unfold extract. rewrite bind_eq. fold (lists A B []).
  destruct (main_loop _ _ _ _ _ _ _ _) as [o w1]. cbn [fst snd] in Hf, Ho.
  destruct Ho as [->|[e ->]].
  - simpl. split; [discriminate|exact Hf].
  - simpl. split; [discriminate|exact Hf].
Qed.

End Extract.

(** ** Loading what a run saved *)

Lemma str_in_set_app s l1 l2 :
  Py.str_in_set s (l1 ++ l2) = Py.str_in_set s l1 || Py.str_in_set s l2.
Proof. unfold Py.str_in_set. apply existsb_app. Qed.

Lemma video_links_linked m :
  Forall (fun c => exists l, has_link l c) m ->
  exists Lm,
    video_links m = inr Lm
    /\ forall s, Py.str_in_set s Lm = true <-> exists c, In c m /\ has_link s c.
Proof.
  induction m as [|c m IH]; intros Hall.
  { exists []. split; [reflexivity|]. intros s. simpl. split; [discriminate|].
    intros (c & [] & _). }
  apply Forall_cons in Hall as [[l Hl] Hm].
  destruct (IH Hm) as (Lm & HLm & Hin).
  exists (JStr l :: Lm). split.
  - simpl. unfold has_link in Hl. rewrite Hl. simpl. rewrite HLm. reflexivity.
  - intros s. simpl. rewrite orb_true_iff, Hin. split.
    + intros [Heq|(c' & Hc' & Hs)].
      * apply String.eqb_eq in Heq. subst l. eauto.
      * eauto.
    + intros (c' & [<-|Hc'] & Hs).
      * left. rewrite (has_link_inj _ _ _ Hs Hl). apply String.eqb_refl.
      * eauto.
Qed.

Lemma video_links_app a : forall S m Lm,
  video_links a = inr S -> video_links m = inr Lm ->
  video_links (a ++ m) = inr (S ++ Lm).
Proof.
  induction a as [|c a IH]; intros S m Lm Ha Hm; simpl in *.
  { injection Ha as <-. exact Hm. }
  destruct (Py.getitem c "videoLink") as [e|v]; [discriminate|].
  destruct (Py.hashable v); [|discriminate].
  destruct (video_links a) as [e|vs] eqn:Hvs; [discriminate|].
  injection Ha as <-. rewrite (IH vs m Lm eq_refl Hm). reflexivity.
Qed.

Lemma load_state_of_list p A L w :
  files w !! p = Some (JsonText (JList A)) -> video_links A = inr L ->
  load_state p w = (Ret (L, JList A), w).
Proof.
  intros Hf HL. unfold load_state. rewrite Hf. unfold load_state_try. simpl.
  rewrite HL. reflexivity.
Qed.

Lemma load_state_to_list p w S0 a0 w' :
  load_state p w = (Ret (S0, JList a0), w') -> video_links a0 = inr S0.
Proof.
  unfold load_state. destruct (files w !! p) as [c|].
  - unfold load_state_try. destruct (json_loads c) as [e|j]; simpl.
    + destruct e; try discriminate; intros [= <- <- _]; reflexivity.
    + destruct (Py.iter j) as [e|comments] eqn:Hiter; simpl.
      * destruct e; try discriminate; intros [= <- <- _]; reflexivity.
      * destruct (video_links comments) as [e|S] eqn:Hvl.
        -- destruct e; try discriminate; intros [= <- <- _]; reflexivity.
        -- intros [= <- -> _]. simpl in Hiter. injection Hiter as <-. exact Hvl.
  - intros [= <- <- _]. reflexivity.
Qed.

Lemma load_sub_comments_of_json p j w :
  files w !! p = Some (JsonText j) -> load_sub_comments p w = (Ret j, w).
Proof. intros Hf. unfold load_sub_comments. rewrite Hf. reflexivity. Qed.

Lemma worklist_In all S u :
  In u (worklist all S) <->
  In u all /\ Py.str_in_set (create_video_link (vid u)) S = false.
Proof. unfold worklist. rewrite filter_In, negb_true_iff. reflexivity. Qed.

Lemma worklist_again all S Lm :
  worklist all (S ++ Lm) = worklist (worklist all S) (S ++ Lm).
Proof.
  unfold worklist. induction all as [|v all IH]; [reflexivity|].
  cbn [List.filter]. rewrite str_in_set_app.
  destruct (Py.str_in_set _ S) eqn:HS; cbn [negb orb List.filter].
  - exact IH.
  - rewrite str_in_set_app, HS. cbn [orb].
    destruct (Py.str_in_set _ Lm); cbn [negb]; rewrite IH; reflexivity.
Qed.

Section Merged.

Variable verdict_on : video_ref -> verdict.

Lemma reached_In vs u : In u (reached verdict_on vs) -> In u vs.
Proof.
  induction vs as [|v vs IH]; simpl; [tauto|].
  intros [->|Hin]; [left; reflexivity|right].
  destruct (verdict_on v); try contradiction; apply IH; exact Hin.
Qed.

Lemma merged_from vs c :
  In c (fst (fst (merged verdict_on vs))) ->
  exists u cs subs ds,
    In u (reached verdict_on vs) /\ verdict_on u = VMerge cs subs ds /\ In c cs.
Proof.
  induction vs as [|v vs IH]; simpl; [tauto|].
  destruct (verdict_on v) as [cs subs ds| | |e|] eqn:Hv; simpl; try tauto.
  - rewrite in_app_iff. intros [Hc|Hc].
    + exists v, cs, subs, ds. auto.
    + destruct (IH Hc) as (u & cs' & subs' & ds' & Hin & Hu & Hcs).
      exists u, cs', subs', ds'. auto.
  - intros Hc. destruct (IH Hc) as (u & cs' & subs' & ds' & Hin & Hu & Hcs).
    exists u, cs', subs', ds'. auto.
Qed.

Lemma merged_to vs u cs subs ds c :
  In u (reached verdict_on vs) -> verdict_on u = VMerge cs subs ds -> In c cs ->
  In c (fst (fst (merged verdict_on vs))).
Proof.
  induction vs as [|v vs IH]; simpl; [tauto|].
  intros [->|Hin] Hu Hc.
  - rewrite Hu. simpl. apply in_app_iff. left. exact Hc.
  - destruct (verdict_on v) as [cs' subs' ds'| | |e|]; simpl; try contradiction.
    + apply in_app_iff. right. apply IH; assumption.
    + apply IH; assumption.
Qed.

End Merged.

(** ** Two runs in a row *)

Section TwoRuns.

Variable youtube : service.
Variable uniform01 : nat -> Q.
Variable urlparse : string -> exn + parsed_url.
Hypothesis steady : time_invariant youtube.
Hypothesis jitter_range : forall k, (0 <= uniform01 k)%Q /\ (uniform01 k < 1)%Q.
Variable fuel : nat.

Abbreviation verdict_on := (verdict_of youtube uniform01 fuel).
Abbreviation run := (run_channel youtube uniform01 fuel).

(** Steps 3 to 10 of a second run, on the files a first run left when
    it saved lists. *)
Lemma run_channel_second channel_id S0 a0 b0 pl all w2 :
  video_links a0 = inr S0 ->
  (forall w0, fst (get_uploads_playlist_id youtube uniform01 channel_id w0) = Ret pl) ->
  (forall w0, fst (get_all_video_ids_and_titles youtube uniform01 fuel pl w0) = Ret all) ->
  ending verdict_on (worklist all S0) <> Diverge ->
  files w2 !! comments_path channel_id
  = Some (JsonText (JList (a0 ++ fst (fst (merged verdict_on (worklist all S0)))))) ->
  files w2 !! sub_comments_path channel_id
  = Some (JsonText (JList (b0 ++ snd (fst (merged verdict_on (worklist all S0)))))) ->
  fst (run channel_id w2) <> Diverge
  /\ files (snd (run channel_id w2)) = files w2.
Proof.
  intros Ha0 Hpl Hall Hend Hc Hs.
  set (vs1 := worklist all S0) in *.
  set (m1 := fst (fst (merged verdict_on vs1))) in *.
  set (m2 := snd (fst (merged verdict_on vs1))) in *.
  assert (Hlinked : Forall (fun c => exists l, has_link l c) m1).
  { apply Forall_forall. intros c Hin. apply list_elem_of_In in Hin.
    apply merged_from in Hin as (u & cs & subs & ds & Hu & Hv & Hcs).
    exists (create_video_link (vid u)).
    pose proof (verdict_merge_links youtube uniform01 fuel u cs subs ds Hv) as HF.
    rewrite Forall_forall in HF. apply HF, list_elem_of_In, Hcs. }
  destruct (video_links_linked m1 Hlinked) as (Lm & HLm & HinLm).
  pose proof (video_links_app a0 S0 m1 Lm Ha0 HLm) as HL.
  set (L := S0 ++ Lm) in *.
  assert (Hstop : forall u, In u vs1 ->
            Py.str_in_set (create_video_link (vid u)) L = true ->
            is_stop (verdict_on u) = false).
  { intros u Hu. unfold L. rewrite str_in_set_app.
    apply worklist_In in Hu as [_ HS0]. rewrite HS0. cbn [orb]. intros HLmu.
    apply HinLm in HLmu as (c & Hcm & Hcl).
    apply merged_from in Hcm as (u' & cs & subs & ds & Hu' & Hv & Hcs).
    pose proof (verdict_merge_links youtube uniform01 fuel u' cs subs ds Hv) as HF.
    rewrite Forall_forall in HF. specialize (HF c (proj2 (list_elem_of_In _ _) Hcs)).
    pose proof (has_link_inj _ _ _ Hcl HF) as Hlink.
    apply create_video_link_inj in Hlink.
    exact (verdict_same_id youtube uniform01 fuel u' u cs subs ds (eq_sym Hlink) Hv). }
  assert (Hmerged : forall u cs subs ds, In u (reached verdict_on vs1) ->
            verdict_on u = VMerge cs subs ds -> cs <> [] ->
            Py.str_in_set (create_video_link (vid u)) L = true).
  { intros u cs subs ds Hu Hv Hne. unfold L. rewrite str_in_set_app.
    apply orb_true_iff. right. apply HinLm.
    destruct cs as [|c cs]; [contradiction|]. exists c. split.
    - apply (merged_to verdict_on vs1 u (c :: cs) subs ds c Hu Hv). left. reflexivity.
    - pose proof (verdict_merge_links youtube uniform01 fuel u (c :: cs) subs ds Hv) as HF.
      apply Forall_cons in HF as [HF _]. exact HF. }
  unfold run_channel. rewrite bind_eq, (load_state_of_list _ _ _ _ Hc HL). cbn [fst snd].
  rewrite bind_eq, (load_sub_comments_of_json _ _ _ Hs). rewrite bind_eq.
  assert (Hann : exists wA,
            (match L with
             | [] => say MsgStartingFresh
             | _ :: _ =>
                 let* n := lift (Py.len (JList (a0 ++ m1))) in
                 let* m := lift (Py.len (JList (b0 ++ m2))) in
                 say (MsgResuming n m)
             end) w2 = (Ret tt, wA) /\ files wA = files w2).
  { destruct L; eexists; (split; [reflexivity|reflexivity]). }
  destruct Hann as (wA & -> & HfA).
  pose proof (Hpl wA) as Hpl'.
  pose proof (tame_get_uploads_playlist_id youtube uniform01 channel_id wA) as HfU.
  destruct (get_uploads_playlist_id youtube uniform01 channel_id wA) as [oU wU].
  cbn [fst snd] in Hpl', HfU. subst oU.
  pose proof (Hall (print (MsgFoundPlaylist pl) wU)) as Hall'.
  pose proof (tame_get_all_video_ids_and_titles youtube uniform01 fuel pl
                (print (MsgFoundPlaylist pl) wU)) as HfV.
  destruct (get_all_video_ids_and_titles youtube uniform01 fuel pl _) as [oV wV].
  cbn [fst snd] in Hall', HfV. subst oV.
  assert (HfV' : files wV = files w2) by (rewrite HfV; simpl; congruence).
  replace (worklist all L) with (worklist vs1 L)
    by (symmetry; apply worklist_again).
  destruct (worklist vs1 L) as [|v rest] eqn:Hwl.
  { simpl. split; [discriminate|exact HfV']. }
  rewrite <- Hwl.
  match goal with
  | |- context [extract youtube uniform01 fuel channel_id (worklist vs1 L) _ _ ?w] =>
      destruct (extract_second youtube uniform01 steady jitter_range fuel channel_id vs1 L
                  (a0 ++ m1) (b0 ++ m2) w Hend Hstop Hmerged) as [Hnd Hfe];
        [simpl; rewrite HfV'; exact Hc|simpl; rewrite HfV'; exact Hs|]
  end.
  split; [exact Hnd|]. rewrite Hfe. simpl. exact HfV'.
Qed.

(** Steps 3 to 10 of a first run: either they leave the files as they
    were, or a second run on the files they leave changes nothing. *)
Lemma run_channel_again channel_id w :
  fst (run channel_id w) <> Diverge ->
  files (snd (run channel_id w)) = files w
  \/ forall w2, files w2 = files (snd (run channel_id w)) ->
       fst (run channel_id w2) <> Diverge
       /\ files (snd (run channel_id w2)) = files w2.
Proof.
  destruct (run channel_id w) as [o1 w1] eqn:Hrun. cbn [fst snd]. intros Hnd.
  unfold run_channel in Hrun. rewrite bind_eq in Hrun.
  pose proof (tame_load_state (comments_path channel_id) w) as Hfa.
  destruct (load_state (comments_path channel_id) w) as [[[S0 mc0]|e|] wa] eqn:Hls;
    cbn [fst snd] in Hrun, Hfa;
    [|injection Hrun as <- <-; left; exact Hfa
     |injection Hrun as <- <-; left; exact Hfa].
  rewrite bind_eq in Hrun.
  pose proof (tame_load_sub_comments (sub_comments_path channel_id) wa) as Hfb.
  destruct (load_sub_comments (sub_comments_path channel_id) wa) as [[ms0|e|] wb];
    cbn [fst snd] in Hrun, Hfb;
    [|injection Hrun as <- <-; left; congruence
     |injection Hrun as <- <-; left; congruence].
  rewrite bind_eq in Hrun.
  match type of Hrun with
  | match ?announce wb with _ => _ end = _ =>
      assert (HfA : files (snd (announce wb)) = files wb);
        [|destruct (announce wb) as [[[]|e|] wA]; cbn [fst snd] in Hrun, HfA;
          [|injection Hrun as <- <-; left; congruence
           |injection Hrun as <- <-; left; congruence]]
  end.
  { destruct S0; [reflexivity|]. rewrite bind_lift.
    destruct (Py.len mc0); [reflexivity|]. rewrite bind_lift.
    destruct (Py.len ms0); reflexivity. }
  pose proof (tame_get_uploads_playlist_id youtube uniform01 channel_id wA) as HfU.
  pose proof (blind_get_uploads_playlist_id youtube uniform01 steady jitter_range channel_id wA) as HbU.
  destruct (get_uploads_playlist_id youtube uniform01 channel_id wA) as [[pl|e|] wU];
    cbn [fst snd] in Hrun, HfU, HbU.
  2:{ destruct (is_ValueError e); injection Hrun as <- <-; left; simpl; congruence. }
  2:{ injection Hrun as <- <-. contradiction. }
  pose proof (tame_get_all_video_ids_and_titles youtube uniform01 fuel pl
                (print (MsgFoundPlaylist pl) wU)) as HfV.
  pose proof (blind_get_all_video_ids_and_titles youtube uniform01 steady jitter_range fuel pl
                (print (MsgFoundPlaylist pl) wU)) as HbV.
  destruct (get_all_video_ids_and_titles youtube uniform01 fuel pl _) as [[all|e|] wV];
    cbn [fst snd] in Hrun, HfV, HbV.
  2:{ injection Hrun as <- <-. left. simpl in *. congruence. }
  2:{ injection Hrun as <- <-. contradiction. }
  assert (HfV' : files wV = files w) by (simpl in HfV; congruence).
  destruct (worklist all S0) as [|v rest] eqn:Hwl.
  { injection Hrun as <- <-. left. exact HfV'. }
  rewrite <- Hwl in Hrun.
  match type of Hrun with
  | extract _ _ _ _ _ _ _ ?wP = _ =>
      pose proof (extract_first youtube uniform01 steady jitter_range fuel channel_id
                    (worklist all S0) mc0 ms0 wP) as Hx
  end.
  rewrite Hrun in Hx. cbn [fst snd] in Hx.
  destruct (Hx Hnd) as [Hsame|(a0 & b0 & -> & -> & Hend & Hc & Hs)].
  { left. rewrite Hsame. simpl. exact HfV'. }
  right. intros w2 Hw2.
  apply (run_channel_second channel_id S0 a0 b0 pl all w2).
  - exact (load_state_to_list _ _ _ _ _ Hls).
  - intros w0. symmetry. apply HbU.
  - intros w0. symmetry. apply HbV.
  - exact Hend.
  - rewrite Hw2. exact Hc.
  - rewrite Hw2. exact Hs.
Qed.

(** A second run on the files a first run left comes to an end and
    leaves every file as it found it. *)
Lemma second_run_keeps_files url fs status w1 :
  main youtube uniform01 urlparse fuel url (start fs) = (Some status, w1) ->
  exists status' w2,
    main youtube uniform01 urlparse fuel url (start (files w1)) = (Some status', w2)
    /\ files w2 = files w1.
Proof.
  intros Hmain.
  assert (Hshort : files w1 = fs ->
            exists status' w2,
              main youtube uniform01 urlparse fuel url (start (files w1))
              = (Some status', w2) /\ files w2 = files w1).
  { intros Hfs. rewrite Hfs. exists status, w1. split; [exact Hmain|exact Hfs]. }
  unfold main in Hmain.
  destruct (main_try youtube uniform01 urlparse fuel url (start fs)) as [o wM] eqn:Hmt.
  assert (Hw1 : files w1 = files wM /\ o <> Diverge).
  { destruct o as [s|e|]; [injection Hmain as _ <-|injection Hmain as _ <-|discriminate];
      split; try reflexivity; discriminate. }
  destruct Hw1 as [Hw1 Hnd]. clear Hmain.
  unfold main_try in Hmt.
  pose proof (tame_resolve youtube uniform01 urlparse url (start fs)) as HfR.
  pose proof (blind_resolve youtube uniform01 urlparse steady jitter_range url (start fs)
                (start (files w1))) as HbR.
  destruct (get_channel_id_from_url youtube uniform01 urlparse url (start fs))
    as [[channel_id|e|] wR] eqn:HR; cbn [fst snd] in HfR, HbR, Hmt.
  + pose proof (run_channel_again channel_id (print (MsgProcessingChannel channel_id) wR))
      as Hagain.
    rewrite Hmt in Hagain. cbn [fst snd] in Hagain.
    destruct (Hagain Hnd) as [Hsame|Hsecond].
    { apply Hshort. rewrite Hw1, Hsame. exact HfR. }
    unfold main, main_try.
    pose proof (tame_resolve youtube uniform01 urlparse url (start (files w1))) as HfR2.
    destruct (get_channel_id_from_url youtube uniform01 urlparse url (start (files w1)))
      as [o2 wR2]. cbn [fst snd] in HbR, HfR2. subst o2.
    destruct (Hsecond (print (MsgProcessingChannel channel_id) wR2)) as [Hnd2 Hf2].
    { simpl. rewrite HfR2. simpl. exact Hw1. }
    destruct (run_channel youtube uniform01 fuel channel_id
                (print (MsgProcessingChannel channel_id) wR2)) as [[s|e|] w2];
      cbn [fst snd] in Hnd2, Hf2.
    * exists s, w2. split; [reflexivity|]. rewrite Hf2. simpl. exact HfR2.
    * eexists _, _. split; [reflexivity|]. simpl. rewrite Hf2. simpl. exact HfR2.
    * contradiction.
  + apply Hshort. rewrite Hw1.
    destruct (is_ValueError e); injection Hmt as _ <-; exact HfR.
  + injection Hmt as <- _. contradiction.
Qed.

End TwoRuns.

(** ** Two runs at work *)

Lemma demo_steady : time_invariant demo.
Proof. repeat split; intros; reflexivity. Qed.

Lemma silent_steady : time_invariant silent.
Proof. repeat split; intros; reflexivity. Qed.


(** * Further properties *)

(** ** Reading the reason of an HTTP error *)





(** ** What the reply fetcher lets out *)

Section ReplyFetcher.

Variable youtube : service.
Variable uniform01 : nat -> Q.


End ReplyFetcher.


(** ** One call through the gateway *)

Section OneCall.

Variable youtube : service.
Variable uniform01 : nat -> Q.
Variable urlparse : string -> exn + parsed_url.

(** Every attempt of a call logs the same request. *)
Lemma retry_from_calls {A} r (answer : nat -> exn + A) op max_retries n :
  forall attempt w,
    exists k,
      (k <= n)%nat /\ ((1 <= n)%nat -> (1 <= k)%nat)
      /\ calls (snd (retry_from uniform01 (execute r answer) op max_retries n attempt w))
         = calls w ++ replicate k r.
Proof.
  induction n as [|n IH]; intros attempt w.
  { exists 0%nat. simpl. rewrite app_nil_r. split; [lia|]. split; [lia|reflexivity]. }
  cbn [retry_from]. unfold execute at 1. cbn beta.
  assert (Hone : forall (o : outcome (option A)) w1,
            calls w1 = calls w ++ [r] ->
            exists k, (k <= S n)%nat /\ ((1 <= S n)%nat -> (1 <= k)%nat)
                      /\ calls (snd (o, w1)) = calls w ++ replicate k r).
  { intros o w1 Hw1. exists 1%nat. simpl. split; [lia|]. split; [lia|exact Hw1]. }
  destruct (answer (length (calls w))) as [e|a].
  - destruct e; try (apply Hone; reflexivity).
    destruct (retryable status); [|apply Hone; reflexivity].
    destruct (_ <? _); [|apply Hone; reflexivity].
    destruct (wait_time attempt _) as [overflow|t]; [apply Hone; reflexivity|].
    destruct (sleep_too_long t); [apply Hone; reflexivity|].
    match goal with
    | |- context [retry_from _ _ _ _ n (S attempt) ?w2] =>
        destruct (IH (S attempt) w2) as (k & Hk & _ & Hcalls)
    end.
    exists (S k). split; [lia|]. split; [lia|].
    rewrite Hcalls. simpl. rewrite <- app_assoc. reflexivity.
  - destruct (op_truthy op); apply Hone; reflexivity.
Qed.

Lemma call_calls {A} r (answer : nat -> exn + A) op w :
  exists k,
    (1 <= k <= 3)%nat
    /\ calls (snd (call uniform01 r answer op w)) = calls w ++ replicate k r.
Proof.
  unfold call, api_call_with_retry. rewrite bind_eq.
  destruct (retry_from_calls r answer (Some op) retry_attempts retry_attempts 0%nat w)
    as (k & Hk & Hk1 & Hcalls).
  exists k. split; [unfold retry_attempts in *; lia|].
  destruct (retry_from _ _ _ _ _ _ _) as [[[a|]|e|] w1]; exact Hcalls.
Qed.

(** A call that is answered at once. *)
Lemma call_success {A} r (answer : nat -> exn + A) op w a :
  answer (length (calls w)) = inr a -> op <> "" ->
  call uniform01 r answer op w
  = (Ret a, set_quota (quota_used w + cost_of op) (log_call r w)).
Proof.
  intros Ha Hop. unfold call, api_call_with_retry. rewrite bind_eq.
  unfold retry_attempts. cbn [retry_from]. unfold execute. rewrite Ha.
  unfold op_truthy. destruct (String.eqb_spec op ""); [contradiction|]. reflexivity.
Qed.

(** One iteration of the loop around [.execute()]. *)
Lemma retry_from_execute {A} r (answer : nat -> exn + A) op max_retries n attempt w :
  retry_from uniform01 (execute r answer) op max_retries (S n) attempt w
  = match answer (length (calls w)) with
    | inr a =>
        (Ret (Some a),
         match op_truthy op with
         | Some o => snd (track_quota o (log_call r w))
         | None => log_call r w
         end)
    | inl e =>
        if is_retryable_error e then
          if Z.of_nat attempt <? Z.of_nat max_retries - 1 then
            match wait_time attempt (uniform01 (length (sleeps w))) with
            | inl overflow => (Raise overflow, log_call r w)
            | inr t =>
                if sleep_too_long t then
                  (Raise (OverflowError "timestamp too large to convert to C _PyTime_t"),
                   print (MsgRetrying t (attempt + 1) max_retries) (log_call r w))
                else
                  retry_from uniform01 (execute r answer) op max_retries n (S attempt)
                    (sleep t (print (MsgRetrying t (attempt + 1) max_retries)
                                (log_call r w)))
            end
          else (Raise e, print (MsgMaxRetries max_retries) (log_call r w))
        else (Raise e, log_call r w)
    end.
Proof.
  cbn [retry_from]. unfold execute.
  destruct (answer (length (calls w))) as [e|a].
  - destruct e; reflexivity.
  - destruct (op_truthy op); reflexivity.
Qed.

(** The attempts of one call through the gateway: the same request
    one to three times, every attempt but the last unanswered, and
    the cost charged exactly when the last one is answered. *)
Lemma retry_from_log {A} r (answer : nat -> exn + A) op max_retries n :
  forall attempt w,
    (1 <= n)%nat ->
    let res := retry_from uniform01 (execute r answer) (Some op) max_retries n attempt w in
    exists k,
      (1 <= k <= n)%nat
      /\ calls (snd res) = calls w ++ replicate k r
      /\ (forall i, (i < k - 1)%nat -> is_ok (answer (length (calls w) + i)%nat) = false)
      /\ match answer (length (calls w) + (k - 1))%nat with
         | inr a =>
             fst res = Ret (Some a)
             /\ quota_used (snd res) = quota_used w + charge (Some op)
         | inl _ =>
             (forall a, fst res <> Ret (Some a))
             /\ quota_used (snd res) = quota_used w
         end.
Proof.
  induction n as [|n IH]; intros attempt w Hn; [lia|]. cbv zeta.
  rewrite retry_from_execute.
  assert (Hone : forall (o : outcome (option A)) w1,
            calls w1 = calls w ++ [r] ->
            match answer (length (calls w)) with
            | inr a => o = Ret (Some a) /\ quota_used w1 = quota_used w + charge (Some op)
            | inl _ => (forall a, o <> Ret (Some a)) /\ quota_used w1 = quota_used w
            end ->
            exists k,
              (1 <= k <= S n)%nat
              /\ calls (snd (o, w1)) = calls w ++ replicate k r
              /\ (forall i, (i < k - 1)%nat ->
                            is_ok (answer (length (calls w) + i)%nat) = false)
              /\ match answer (length (calls w) + (k - 1))%nat with
                 | inr a =>
                     fst (o, w1) = Ret (Some a)
                     /\ quota_used (snd (o, w1)) = quota_used w + charge (Some op)
                 | inl _ =>
                     (forall a, fst (o, w1) <> Ret (Some a))
                     /\ quota_used (snd (o, w1)) = quota_used w
                 end).
  { intros o w1 Hc Hlast. exists 1%nat. split; [lia|]. split; [exact Hc|].
    split; [intros i Hi; lia|]. simpl. rewrite Nat.add_0_r. exact Hlast. }
  destruct (answer (length (calls w))) as [e|a] eqn:Hanswer.
  - assert (Hraise : forall (o : outcome (option A)) w1,
              (forall a, o <> Ret (Some a)) ->
              calls w1 = calls w ++ [r] -> quota_used w1 = quota_used w ->
              exists k,
                (1 <= k <= S n)%nat
                /\ calls (snd (o, w1)) = calls w ++ replicate k r
                /\ (forall i, (i < k - 1)%nat ->
                              is_ok (answer (length (calls w) + i)%nat) = false)
                /\ match answer (length (calls w) + (k - 1))%nat with
                   | inr a =>
                       fst (o, w1) = Ret (Some a)
                       /\ quota_used (snd (o, w1)) = quota_used w + charge (Some op)
                   | inl _ =>
                       (forall a, fst (o, w1) <> Ret (Some a))
                       /\ quota_used (snd (o, w1)) = quota_used w
                   end).
    { intros o w1 Ho Hc Hq. exists 1%nat. split; [lia|]. split; [exact Hc|].
      split; [intros i Hi; lia|]. simpl. rewrite Nat.add_0_r, Hanswer.
      split; [exact Ho|exact Hq]. }
    destruct (is_retryable_error e); [|apply Hraise; [discriminate|reflexivity..]].
    destruct (_ <? _); [|apply Hraise; [discriminate|reflexivity..]].
    destruct (wait_time attempt _) as [overflow|t];
      [apply Hraise; [discriminate|reflexivity..]|].
    destruct (sleep_too_long t); [apply Hraise; [discriminate|reflexivity..]|].
    destruct n as [|n'].
    + apply Hraise; [discriminate|reflexivity..].
    + set (w2 := sleep t (print (MsgRetrying t (attempt + 1) max_retries) (log_call r w))).
      destruct (IH (S attempt) w2 ltac:(lia)) as (k & Hk & Hcalls & Hearlier & Hlast).
      cbv zeta in Hcalls, Hlast.
      assert (Hlen : length (calls w2) = S (length (calls w))).
      { unfold w2. simpl. rewrite length_app. simpl. lia. }
      exists (S k). split; [lia|]. split; [|split].
      * rewrite Hcalls. unfold w2. simpl. rewrite <- app_assoc. reflexivity.
      * intros [|i] Hi.
        -- rewrite Nat.add_0_r, Hanswer. reflexivity.
        -- replace (length (calls w) + S i)%nat with (length (calls w2) + i)%nat by lia.
           apply Hearlier. lia.
      * replace (length (calls w) + (S k - 1))%nat
          with (length (calls w2) + (k - 1))%nat by lia.
        destruct (answer (length (calls w2) + (k - 1))%nat) as [e'|a].
        -- destruct Hlast as [Hno Hq]. split; [exact Hno|]. rewrite Hq. reflexivity.
        -- destruct Hlast as [Hret Hq]. split; [exact Hret|]. rewrite Hq. reflexivity.
  - exists 1%nat. split; [lia|]. unfold charge, op_truthy.
    split; [destruct (String.eqb op ""); reflexivity|].
    split; [intros i Hi; lia|]. simpl. rewrite Nat.add_0_r, Hanswer.
    destruct (String.eqb op ""); (split; [reflexivity|]); simpl; lia.
Qed.

Lemma call_log {A} r (answer : nat -> exn + A) op w :
  let c := call uniform01 r answer op w in
  exists k,
    (1 <= k <= 3)%nat
    /\ calls (snd c) = calls w ++ replicate k r
    /\ (forall i, (i < k - 1)%nat -> is_ok (answer (length (calls w) + i)%nat) = false)
    /\ match answer (length (calls w) + (k - 1))%nat with
       | inr a => c = (Ret a, snd c) /\ quota_used (snd c) = quota_used w + charge (Some op)
       | inl _ => (exists e, c = (Raise e, snd c)) /\ quota_used (snd c) = quota_used w
       end.
Proof.
  cbv zeta. unfold call, api_call_with_retry. rewrite bind_eq.
  destruct (retry_from_log r answer op retry_attempts retry_attempts 0%nat w
              ltac:(unfold retry_attempts; lia)) as (k & Hk & Hcalls & Hearlier & Hlast).
  pose proof (retry_from_total uniform01 (execute r answer) (Some op) retry_attempts
                (execute_total r answer) retry_attempts 0%nat w) as Hnd.
  cbv zeta in Hcalls, Hlast.
  exists k. split; [unfold retry_attempts in Hk; exact Hk|].
  destruct (retry_from _ _ _ _ _ _ _) as [o w1]. cbn [fst snd] in *.
  destruct (answer (length (calls w) + (k - 1))%nat) as [e|a].
  - destruct Hlast as [Hno Hq].
    destruct o as [[a|]|e'|]; cbn [fst snd]; [exfalso; exact (Hno a eq_refl)| | |congruence];
      (split; [exact Hcalls|]); (split; [exact Hearlier|]); (split; [eauto|exact Hq]).
  - destruct Hlast as [-> Hq]. cbn [fst snd]. auto.
Qed.

(** X3. [get_uploads_playlist_id] sends one [channels.list] request,
    one to three times, every attempt but the last unanswered; it
    writes no file and always ends. When the last attempt is answered
    the unit is charged, whatever follows: the uploads playlist of the
    first item is returned; an answer without items raises
    [ValueError("Channel not found: ...")]; a first item that lacks
    the field raises what reading it raised, as it is when that is a
    [ValueError] and otherwise as an [Exception] whose text starts
    with ["Error retrieving uploads playlist ID: "]. When the last
    attempt fails nothing is charged and the failure comes out in the
    same two ways. *)
Theorem get_uploads_playlist_id_outcomes channel_id w :
  let r := get_uploads_playlist_id youtube uniform01 channel_id w in
  let wrapped := fun e =>
    if is_ValueError e then e
    else OtherError ("Error retrieving uploads playlist ID: " +:+ str_exn e) in
  files (snd r) = files w
  /\ fst r <> Diverge
  /\ exists k,
       (1 <= k <= 3)%nat
       /\ calls (snd r) = calls w ++ replicate k (ChannelsContentDetails channel_id)
       /\ (forall i, (i < k - 1)%nat ->
             is_ok (channels_details_execute youtube (length (calls w) + i)%nat channel_id)
             = false)
       /\ match channels_details_execute youtube (length (calls w) + (k - 1))%nat
                  channel_id with
          | inr response =>
              quota_used (snd r) = quota_used w + 1
              /\ fst r = match items_field response with
                         | Some (inr uploads :: _) => Ret uploads
                         | Some (inl e :: _) => Raise (wrapped e)
                         | _ => Raise (ValueError ("Channel not found: " +:+ channel_id))
                         end
          | inl _ =>
              quota_used (snd r) = quota_used w
              /\ exists e, fst r = Raise (wrapped e)
          end.
Proof.
  cbv zeta. unfold get_uploads_playlist_id.
  pose proof (lookup_effect uniform01 (ChannelsContentDetails channel_id)
                (fun n => channels_details_execute youtube n channel_id) "channels.list"
                ("Channel not found: " +:+ channel_id) w) as [Hf Hq].
  cbv zeta in Hf, Hq.
  destruct (call_log (ChannelsContentDetails channel_id)
              (fun n => channels_details_execute youtube n channel_id) "channels.list" w)
    as (k & Hk & Hcalls & Hearlier & Hlast).
  cbv zeta in Hcalls, Hlast.
  split; [|split].
  - destruct (bind _ _ w) as [[a|e|] w1]; simpl in *; auto.
    destruct (is_ValueError e); exact Hf.
  - destruct (bind _ _ w) as [[a|e|] w1]; simpl in *; [discriminate| |destruct Hq].
    destruct (is_ValueError e); discriminate.
  - exists k. split; [exact Hk|]. clear Hf Hq.
    rewrite bind_eq.
    destruct (call _ _ _ _ _) as [o w1]. cbn [fst snd] in *.
    destruct (channels_details_execute youtube (length (calls w) + (k - 1))%nat channel_id)
      as [e0|response].
    + destruct Hlast as [[e He] Hq]. injection He as ->. cbn [fst snd].
      split; [destruct (is_ValueError e); exact Hcalls|].
      split; [exact Hearlier|].
      split; [destruct (is_ValueError e); exact Hq|].
      exists e. destruct (is_ValueError e); reflexivity.
    + destruct Hlast as [He Hq]. injection He as ->. unfold first_item.
      destruct (items_field response) as [[|[e|uploads] others]|]; cbn;
        try destruct (is_ValueError e); cbn; auto.
Qed.

Abbreviation resolve := (get_channel_id_from_url youtube uniform01 urlparse).

(** X4. A URL of the form [/channel/ID] on a YouTube host resolves to
    [ID] as it stands, whatever follows it in the path, without any
    call and without any charge. *)
Theorem direct_channel_url_costs_nothing url parsed channel_id rest w :
  urlparse url = inr parsed ->
  str_in (netloc parsed) youtube_hosts = true ->
  segments_of parsed = "channel" :: channel_id :: rest ->
  resolve url w = (Ret channel_id, w).
Proof.
  intros Hparse Hhost Hsegs.
  unfold get_channel_id_from_url, get_channel_id_from_url_try.
  rewrite bind_lift, Hparse, Hhost. unfold segments_of in Hsegs. simpl.
  rewrite Hsegs. reflexivity.
Qed.

(** X5. A URL whose first path segment starts with [@] is resolved by a
    search whose query is that segment, [@] included; the search is
    the only request made, at most three times. If the resolution
    returns, the counter has grown by the 100 units of one search,
    however many attempts it took; if it fails, it fails with
    [ValueError]. A search answered at once with at least one channel
    gives the channel id of the first. *)
Theorem handle_resolution_costs_one_search url parsed handle rest w :
  urlparse url = inr parsed ->
  str_in (netloc parsed) youtube_hosts = true ->
  segments_of parsed = handle :: rest ->
  Py.startswith "@" handle = true ->
  let r := resolve url w in
  (exists k, (1 <= k <= 3)%nat
             /\ calls (snd r) = calls w ++ replicate k (SearchList handle))
  /\ match fst r with
     | Ret _ => quota_used (snd r) = quota_used w + 100
     | Raise e => is_ValueError e = true
     | Diverge => False
     end
  /\ (forall channel_id others,
        search_execute youtube (length (calls w)) handle
        = inr {| items_field := Some (inr channel_id :: others) |} ->
        r = (Ret channel_id, set_quota (quota_used w + 100) (log_call (SearchList handle) w))).
Proof.
  intros Hparse Hhost Hsegs Hat. cbv zeta.
  assert (Hq : "@" +:+ Py.tail handle = handle).
  { destruct handle as [|a s]; [discriminate|]. simpl in Hat.
    apply Ascii.eqb_eq in Hat. subst a. reflexivity. }
  assert (Hnc : String.eqb handle "channel" = false).
  { destruct handle as [|a s]; [reflexivity|]. simpl in Hat.
    apply Ascii.eqb_eq in Hat. subst a. reflexivity. }
  assert (Hres : resolve url w
    = match (let* response :=
               call uniform01 (SearchList handle)
                 (fun n => search_execute youtube n handle) "search.list" in
             first_item response
               ("Channel not found for handle: @" +:+ Py.tail handle)) w with
      | (Raise e, w') =>
          if is_ValueError e then (Raise e, w')
          else (Raise (ValueError ("Error parsing URL: " +:+ str_exn e)), w')
      | r => r
      end).
  { unfold get_channel_id_from_url, get_channel_id_from_url_try.
    rewrite bind_lift, Hparse, Hhost. unfold segments_of in Hsegs. simpl.
    rewrite Hsegs, Hnc, Hat, Hq. destruct rest; reflexivity. }
  rewrite Hres. clear Hres.
  pose proof (lookup_effect uniform01 (SearchList handle)
                (fun n => search_execute youtube n handle) "search.list"
                ("Channel not found for handle: @" +:+ Py.tail handle) w) as [_ Hquota].
  cbv zeta in Hquota.
  destruct (call_calls (SearchList handle) (fun n => search_execute youtube n handle)
              "search.list" w) as (k & Hk & Hcalls).
  split; [|split].
  - exists k. split; [exact Hk|].
    rewrite bind_eq in *.
    destruct (call _ _ _ _ _) as [[response|e|] w1]; simpl in *.
    + destruct (first_item_effect response
                  ("Channel not found for handle: @" +:+ Py.tail handle) w1) as [Hw _].
      destruct (first_item _ _ _) as [[a|e|] w2]; simpl in *; subst w2;
        try exact Hcalls.
      destruct (is_ValueError e); exact Hcalls.
    + destruct (is_ValueError e); exact Hcalls.
    + exact Hcalls.
  - destruct (bind _ _ w) as [[a|e|] w1]; simpl in *; auto.
    destruct (is_ValueError e) eqn:He; simpl; [exact He|reflexivity].
  - intros channel_id others Hanswer. rewrite bind_eq.
    rewrite (call_success _ _ _ _ _ Hanswer) by discriminate. reflexivity.
Qed.

End OneCall.


Lemma get_uploads_playlist_id_outcomes_witness :
  let r := get_uploads_playlist_id demo half_jitter "UCx" (start ∅) in
  files (snd r) = files (start ∅) /\ fst r <> Diverge.
Proof.
  exact (conj (proj1 (get_uploads_playlist_id_outcomes demo half_jitter "UCx" (start ∅)))
              (proj1 (proj2 (get_uploads_playlist_id_outcomes demo half_jitter "UCx"
                               (start ∅))))).
Defined.

Lemma direct_channel_url_costs_nothing_witness :
  get_channel_id_from_url demo half_jitter urlparse_simple
    "https://m.youtube.com/channel/UCx/videos?view=0" (start ∅)
  = (Ret "UCx", start ∅).
Proof.
  exact (direct_channel_url_costs_nothing demo half_jitter urlparse_simple
           "https://m.youtube.com/channel/UCx/videos?view=0"
           {| netloc := "m.youtube.com"; path := "/channel/UCx/videos" |}
           "UCx" ["videos"] (start ∅) eq_refl eq_refl eq_refl).
Defined.

Lemma handle_resolution_costs_one_search_witness :
  get_channel_id_from_url demo half_jitter urlparse_simple
    "https://www.youtube.com/@someone" (start ∅)
  = (Ret "UCdemodemodemodemodemo00",
     set_quota (0 + 100) (log_call (SearchList "@someone") (start ∅))).
Proof.
  exact (proj2 (proj2
           (handle_resolution_costs_one_search demo half_jitter urlparse_simple
              "https://www.youtube.com/@someone"
              {| netloc := "www.youtube.com"; path := "/@someone" |}
              "@someone" [] (start ∅) eq_refl eq_refl eq_refl eq_refl))
           "UCdemodemodemodemodemo00" [] eq_refl).
Defined.

(** ** The page loops *)

Lemma after_pages_effect {A} list_request cost (pages : list (page A)) :
  forall token w,
    quota_used (after_pages list_request cost token pages w)
    = quota_used w + cost * Z.of_nat (length pages)
    /\ calls (after_pages list_request cost token pages w)
       = calls w ++ page_requests list_request token pages
    /\ sleeps (after_pages list_request cost token pages w) = sleeps w
    /\ stdout (after_pages list_request cost token pages w) = stdout w
    /\ files (after_pages list_request cost token pages w) = files w.
Proof.
  induction pages as [|p rest IH]; intros token w.
  { simpl. rewrite app_nil_r. repeat split. lia. }
  cbn [after_pages page_requests length].
  destruct (IH (more_pages (nextPageToken p))
              (set_quota (quota_used w + cost) (log_call (list_request token) w)))
    as (Hq & Hc & Hs & Ho & Hf).
  rewrite Hq, Hc, Hs, Ho, Hf. simpl. rewrite <- app_assoc. simpl.
  repeat split. lia.
Qed.

Lemma reply_pointers_app ts1 ts2 :
  reply_pointers (ts1 ++ ts2) = reply_pointers ts1 ++ reply_pointers ts2.
Proof.
  unfold reply_pointers. rewrite List.filter_app, map_app. reflexivity.
Qed.

Lemma all_items_cons {A} (p : page A) rest :
  all_items (p :: rest) = items p ++ all_items rest.
Proof. reflexivity. Qed.

Section PageLoops.

Variable youtube : service.
Variable uniform01 : nat -> Q.

Lemma videos_pages_served playlist_id pages :
  forall fuel token videos w,
    served (fun n t => playlist_items_execute youtube n playlist_id t)
      (length (calls w)) token pages ->
    (length pages <= fuel)%nat ->
    videos_pages youtube uniform01 fuel playlist_id token videos w
    = (Ret (videos ++ all_items pages),
       after_pages (PlaylistItemsList playlist_id) 1 token pages w).
Proof.
  induction pages as [|p rest IH]; intros fuel token videos w Hserved Hfuel;
    [destruct Hserved|].
  destruct fuel as [|fuel]; [simpl in Hfuel; lia|].
  destruct Hserved as [Hanswer Hrest].
  cbn [videos_pages]. rewrite bind_eq.
  rewrite (call_success uniform01 (PlaylistItemsList playlist_id token)
             (fun n => playlist_items_execute youtube n playlist_id token)
             "playlistItems.list" w p Hanswer) by discriminate.
  rewrite all_items_cons, app_assoc. cbn [after_pages].
  destruct rest as [|p' rest'].
  - rewrite Hrest. unfold all_items. simpl. rewrite app_nil_r. reflexivity.
  - destruct Hrest as (t & Ht & Hnext). rewrite Ht.
    apply IH; [|simpl in *; lia].
    simpl. rewrite length_app. simpl. rewrite Nat.add_1_r. exact Hnext.
Qed.

Lemma comment_pages_served video_id video_title video_link pages :
  forall fuel token comments_list threads_with_replies w,
    served (fun n t => comment_threads_execute youtube n video_id t)
      (length (calls w)) token pages ->
    (length pages <= fuel)%nat ->
    comment_pages youtube uniform01 fuel video_id video_title video_link token
      comments_list threads_with_replies w
    = (Ret (comments_list ++ map (comment_obj video_title video_link) (all_items pages),
            threads_with_replies ++ reply_pointers (all_items pages)),
       after_pages (CommentThreadsList video_id) 1 token pages w).
Proof.
  induction pages as [|p rest IH];
    intros fuel token comments_list threads_with_replies w Hserved Hfuel;
    [destruct Hserved|].
  destruct fuel as [|fuel]; [simpl in Hfuel; lia|].
  destruct Hserved as [Hanswer Hrest].
  cbn [comment_pages]. rewrite bind_eq.
  rewrite (call_success uniform01 (CommentThreadsList video_id token)
             (fun n => comment_threads_execute youtube n video_id token)
             "commentThreads.list" w p Hanswer) by discriminate.
  rewrite all_items_cons, map_app, reply_pointers_app, !app_assoc. cbn [after_pages].
  destruct rest as [|p' rest'].
  - rewrite Hrest. unfold all_items. simpl. rewrite !app_nil_r. reflexivity.
  - destruct Hrest as (t & Ht & Hnext). rewrite Ht.
    apply IH; [|simpl in *; lia].
    simpl. rewrite length_app. simpl. rewrite Nat.add_1_r. exact Hnext.
Qed.

Lemma reply_pages_served parent_comment_id video_title video_id pages :
  forall fuel token sub_comments_list w,
    served (fun n t => comments_execute youtube n parent_comment_id t)
      (length (calls w)) token pages ->
    (length pages <= fuel)%nat ->
    reply_pages youtube uniform01 fuel parent_comment_id video_title video_id token
      sub_comments_list w
    = (Ret (sub_comments_list
            ++ map (sub_comment_obj parent_comment_id video_title video_id)
                 (all_items pages)),
       after_pages (CommentsList parent_comment_id) 1 token pages w).
Proof.
  induction pages as [|p rest IH];
    intros fuel token sub_comments_list w Hserved Hfuel; [destruct Hserved|].
  destruct fuel as [|fuel]; [simpl in Hfuel; lia|].
  destruct Hserved as [Hanswer Hrest].
  cbn [reply_pages]. rewrite bind_eq.
  rewrite (call_success uniform01 (CommentsList parent_comment_id token)
             (fun n => comments_execute youtube n parent_comment_id token)
             "comments.list" w p Hanswer) by discriminate.
  rewrite all_items_cons, map_app, !app_assoc. cbn [after_pages].
  destruct rest as [|p' rest'].
  - rewrite Hrest. unfold all_items. simpl. rewrite !app_nil_r. reflexivity.
  - destruct Hrest as (t & Ht & Hnext). rewrite Ht.
    apply IH; [|simpl in *; lia].
    simpl. rewrite length_app. simpl. rewrite Nat.add_1_r. exact Hnext.
Qed.

(** X6. When the playlist serves its pages without a failure,
    [get_all_video_ids_and_titles] returns the videos of all the pages
    in the order served, first page first. It asks for the first page
    without a token and for each later page with the token of the page
    before it, stops at the first page whose token is missing or
    empty, and has then charged one unit a page, without any wait,
    output or file access. *)
Theorem get_all_video_ids_and_titles_returns_all_pages fuel playlist_id pages w :
  served (fun n t => playlist_items_execute youtube n playlist_id t)
    (length (calls w)) None pages ->
  (length pages <= fuel)%nat ->
  let r := get_all_video_ids_and_titles youtube uniform01 fuel playlist_id w in
  fst r = Ret (all_items pages)
  /\ quota_used (snd r) = quota_used w + Z.of_nat (length pages)
  /\ calls (snd r) = calls w ++ page_requests (PlaylistItemsList playlist_id) None pages
  /\ sleeps (snd r) = sleeps w
  /\ stdout (snd r) = stdout w
  /\ files (snd r) = files w.
Proof.
  intros Hserved Hfuel. cbv zeta. unfold get_all_video_ids_and_titles.
  rewrite (videos_pages_served playlist_id pages fuel None [] w Hserved Hfuel).
  destruct (after_pages_effect (PlaylistItemsList playlist_id) 1 pages None w)
    as (Hq & Hc & Hs & Ho & Hf).
  cbn [fst snd]. rewrite Hq, Hc, Hs, Ho, Hf. repeat split. lia.
Qed.

(** X7. When the comment threads of a video are served without a
    failure, [fetch_video_comments] returns one comment record for
    every thread of every page, in the order served, each built from
    the thread and the title and link passed in, and one pointer
    [(thread id, totalReplyCount)] for exactly the threads whose reply
    count is positive, in the same order. One unit is charged a page. *)
Theorem fetch_video_comments_returns_all_pages
    fuel video_id video_title video_link pages w :
  served (fun n t => comment_threads_execute youtube n video_id t)
    (length (calls w)) None pages ->
  (length pages <= fuel)%nat ->
  let r := fetch_video_comments youtube uniform01 fuel video_id video_title video_link w in
  fst r = Ret (map (comment_obj video_title video_link) (all_items pages),
               map (fun t => (th_id t, th_reply_count t))
                 (List.filter (fun t => 0 <? th_reply_count t) (all_items pages)))
  /\ quota_used (snd r) = quota_used w + Z.of_nat (length pages)
  /\ calls (snd r) = calls w ++ page_requests (CommentThreadsList video_id) None pages
  /\ sleeps (snd r) = sleeps w
  /\ stdout (snd r) = stdout w
  /\ files (snd r) = files w.
Proof.
  intros Hserved Hfuel. cbv zeta. unfold fetch_video_comments.
  rewrite (comment_pages_served video_id video_title video_link pages fuel None [] [] w
             Hserved Hfuel).
  destruct (after_pages_effect (CommentThreadsList video_id) 1 pages None w)
    as (Hq & Hc & Hs & Ho & Hf).
  cbn [fst snd]. rewrite Hq, Hc, Hs, Ho, Hf. repeat split. lia.
Qed.

(** X8. When the replies of a comment are served without a failure,
    [fetch_comment_replies] returns one reply record for every item of
    every page, in the order served, each carrying the parent comment
    id, the video title and the video id passed in. One unit is charged
    a page and nothing is printed. *)
Theorem fetch_comment_replies_returns_all_pages
    fuel parent_comment_id video_title video_id pages w :
  served (fun n t => comments_execute youtube n parent_comment_id t)
    (length (calls w)) None pages ->
  (length pages <= fuel)%nat ->
  let r := fetch_comment_replies youtube uniform01 fuel parent_comment_id
             video_title video_id w in
  fst r = Ret (map (sub_comment_obj parent_comment_id video_title video_id)
                 (all_items pages))
  /\ quota_used (snd r) = quota_used w + Z.of_nat (length pages)
  /\ calls (snd r) = calls w ++ page_requests (CommentsList parent_comment_id) None pages
  /\ sleeps (snd r) = sleeps w
  /\ stdout (snd r) = stdout w
  /\ files (snd r) = files w.
Proof.
  intros Hserved Hfuel. cbv zeta. unfold fetch_comment_replies.
  rewrite (reply_pages_served parent_comment_id video_title video_id pages fuel None [] w
             Hserved Hfuel).
  destruct (after_pages_effect (CommentsList parent_comment_id) 1 pages None w)
    as (Hq & Hc & Hs & Ho & Hf).
  cbn [fst snd]. rewrite Hq, Hc, Hs, Ho, Hf. repeat split. lia.
Qed.

(** X9. The video listing has no bound of its own: as long as every
    page comes with a token that is not empty, the loop asks for the
    next page, one call and one unit a page, and does not return. *)
Theorem listing_without_last_page_never_returns fuel playlist_id :
  (forall n t, exists p t',
      playlist_items_execute youtube n playlist_id t = inr p
      /\ more_pages (nextPageToken p) = Some t') ->
  forall w,
    let r := get_all_video_ids_and_titles youtube uniform01 fuel playlist_id w in
    fst r = Diverge
    /\ length (calls (snd r)) = (length (calls w) + fuel)%nat
    /\ quota_used (snd r) = quota_used w + Z.of_nat fuel.
Proof.
  intros Hmore w. cbv zeta. unfold get_all_video_ids_and_titles.
  assert (H : forall fuel token videos w,
             let r := videos_pages youtube uniform01 fuel playlist_id token videos w in
             fst r = Diverge
             /\ length (calls (snd r)) = (length (calls w) + fuel)%nat
             /\ quota_used (snd r) = quota_used w + Z.of_nat fuel).
  { clear fuel w. induction fuel as [|fuel IH]; intros token videos w; cbv zeta.
    { simpl. repeat split; lia. }
    destruct (Hmore (length (calls w)) token) as (p & t' & Hanswer & Ht').
    cbn [videos_pages]. rewrite bind_eq.
    rewrite (call_success uniform01 (PlaylistItemsList playlist_id token)
               (fun n => playlist_items_execute youtube n playlist_id token)
               "playlistItems.list" w p Hanswer) by discriminate.
    rewrite Ht'.
    destruct (IH (Some t') (videos ++ items p)
                (set_quota (quota_used w + cost_of "playlistItems.list")
                   (log_call (PlaylistItemsList playlist_id token) w)))
      as (Hd & Hc & Hq).
    split; [exact Hd|]. rewrite Hc, Hq. simpl. rewrite length_app. simpl.
    change (cost_of "playlistItems.list") with 1. split; lia. }
  destruct (H fuel None [] w) as (Hd & Hc & Hq).
  destruct (videos_pages _ _ _ _ _ _ _) as [[a|e|] w1]; simpl in *;
    try discriminate. auto.
Qed.

End PageLoops.

Lemma get_all_video_ids_and_titles_returns_all_pages_witness :
  fst (get_all_video_ids_and_titles paged half_jitter 5 "UUpaged" (start ∅))
  = Ret [ {| vid := "a"; vtitle := "A" |}; {| vid := "b"; vtitle := "B" |};
          {| vid := "c"; vtitle := "C" |} ].
Proof.
  refine (proj1 (get_all_video_ids_and_titles_returns_all_pages paged half_jitter 5
            "UUpaged"
            [ {| items := [ {| vid := "a"; vtitle := "A" |}; {| vid := "b"; vtitle := "B" |} ];
                 nextPageToken := Some "p2" |};
              {| items := [ {| vid := "c"; vtitle := "C" |} ]; nextPageToken := Some "" |} ]
            (start ∅) _ _)).
  - simpl. split; [reflexivity|]. exists "p2". split; [reflexivity|]. split; reflexivity.
  - simpl. lia.
Defined.

Lemma fetch_video_comments_returns_all_pages_witness :
  fst (fetch_video_comments paged half_jitter 5 "a" "A" (create_video_link "a") (start ∅))
  = Ret (map (comment_obj "A" (create_video_link "a"))
           [demo_thread "ca1" "one" 2; demo_thread "ca2" "two" 0;
            demo_thread "ca3" "three" 1],
         [("ca1", 2); ("ca3", 1)]).
Proof.
  refine (proj1 (fetch_video_comments_returns_all_pages paged half_jitter 5
            "a" "A" (create_video_link "a")
            [ {| items := [demo_thread "ca1" "one" 2; demo_thread "ca2" "two" 0];
                 nextPageToken := Some "t2" |};
              {| items := [demo_thread "ca3" "three" 1]; nextPageToken := None |} ]
            (start ∅) _ _)).
  - simpl. split; [reflexivity|]. exists "t2". split; [reflexivity|]. split; reflexivity.
  - simpl. lia.
Defined.

Lemma fetch_comment_replies_returns_all_pages_witness :
  fst (fetch_comment_replies paged half_jitter 5 "ca1" "A" "a" (start ∅))
  = Ret (map (sub_comment_obj "ca1" "A" "a") [demo_reply "ra"; demo_reply "rb"]).
Proof.
  refine (proj1 (fetch_comment_replies_returns_all_pages paged half_jitter 5
            "ca1" "A" "a"
            [ {| items := [demo_reply "ra"]; nextPageToken := Some "r2" |};
              {| items := [demo_reply "rb"]; nextPageToken := None |} ]
            (start ∅) _ _)).
  - simpl. split; [reflexivity|]. exists "r2". split; [reflexivity|]. split; reflexivity.
  - simpl. lia.
Defined.

Lemma listing_without_last_page_never_returns_witness :
  fst (get_all_video_ids_and_titles endless half_jitter 7 "UUendless" (start ∅)) = Diverge.
Proof.
  refine (proj1 (listing_without_last_page_never_returns endless half_jitter 7
                   "UUendless" _ (start ∅))).
  intros n t. eexists. exists "next". split; reflexivity.
Defined.

(** ** The records the fetchers build *)

Section Records.

Variable youtube : service.
Variable uniform01 : nat -> Q.

Lemma comment_pages_records fuel video_id video_title video_link :
  forall token cl tw w cs ptrs w',
    comment_pages youtube uniform01 fuel video_id video_title video_link token cl tw w
    = (Ret (cs, ptrs), w') ->
    exists threads,
      cs = cl ++ map (comment_obj video_title video_link) threads
      /\ ptrs = tw ++ reply_pointers threads.
Proof.
  induction fuel as [|fuel IH]; intros token cl tw w cs ptrs w'; simpl;
    [discriminate|].
  rewrite bind_eq.
  destruct (call _ _ _ _ _) as [[response|e|] w1]; try discriminate.
  destruct (more_pages _).
  - intros Hloop. apply IH in Hloop as (threads & -> & ->).
    exists (items response ++ threads).
    rewrite map_app, reply_pointers_app, !app_assoc. split; reflexivity.
  - intros [= <- <- _]. exists (items response). split; reflexivity.
Qed.

Lemma reply_pages_records fuel parent_comment_id video_title video_id :
  forall token sl w replies w',
    reply_pages youtube uniform01 fuel parent_comment_id video_title video_id token sl w
    = (Ret replies, w') ->
    exists replied,
      replies = sl ++ map (sub_comment_obj parent_comment_id video_title video_id) replied.
Proof.
  induction fuel as [|fuel IH]; intros token sl w replies w'; simpl; [discriminate|].
  rewrite bind_eq.
  destruct (call _ _ _ _ _) as [[response|e|] w1]; try discriminate.
  destruct (more_pages _).
  - intros Hloop. apply IH in Hloop as (replied & ->).
    exists (items response ++ replied). rewrite map_app, !app_assoc. reflexivity.
  - intros [= <- _]. exists (items response). reflexivity.
Qed.

(** X10. Whatever the remote does, what [fetch_video_comments] returns
    is built from one sequence of threads: the comments are the
    records of these threads, in order, and the reply pointers are
    those of the threads with a positive reply count. So every comment
    carries the link and the title passed in, every pointer counts at
    least one reply, and there are no more pointers than comments. A
    failure on a later page discards the pages before it: nothing is
    returned then. *)
Theorem fetch_video_comments_records fuel video_id video_title video_link w :
  match fst (fetch_video_comments youtube uniform01 fuel video_id video_title
               video_link w) with
  | Ret (cs, ptrs) =>
      (exists threads,
          cs = map (comment_obj video_title video_link) threads
          /\ ptrs = reply_pointers threads)
      /\ Forall (has_link video_link) cs
      /\ Forall (has_title video_title) cs
      /\ Forall (fun p => 0 < snd p) ptrs
      /\ (length ptrs <= length cs)%nat
  | _ => True
  end.
Proof.
  unfold fetch_video_comments.
  destruct (comment_pages _ _ _ _ _ _ _ _ _ _) as [[[cs ptrs]|e|] w'] eqn:Hrun;
    cbn [fst]; [|exact I|exact I].
  apply comment_pages_records in Hrun as (threads & -> & ->). simpl.
  split; [exists threads; split; reflexivity|].
  split; [|split; [|split]].
  - apply Forall_forall. intros c Hc.
    apply list_elem_of_In, in_map_iff in Hc as (t & <- & _). reflexivity.
  - apply Forall_forall. intros c Hc.
    apply list_elem_of_In, in_map_iff in Hc as (t & <- & _). reflexivity.
  - apply Forall_forall. intros p Hp. unfold reply_pointers in Hp.
    apply list_elem_of_In, in_map_iff in Hp as (t & <- & Ht).
    apply filter_In in Ht as [_ Ht]. simpl. lia.
  - unfold reply_pointers. rewrite !length_map. apply List.filter_length_le.
Qed.

(** X11. Whatever the remote does, every record [fetch_comment_replies]
    returns is built from a reply item with the parent comment id, the
    video title and the video id passed in: no reply is filed under
    another comment or another video. *)
Theorem fetch_comment_replies_records fuel parent_comment_id video_title video_id w :
  match fst (fetch_comment_replies youtube uniform01 fuel parent_comment_id
               video_title video_id w) with
  | Ret replies =>
      (exists replied,
          replies = map (sub_comment_obj parent_comment_id video_title video_id) replied)
      /\ Forall (fun r =>
                   Py.getitem r "parentCommentId" = inr (JStr parent_comment_id)
                   /\ Py.getitem r "videoTitle" = inr (JStr video_title)
                   /\ Py.getitem r "videoLinkId" = inr (JStr video_id)) replies
  | _ => True
  end.
Proof.
  assert (Hnil : forall (w' : world),
             match fst (@Ret (list json) [], w') with
             | Ret replies =>
                 (exists replied,
                     replies = map (sub_comment_obj parent_comment_id video_title video_id)
                                 replied)
                 /\ Forall (fun r =>
                              Py.getitem r "parentCommentId" = inr (JStr parent_comment_id)
                              /\ Py.getitem r "videoTitle" = inr (JStr video_title)
                              /\ Py.getitem r "videoLinkId" = inr (JStr video_id)) replies
             | _ => True
             end).
  { intros w'. simpl. split; [exists []; reflexivity|constructor]. }
  unfold fetch_comment_replies.
  destruct (reply_pages _ _ _ _ _ _ _ _ _) as [[replies|e|] w'] eqn:Hrun.
  - apply reply_pages_records in Hrun as (replied & ->). simpl.
    split; [exists replied; reflexivity|].
    apply Forall_forall. intros r Hr.
    apply list_elem_of_In, in_map_iff in Hr as (t & <- & _). repeat split.
  - destruct e; try apply Hnil.
    destruct (parse_http_error_reason content); [exact I|].
    destruct (reason_is _ _); [exact I|apply Hnil].
  - exact I.
Qed.

(** X12. [api_call_with_retry] with [max_retries=0] makes no attempt:
    it returns [None] and leaves everything as it was, the thunk
    never being called. With one attempt or more it never returns
    [None]: it returns what the thunk returned, or raises. *)
Theorem api_call_with_retry_returns_None_only_without_attempts
    {A} (api_func : M A) operation_type w :
  api_call_with_retry uniform01 api_func operation_type (Some 0%nat) w = (Ret None, w)
  /\ fst (api_call_with_retry uniform01 api_func operation_type None w) <> Ret None
  /\ forall max_retries,
       (1 <= max_retries)%nat ->
       fst (api_call_with_retry uniform01 api_func operation_type (Some max_retries) w)
       <> Ret None.
Proof.
  split; [reflexivity|]. split.
  - unfold api_call_with_retry. apply retry_from_some; unfold retry_attempts; lia.
  - intros max_retries Hpos. unfold api_call_with_retry.
    apply retry_from_some; lia.
Qed.

End Records.

Lemma api_call_with_retry_returns_None_only_without_attempts_witness :
  fst (api_call_with_retry half_jitter always_limited (Some "search.list") (Some 2%nat)
         (start ∅))
  <> Ret None.
Proof.
  apply (proj2 (proj2 (api_call_with_retry_returns_None_only_without_attempts half_jitter
           always_limited (Some "search.list") (start ∅))) 2%nat).
  lia.
Defined.

(** ** The main loop on any remote *)

Section AnyRemote.

Variable youtube : service.
Variable uniform01 : nat -> Q.
Variable fuel : nat.
Variables comments_file sub_comments_file : string.

Abbreviation one_video := (process_video youtube uniform01 fuel comments_file sub_comments_file).
Abbreviation all_videos := (main_loop youtube uniform01 fuel comments_file sub_comments_file).
Abbreviation link_of u := (create_video_link (vid u)).

(** What the [try] block returns: the records of some threads of the
    video, replies, and the discrepancies so far with new ones behind
    them; without a thread there is neither a reply nor a new
    discrepancy. *)
Lemma video_try_shape u failed w cs subs ds' w' :
  video_try youtube uniform01 fuel u failed w = (Ret (cs, (subs, ds')), w') ->
  files w' = files w
  /\ exists threads ds,
       cs = map (comment_obj (vtitle u) (link_of u)) threads
       /\ ds' = failed ++ ds
       /\ (threads = [] -> subs = [] /\ ds = []).
Proof.
  intros Hrun.
  pose proof (tame_video_try youtube uniform01 fuel u failed w) as Ht.
  rewrite Hrun in Ht. split; [exact Ht|]. clear Ht.
  unfold video_try in Hrun. rewrite bind_eq in Hrun. unfold fetch_video_comments in Hrun.
  destruct (comment_pages _ _ _ _ _ _ _ _ _ _) as [[[cs0 ptrs]|e|] w1] eqn:Hfetch;
    try discriminate.
  apply comment_pages_records in Hfetch as (threads & -> & ->).
  rewrite bind_eq in Hrun. cbn [fst snd app] in Hrun.
  destruct threads as [|t threads].
  - simpl in Hrun. injection Hrun as <- <- <- _.
    exists [], []. rewrite app_nil_r. auto.
  - destruct (replies_loop _ _ _ _ _ _ _) as [[acc|e|] w2] eqn:Hloop; try discriminate.
    apply replies_loop_extends in Hloop as (subs0 & ds & ->).
    injection Hrun as <- <- <- _.
    exists (t :: threads), ds. repeat split. discriminate. discriminate.
Qed.

(** An iteration on masters that are lists either merges and saves, or
    leaves the files and the masters as they were. *)
Lemma process_video_step u a b f w :
  let r := one_video u (lists a b f) w in
  (exists threads subs ds,
      fst r = Ret (Next, lists (a ++ map (comment_obj (vtitle u) (link_of u)) threads)
                          (b ++ subs) (f ++ ds))
      /\ files (snd r)
         = <[sub_comments_file := JsonText (JList (b ++ subs))]>
             (<[comments_file :=
                  JsonText (JList (a ++ map (comment_obj (vtitle u) (link_of u)) threads))]>
                (files w))
      /\ (threads = [] -> subs = [] /\ ds = []))
  \/ (files (snd r) = files w
      /\ match fst r with
         | Ret (_, st) => st = lists a b f
         | _ => True
         end).
Proof.
  cbv zeta. unfold process_video. cbn [failed_reply_fetches lists].
  pose proof (tame_video_try youtube uniform01 fuel u f w) as Ht.
  destruct (video_try _ _ _ _ _ _) as [[[cs [subs ds']]|e|] w1] eqn:Hrun; simpl in Ht.
  - apply video_try_shape in Hrun as (Hf & threads & ds & -> & -> & Hnone).
    left. exists threads, subs, ds.
    unfold merge_and_save, atomic_write_json, lists. simpl. rewrite Hf. auto.
  - right. destruct e; simpl; auto.
    unfold on_http_error. rewrite bind_lift.
    destruct (parse_http_error_reason content) as [e'|reason]; simpl; auto.
    destruct (reason_is reason "commentsDisabled"); simpl; auto.
    destruct (reason_is reason "quotaExceeded"); simpl; auto.
  - right. simpl. auto.
Qed.

(** The loop on master lists: what it saves and what it returns. *)
Lemma main_loop_appends vs : forall a b f w,
  comments_file <> sub_comments_file ->
  let r := all_videos vs (lists a b f) w in
  exists cs subs ds,
    (forall p, p <> comments_file -> p <> sub_comments_file ->
               files (snd r) !! p = files w !! p)
    /\ ((files (snd r) = files w /\ cs = [] /\ subs = [] /\ ds = [])
        \/ (files (snd r) !! comments_file = Some (JsonText (JList (a ++ cs)))
            /\ files (snd r) !! sub_comments_file = Some (JsonText (JList (b ++ subs)))))
    /\ (forall st, fst r = Ret st -> st = lists (a ++ cs) (b ++ subs) (f ++ ds)).
Proof.
  induction vs as [|u vs IH]; intros a b f w Hne; cbv zeta.
  { exists [], [], []. simpl. rewrite !app_nil_r. split; [auto|]. split; [auto|].
    intros st [= <-]. reflexivity. }
  cbn [main_loop]. rewrite bind_eq.
  pose proof (process_video_step u a b f w) as Hstep. cbv zeta in Hstep.
  destruct (one_video u (lists a b f) w) as [o w1]. cbn [fst snd] in Hstep.
  destruct Hstep as [(threads & subs1 & ds1 & -> & Hfiles & _)|[Hfiles Hst]].
  - cbn [fst snd].
    destruct (IH (a ++ map (comment_obj (vtitle u) (link_of u)) threads)
                (b ++ subs1) (f ++ ds1) w1 Hne) as (cs & subs & ds & Hother & Hsaved & Hend).
    cbv zeta in Hother, Hsaved, Hend.
    exists (map (comment_obj (vtitle u) (link_of u)) threads ++ cs), (subs1 ++ subs),
      (ds1 ++ ds).
    rewrite !app_assoc. split; [|split; [|exact Hend]].
    + intros p Hp Hp'. rewrite (Hother p Hp Hp'), Hfiles.
      rewrite lookup_insert_ne by congruence. rewrite lookup_insert_ne by congruence.
      reflexivity.
    + right. destruct Hsaved as [(Hsame & -> & -> & _)|Hsaved]; [|exact Hsaved].
      rewrite Hsame, Hfiles, !app_nil_r. split.
      * rewrite lookup_insert_ne by congruence. apply lookup_insert_eq.
      * apply lookup_insert_eq.
  - destruct o as [[fl st]|e|]; cbn [fst snd].
    + subst st. destruct fl.
      * destruct (IH a b f w1 Hne) as (cs & subs & ds & Hother & Hsaved & Hend).
        cbv zeta in Hother, Hsaved, Hend. rewrite Hfiles in Hother, Hsaved.
        exists cs, subs, ds. auto.
      * exists [], [], []. unfold ret. cbn [fst snd]. rewrite !app_nil_r.
        split; [intros; rewrite Hfiles; reflexivity|]. split; [auto|].
        intros st [= <-]. reflexivity.
    + exists [], [], []. cbn [fst snd]. rewrite !app_nil_r.
      split; [intros; rewrite Hfiles; reflexivity|]. split; [auto|]. discriminate.
    + exists [], [], []. cbn [fst snd]. rewrite !app_nil_r.
      split; [intros; rewrite Hfiles; reflexivity|]. split; [auto|]. discriminate.
Qed.

(** X13. Whatever the remote does, the main loop started on two master
    lists touches no file other than the two it saves, and these only
    grow: at every end of the loop, also one by an exception, the
    files are as they were, or they hold the loaded sequences with the
    new records appended behind them. When the loop ends normally the
    masters in memory are exactly what the files hold, if anything was
    saved, and the discrepancies so far are kept in front of the new
    ones. *)
Theorem main_loop_only_appends vs a b f w :
  comments_file <> sub_comments_file ->
  let r := all_videos vs (lists a b f) w in
  exists cs subs ds,
    (forall p, p <> comments_file -> p <> sub_comments_file ->
               files (snd r) !! p = files w !! p)
    /\ ((files (snd r) = files w /\ cs = [] /\ subs = [] /\ ds = [])
        \/ (files (snd r) !! comments_file = Some (JsonText (JList (a ++ cs)))
            /\ files (snd r) !! sub_comments_file = Some (JsonText (JList (b ++ subs)))))
    /\ (forall st, fst r = Ret st -> st = lists (a ++ cs) (b ++ subs) (f ++ ds)).
Proof. exact (main_loop_appends vs a b f w). Qed.

(** X14. A video whose iteration was merged with at least one comment
    is recognised when the state is loaded again: the comment file
    then loads as the master list in memory, the processed set built
    from it holds the link of the video, so the worklist of a later
    run leaves the video out, whatever the channel lists; and every
    video that was left out before is still left out. *)
Theorem merged_video_is_left_out_on_resume u a b f S w st' :
  comments_file <> sub_comments_file ->
  video_links a = inr S ->
  let r := one_video u (lists a b f) w in
  fst r = Ret (Next, st') ->
  master_comments_list st' <> JList a ->
  exists S',
    load_state comments_file (snd r) = (Ret (S', master_comments_list st'), snd r)
    /\ (forall all, ~ In u (worklist all S'))
    /\ (forall all v, In v (worklist all S') -> In v (worklist all S)).
Proof.
  intros Hne HS. cbv zeta.
  pose proof (process_video_step u a b f w) as Hstep. cbv zeta in Hstep.
  destruct (one_video u (lists a b f) w) as [o w1]. cbn [fst snd] in *.
  intros -> Hgrew.
  destruct Hstep as [(threads & subs & ds & [= ->] & Hfiles & _)|[_ ->]];
    [|exfalso; apply Hgrew; reflexivity].
  cbn [master_comments_list lists] in *.
  destruct threads as [|t threads];
    [exfalso; apply Hgrew; simpl; rewrite app_nil_r; reflexivity|].
  set (cs := map (comment_obj (vtitle u) (link_of u)) (t :: threads)) in *.
  assert (Hlinked : Forall (fun c => exists l, has_link l c) cs).
  { apply Forall_forall. intros c Hc. unfold cs in Hc.
    apply list_elem_of_In, in_map_iff in Hc as (t' & <- & _).
    exists (link_of u). reflexivity. }
  destruct (video_links_linked cs Hlinked) as (Lm & HLm & Hin).
  exists (S ++ Lm). split; [|split].
  - apply load_state_of_list.
    + rewrite Hfiles. rewrite lookup_insert_ne by congruence. apply lookup_insert_eq.
    + apply video_links_app; assumption.
  - intros all Hu. apply worklist_In in Hu as [_ Hu].
    rewrite str_in_set_app in Hu. apply orb_false_iff in Hu as [_ Hu].
    assert (Hyes : Py.str_in_set (link_of u) Lm = true).
    { apply Hin. exists (comment_obj (vtitle u) (link_of u) t).
      split; [left; reflexivity|reflexivity]. }
    congruence.
  - intros all v Hv. apply worklist_In in Hv as [Hv Hout]. apply worklist_In.
    split; [exact Hv|]. rewrite str_in_set_app in Hout.
    apply orb_false_iff in Hout as [Hout _]. exact Hout.
Qed.

(** X15. When the comment listing of a video fails, the iteration asks
    for no reply, charges nothing more and changes no file. What
    happens next depends on the failure. An exception that is not an
    HTTP error, and an HTTP error whose body gives the reason
    [commentsDisabled], another reason but [quotaExceeded], or none,
    are reported in one line, the masters and the discrepancies stay
    as they were and the loop goes on with the next video: nothing of
    the video is kept, also not the pages fetched before the failure.
    An HTTP error whose body cannot be read, because it is not UTF-8
    or because reading the reason raises [TypeError], makes the
    handler itself fail: that exception leaves the loop. A quota error
    breaks the loop, unless counting the masters fails. *)
Theorem failed_comment_listing_is_skipped_or_fatal u st w e :
  let fetch := fetch_video_comments youtube uniform01 fuel (vid u) (vtitle u)
                 (link_of u) w in
  fst fetch = Raise e ->
  let r := one_video u st w in
  files (snd r) = files w
  /\ calls (snd r) = calls (snd fetch)
  /\ quota_used (snd r) = quota_used (snd fetch)
  /\ match e with
     | HttpError status content =>
         match parse_http_error_reason content with
         | inl e' => r = (Raise e', snd fetch)
         | inr reason =>
             if reason_is reason "commentsDisabled" then
               r = (Ret (Next, st), print (MsgSkipDisabled (vtitle u)) (snd fetch))
             else if reason_is reason "quotaExceeded" then
               fst r = Ret (Break, st) \/ exists m, fst r = Raise (TypeError m)
             else
               r = (Ret (Next, st),
                    print (MsgVideoError (vtitle u) (str_exn e)) (snd fetch))
         end
     | _ =>
         r = (Ret (Next, st), print (MsgVideoError (vtitle u) (str_exn e)) (snd fetch))
     end.
Proof.
  cbv zeta. intros Hfetch. unfold process_video, video_try. rewrite bind_eq.
  pose proof (tame_comment_pages youtube uniform01 fuel (vid u) (vtitle u) (link_of u)
                None [] [] w) as Ht.
  unfold fetch_video_comments in *.
  destruct (comment_pages _ _ _ _ _ _ _ _ _ _) as [o w1]. cbn [fst snd] in *. subst o.
  destruct e; [|solve [cbn; repeat split; eauto]..].
  unfold on_http_error. rewrite bind_lift.
  destruct (parse_http_error_reason content) as [e'|reason];
    [cbn; repeat split; eauto|].
  destruct (reason_is reason "commentsDisabled"); [cbn; repeat split; eauto|].
  destruct (reason_is reason "quotaExceeded"); [|cbn; repeat split; eauto].
  rewrite bind_lift.
  destruct (Py.len (master_comments_list st)) as [e1|n] eqn:H1.
  { cbn. repeat split; auto. right.
    destruct (master_comments_list st); simpl in H1; try discriminate;
      injection H1 as <-; eauto. }
  rewrite bind_lift.
  destruct (Py.len (master_sub_comments_list st)) as [e2|m] eqn:H2.
  { cbn. repeat split; auto. right.
    destruct (master_sub_comments_list st); simpl in H2; try discriminate;
      injection H2 as <-; eauto. }
  cbn. repeat split; auto.
Qed.

(** X16. [load_sub_comments] returns whatever JSON value the reply file
    holds, without looking at its shape. When that value is not a list,
    the first video whose comments and replies are fetched cannot be
    merged: [extend] fails with [AttributeError], the exception leaves
    the loop, and nothing is saved. *)
Theorem reply_file_of_another_shape_stops_the_first_merge j u vs a f w :
  is_list j = false ->
  let st := {| master_comments_list := JList a;
               master_sub_comments_list := j;
               failed_reply_fetches := f |} in
  (forall w0, files w0 !! sub_comments_file = Some (JsonText j) ->
              load_sub_comments sub_comments_file w0 = (Ret j, w0))
  /\ forall done,
       fst (video_try youtube uniform01 fuel u f w) = Ret done ->
       let r := all_videos (u :: vs) st w in
       fst r = Raise (AttributeError "object has no attribute 'extend'")
       /\ files (snd r) = files w.
Proof.
  intros Hj. cbv zeta. split.
  { intros w0 Hf. unfold load_sub_comments. rewrite Hf. reflexivity. }
  intros done Hdone. cbn [main_loop]. rewrite bind_eq. unfold process_video.
  cbn [failed_reply_fetches].
  pose proof (tame_video_try youtube uniform01 fuel u f w) as Ht.
  destruct (video_try _ _ _ _ _ _) as [o w1]. cbn [fst snd] in *. subst o.
  destruct done as [cs [subs ds]].
  unfold merge_and_save. rewrite bind_lift. cbn [master_comments_list Py.extend].
  rewrite bind_lift. cbn [master_sub_comments_list].
  destruct j; try discriminate Hj; simpl; auto.
Qed.

End AnyRemote.

(** X17. After the loop has ended normally, [extract] writes the file
    of failed replies exactly when the loop left at least one
    discrepancy, with one record a discrepancy in the order met, and
    prints their number; without a discrepancy it touches no file, so
    a report of an earlier run stays as it is. In both cases the two
    saved files are not touched again and the exit status is 0. *)
Theorem failed_replies_report youtube uniform01 fuel channel_id vs a b w st :
  let loop := main_loop youtube uniform01 fuel (comments_path channel_id)
                (sub_comments_path channel_id) vs (lists a b []) w in
  fst loop = Ret st ->
  let r := extract youtube uniform01 fuel channel_id vs (JList a) (JList b) w in
  fst r = Ret 0
  /\ calls (snd r) = calls (snd loop)
  /\ quota_used (snd r) = quota_used (snd loop)
  /\ files (snd r)
     = match failed_reply_fetches st with
       | [] => files (snd loop)
       | ds => <[failed_replies_path channel_id := JsonText (JList (map discrepancy_json ds))]>
                 (files (snd loop))
       end
  /\ files (snd r) !! comments_path channel_id
     = files (snd loop) !! comments_path channel_id
  /\ files (snd r) !! sub_comments_path channel_id
     = files (snd loop) !! sub_comments_path channel_id.
Proof.
  cbv zeta. intros Hloop. unfold extract. rewrite bind_eq.
  destruct (main_loop_appends youtube uniform01 fuel (comments_path channel_id)
              (sub_comments_path channel_id) vs a b [] w
              (comments_path_not_sub_comments_path channel_id))
    as (cs & subs & ds & _ & _ & Hend).
  cbv zeta in Hend. specialize (Hend st Hloop).
  change (lists a b []) with
    {| master_comments_list := JList a; master_sub_comments_list := JList b;
       failed_reply_fetches := [] |} in *.
  destruct (main_loop _ _ _ _ _ _ _ _) as [o w1]. cbn [fst snd] in *. subst o st.
  cbn [lists failed_reply_fetches master_comments_list master_sub_comments_list app].
  destruct ds as [|d ds]; simpl.
  - repeat split.
  - repeat split.
    + rewrite lookup_insert_ne; [reflexivity|].
      apply failed_replies_path_not_comments_path.
    + rewrite lookup_insert_ne; [reflexivity|].
      apply failed_replies_path_not_sub_comments_path.
Qed.

(** ** The log of calls and the counter *)

Lemma spent_app s new1 : forall n new2,
  spent s n (new1 ++ new2) = spent s n new1 + spent s (n + length new1) new2.
Proof.
  induction new1 as [|q new1 IH]; intros n new2; simpl.
  - rewrite Nat.add_0_r. reflexivity.
  - rewrite IH. replace (S n + length new1)%nat with (n + S (length new1))%nat by lia. lia.
Qed.

Lemma spent_nonneg s new : forall n, 0 <= spent s n new.
Proof.
  induction new as [|q new IH]; intros n; simpl; [lia|].
  specialize (IH (S n)).
  assert (0 <= request_cost q) by (destruct q; unfold request_cost; simpl; apply cost_of_nonneg).
  destruct (answered s n q); lia.
Qed.

Section Extends.

Variable s : service.
Variable P : request -> Prop.

Lemma extends_quiet w w' :
  calls w' = calls w -> quota_used w' = quota_used w -> extends s P w w'.
Proof.
  intros Hc Hq. exists []. rewrite app_nil_r. simpl. split; [exact Hc|].
  split; [constructor|lia].
Qed.

Lemma extends_refl w : extends s P w w.
Proof. apply extends_quiet; reflexivity. Qed.

Lemma extends_trans w1 w2 w3 :
  extends s P w1 w2 -> extends s P w2 w3 -> extends s P w1 w3.
Proof.
  intros (new1 & Hc1 & HP1 & Hq1) (new2 & Hc2 & HP2 & Hq2).
  exists (new1 ++ new2). split; [|split].
  - rewrite Hc2, Hc1, app_assoc. reflexivity.
  - apply Forall_app. split; assumption.
  - rewrite Hq2, Hq1, Hc1, length_app, spent_app. lia.
Qed.

(** A world that differs from [w2] in what is neither the log nor the
    counter. *)
Lemma extends_same w1 w2 w3 :
  extends s P w1 w2 -> calls w3 = calls w2 -> quota_used w3 = quota_used w2 ->
  extends s P w1 w3.
Proof.
  intros H12 Hc Hq. apply (extends_trans w1 w2 w3 H12). apply extends_quiet; assumption.
Qed.

Lemma extends_one w w1 q :
  calls w1 = calls w ++ [q] -> P q ->
  quota_used w1
  = quota_used w + (if answered s (length (calls w)) q then request_cost q else 0) ->
  extends s P w w1.
Proof.
  intros Hc HP Hq. exists [q]. split; [exact Hc|]. split; [repeat constructor; exact HP|].
  simpl. lia.
Qed.

Lemma accounted_quiet {A} (m : M A) :
  (forall w, calls (snd (m w)) = calls w /\ quota_used (snd (m w)) = quota_used w) ->
  accounted s P m.
Proof. intros H w. destruct (H w). apply extends_quiet; assumption. Qed.

Lemma accounted_ret {A} (a : A) : accounted s P (ret a).
Proof. intros w. apply extends_refl. Qed.

Lemma accounted_bind {A B} (m : M A) (k : A -> M B) :
  accounted s P m -> (forall a, accounted s P (k a)) -> accounted s P (bind m k).
Proof.
  intros Hm Hk w. rewrite bind_eq. specialize (Hm w).
  destruct (m w) as [[a|e|] w1]; simpl in *; try exact Hm.
  apply (extends_trans w w1 _ Hm). apply Hk.
Qed.

(** A handler around [m] that adds at most output. *)
Lemma accounted_handler {A B} (m : M A) (m' : M B) :
  accounted s P m ->
  (forall w, calls (snd (m' w)) = calls (snd (m w))
             /\ quota_used (snd (m' w)) = quota_used (snd (m w))) ->
  accounted s P m'.
Proof.
  intros Hm Hsame w. destruct (Hsame w) as [Hc Hq].
  apply (extends_same w (snd (m w)) _ (Hm w) Hc Hq).
Qed.

End Extends.

Section Accounting.

Variable youtube : service.
Variable uniform01 : nat -> Q.
Variable urlparse : string -> exn + parsed_url.
Variable P : request -> Prop.

Lemma retry_from_accounted {A} r (answer : nat -> exn + A) op max_retries n :
  (forall k, is_ok (answer k) = answered youtube k r) ->
  charge (Some op) = request_cost r ->
  P r ->
  forall attempt w,
    extends youtube P w
      (snd (retry_from uniform01 (execute r answer) (Some op) max_retries n attempt w)).
Proof.
  intros Hok Hcost HP. induction n as [|n IH]; intros attempt w.
  { apply extends_refl. }
  cbn [retry_from]. unfold execute at 1. cbn beta.
  assert (Hfail : forall w1,
             answered youtube (length (calls w)) r = false ->
             calls w1 = calls w ++ [r] -> quota_used w1 = quota_used w ->
             extends youtube P w w1).
  { intros w1 Hno Hc Hq. apply (extends_one youtube P w w1 r Hc HP).
    rewrite Hno, Hq. lia. }
  pose proof (Hok (length (calls w))) as Hk.
  destruct (answer (length (calls w))) as [e|a]; simpl in Hk; symmetry in Hk.
  - destruct e; try (apply Hfail; [exact Hk|reflexivity|reflexivity]).
    destruct (retryable status); [|apply Hfail; [exact Hk|reflexivity|reflexivity]].
    destruct (_ <? _); [|apply Hfail; [exact Hk|reflexivity|reflexivity]].
    destruct (wait_time attempt _) as [overflow|t];
      [apply Hfail; [exact Hk|reflexivity|reflexivity]|].
    destruct (sleep_too_long t); [apply Hfail; [exact Hk|reflexivity|reflexivity]|].
    match goal with
    | |- context [retry_from _ _ _ _ n (S attempt) ?w2] =>
        apply (extends_trans youtube P w w2);
          [apply Hfail; [exact Hk|reflexivity|reflexivity]|apply IH]
    end.
  - apply (extends_one youtube P w _ r); [|exact HP|].
    + destruct (op_truthy (Some op)); reflexivity.
    + rewrite Hk, <- Hcost. unfold charge.
      destruct (op_truthy (Some op)); simpl; lia.
Qed.

Lemma accounted_call {A} r (answer : nat -> exn + A) op :
  (forall k, is_ok (answer k) = answered youtube k r) ->
  charge (Some op) = request_cost r ->
  P r ->
  accounted youtube P (call uniform01 r answer op).
Proof.
  intros Hok Hcost HP w. unfold call, api_call_with_retry. rewrite bind_eq.
  pose proof (retry_from_accounted r answer op retry_attempts retry_attempts
                Hok Hcost HP 0%nat w) as H.
  destruct (retry_from _ _ _ _ _ _ _) as [[[a|]|e|] w1]; exact H.
Qed.

Lemma accounted_first_item response msg : accounted youtube P (first_item response msg).
Proof.
  apply accounted_quiet. intros w. unfold first_item.
  destruct (items_field response) as [[|[e|x] xs]|]; split; reflexivity.
Qed.

Lemma accounted_lookup r (answer : nat -> exn + listing) op msg :
  (forall k, is_ok (answer k) = answered youtube k r) ->
  charge (Some op) = request_cost r ->
  P r ->
  accounted youtube P (let* response := call uniform01 r answer op in first_item response msg).
Proof.
  intros Hok Hcost HP. apply accounted_bind; [apply accounted_call; assumption|].
  intros response. apply accounted_first_item.
Qed.

Hypothesis P_other : forall q, (forall v t, q <> CommentThreadsList v t) -> P q.

Lemma accounted_get_channel_id_from_url_try url :
  accounted youtube P (get_channel_id_from_url_try youtube uniform01 urlparse url).
Proof.
  intros w. unfold get_channel_id_from_url_try. rewrite bind_lift.
  destruct (urlparse url) as [e|parsed]; [apply extends_refl|].
  destruct (negb _); [apply extends_refl|]. cbv zeta.
  destruct (Py.split _ _) as [|seg0 rest]; [apply extends_refl|].
  assert (Hhandle :
    extends youtube P w
      (snd ((if Py.startswith "@" seg0 then
               let username := Py.tail seg0 in
               let q := "@" +:+ username in
               let* response :=
                 call uniform01 (SearchList q) (fun n => search_execute youtube n q)
                   "search.list" in
               first_item response ("Channel not found for handle: @" +:+ username)
             else
               match String.eqb seg0 "c", rest with
               | true, custom_name :: _ =>
                   let* response :=
                     call uniform01 (SearchList custom_name)
                       (fun n => search_execute youtube n custom_name) "search.list" in
                   first_item response
                     ("Channel not found for custom name: " +:+ custom_name)
               | _, _ =>
                   match String.eqb seg0 "user", rest with
                   | true, username :: _ =>
                       let* response :=
                         call uniform01 (ChannelsForUsername username)
                           (fun n => channels_username_execute youtube n username)
                           "channels.list" in
                       first_item response
                         ("Channel not found for username: " +:+ username)
                   | _, _ =>
                       let potential_id := Py.last_seg (seg0 :: rest) in
                       if negb (String.eqb potential_id "")
                          && (String.length potential_id =? 24)%nat
                       then ret potential_id
                       else raise (ValueError
                              ("Unable to extract channel ID from URL: " +:+ url))
                   end
               end) w))).
  { assert (Hend : forall w0,
               extends youtube P w0
                 (snd ((let potential_id := Py.last_seg (seg0 :: rest) in
                        if negb (String.eqb potential_id "")
                           && (String.length potential_id =? 24)%nat
                        then ret potential_id
                        else raise (ValueError
                               ("Unable to extract channel ID from URL: " +:+ url))) w0))).
    { intros w0. cbv zeta. destruct (_ && _); apply extends_refl. }
    assert (Huser : forall w0,
               extends youtube P w0
                 (snd ((match String.eqb seg0 "user", rest with
                        | true, username :: _ =>
                            let* response :=
                              call uniform01 (ChannelsForUsername username)
                                (fun n => channels_username_execute youtube n username)
                                "channels.list" in
                            first_item response
                              ("Channel not found for username: " +:+ username)
                        | _, _ =>
                            let potential_id := Py.last_seg (seg0 :: rest) in
                            if negb (String.eqb potential_id "")
                               && (String.length potential_id =? 24)%nat
                            then ret potential_id
                            else raise (ValueError
                                   ("Unable to extract channel ID from URL: " +:+ url))
                        end) w0))).
    { intros w0. destruct (String.eqb seg0 "user"), rest as [|username rest'];
        try apply Hend.
      apply accounted_lookup; [reflexivity|reflexivity|].
      apply P_other. intros v t. discriminate. }
    destruct (Py.startswith "@" seg0).
    - cbv zeta. apply accounted_lookup; [reflexivity|reflexivity|].
      apply P_other. intros v t. discriminate.
    - destruct (String.eqb seg0 "c"), rest as [|custom_name rest']; try apply Huser.
      apply accounted_lookup; [reflexivity|reflexivity|].
      apply P_other. intros v t. discriminate. }
  destruct (String.eqb seg0 "channel"), rest as [|seg1 rest']; try exact Hhandle.
  apply extends_refl.
Qed.

Lemma accounted_get_channel_id_from_url url :
  accounted youtube P (get_channel_id_from_url youtube uniform01 urlparse url).
Proof.
  apply (accounted_handler youtube P
           (get_channel_id_from_url_try youtube uniform01 urlparse url));
    [apply accounted_get_channel_id_from_url_try|].
  intros w. unfold get_channel_id_from_url.
  destruct (get_channel_id_from_url_try _ _ _ _ _) as [[a|e|] w1]; simpl; auto.
  destruct (is_ValueError e); auto.
Qed.

Lemma accounted_get_uploads_playlist_id channel_id :
  accounted youtube P (get_uploads_playlist_id youtube uniform01 channel_id).
Proof.
  apply (accounted_handler youtube P
           (let* response :=
              call uniform01 (ChannelsContentDetails channel_id)
                (fun n => channels_details_execute youtube n channel_id) "channels.list" in
            first_item response ("Channel not found: " +:+ channel_id))).
  { apply accounted_lookup; [reflexivity|reflexivity|].
    apply P_other. intros v t. discriminate. }
  intros w. unfold get_uploads_playlist_id.
  destruct (bind _ _ w) as [[a|e|] w1]; simpl; auto.
  destruct (is_ValueError e); auto.
Qed.

Lemma accounted_videos_pages fuel playlist_id :
  forall token videos,
    accounted youtube P (videos_pages youtube uniform01 fuel playlist_id token videos).
Proof.
  induction fuel as [|fuel IH]; intros token videos; cbn [videos_pages].
  { intros w. apply extends_refl. }
  apply accounted_bind.
  - apply accounted_call; [reflexivity|reflexivity|].
    apply P_other. intros v t. discriminate.
  - intros response. cbv zeta. destruct (more_pages _); [apply IH|apply accounted_ret].
Qed.

Lemma accounted_get_all_video_ids_and_titles fuel playlist_id :
  accounted youtube P (get_all_video_ids_and_titles youtube uniform01 fuel playlist_id).
Proof.
  apply (accounted_handler youtube P
           (videos_pages youtube uniform01 fuel playlist_id None []));
    [apply accounted_videos_pages|].
  intros w. unfold get_all_video_ids_and_titles.
  destruct (videos_pages _ _ _ _ _ _ _) as [[a|e|] w1]; simpl; auto.
Qed.

Lemma accounted_comment_pages fuel video_id video_title video_link :
  (forall t, P (CommentThreadsList video_id t)) ->
  forall token cl tw,
    accounted youtube P
      (comment_pages youtube uniform01 fuel video_id video_title video_link token cl tw).
Proof.
  intros Hallowed. induction fuel as [|fuel IH]; intros token cl tw; cbn [comment_pages].
  { intros w. apply extends_refl. }
  apply accounted_bind.
  - apply accounted_call; [reflexivity|reflexivity|apply Hallowed].
  - intros response. cbv zeta. destruct (more_pages _); [apply IH|apply accounted_ret].
Qed.

Lemma accounted_reply_pages fuel parent_comment_id video_title video_id :
  forall token sl,
    accounted youtube P
      (reply_pages youtube uniform01 fuel parent_comment_id video_title video_id token sl).
Proof.
  induction fuel as [|fuel IH]; intros token sl; cbn [reply_pages].
  { intros w. apply extends_refl. }
  apply accounted_bind.
  - apply accounted_call; [reflexivity|reflexivity|].
    apply P_other. intros v t. discriminate.
  - intros response. cbv zeta. destruct (more_pages _); [apply IH|apply accounted_ret].
Qed.

Lemma accounted_fetch_comment_replies fuel parent_comment_id video_title video_id :
  accounted youtube P
    (fetch_comment_replies youtube uniform01 fuel parent_comment_id video_title video_id).
Proof.
  apply (accounted_handler youtube P
           (reply_pages youtube uniform01 fuel parent_comment_id video_title video_id
              None []));
    [apply accounted_reply_pages|].
  intros w. unfold fetch_comment_replies.
  destruct (reply_pages _ _ _ _ _ _ _ _ _) as [[a|e|] w1]; simpl; auto.
  destruct e; simpl; auto.
  destruct (parse_http_error_reason content); simpl; auto.
  destruct (reason_is _ _); simpl; auto.
Qed.

Lemma accounted_reply_step fuel video acc ptr :
  accounted youtube P (reply_step youtube uniform01 fuel video acc ptr).
Proof.
  apply (accounted_handler youtube P
           (fetch_comment_replies youtube uniform01 fuel (fst ptr) (vtitle video)
              (vid video)));
    [apply accounted_fetch_comment_replies|].
  intros w. unfold reply_step.
  destruct (fetch_comment_replies _ _ _ _ _ _ _) as [[a|e|] w1]; simpl; auto.
Qed.

Lemma accounted_replies_loop fuel video ptrs :
  forall acc, accounted youtube P (replies_loop youtube uniform01 fuel video ptrs acc).
Proof.
  induction ptrs as [|ptr ptrs IH]; intros acc; cbn [replies_loop].
  { apply accounted_ret. }
  apply accounted_bind; [apply accounted_reply_step|]. intros acc'. apply IH.
Qed.

Lemma accounted_video_try fuel video failed :
  (forall t, P (CommentThreadsList (vid video) t)) ->
  accounted youtube P (video_try youtube uniform01 fuel video failed).
Proof.
  intros Hallowed. unfold video_try, fetch_video_comments.
  apply accounted_bind; [apply accounted_comment_pages; exact Hallowed|].
  intros fetched. apply accounted_bind; [apply accounted_replies_loop|].
  intros acc. apply accounted_ret.
Qed.

Lemma accounted_process_video fuel comments_file sub_comments_file video st :
  (forall t, P (CommentThreadsList (vid video) t)) ->
  accounted youtube P
    (process_video youtube uniform01 fuel comments_file sub_comments_file video st).
Proof.
  intros Hallowed.
  apply (accounted_handler youtube P
           (video_try youtube uniform01 fuel video (failed_reply_fetches st)));
    [apply accounted_video_try; exact Hallowed|].
  intros w. unfold process_video.
  destruct (video_try _ _ _ _ _ _) as [[[cs [subs ds]]|e|] w1]; cbn [fst snd]; auto.
  - unfold merge_and_save. rewrite bind_lift.
    destruct (Py.extend (master_comments_list st) cs); simpl; auto.
    rewrite bind_lift.
    destruct (Py.extend (master_sub_comments_list st) subs); simpl; auto.
  - destruct e; simpl; auto.
    unfold on_http_error. rewrite bind_lift.
    destruct (parse_http_error_reason content) as [e'|reason]; simpl; auto.
    destruct (reason_is reason "commentsDisabled"); simpl; auto.
    destruct (reason_is reason "quotaExceeded"); simpl; auto.
    rewrite bind_lift.
    destruct (Py.len (master_comments_list st)); simpl; auto.
    rewrite bind_lift.
    destruct (Py.len (master_sub_comments_list st)); simpl; auto.
Qed.

Lemma accounted_main_loop fuel comments_file sub_comments_file vs :
  Forall (fun video => forall t, P (CommentThreadsList (vid video) t)) vs ->
  forall st,
    accounted youtube P
      (main_loop youtube uniform01 fuel comments_file sub_comments_file vs st).
Proof.
  induction vs as [|video vs IH]; intros Hall st; cbn [main_loop].
  { apply accounted_ret. }
  apply Forall_cons in Hall as [Hvideo Hvs].
  apply accounted_bind; [apply accounted_process_video; exact Hvideo|].
  intros r. destruct (fst r); [apply IH; exact Hvs|apply accounted_ret].
Qed.

Lemma accounted_extract fuel channel_id vs mc ms :
  Forall (fun video => forall t, P (CommentThreadsList (vid video) t)) vs ->
  accounted youtube P (extract youtube uniform01 fuel channel_id vs mc ms).
Proof.
  intros Hall. unfold extract.
  apply accounted_bind; [apply accounted_main_loop; exact Hall|].
  intros st. apply accounted_quiet. intros w.
  rewrite bind_eq.
  destruct (failed_reply_fetches st) as [|d ds]; simpl.
  - rewrite bind_lift. destruct (Py.len (master_comments_list st)); simpl; auto.
    rewrite bind_lift. destruct (Py.len (master_sub_comments_list st)); simpl; auto.
  - rewrite bind_lift. destruct (Py.len (master_comments_list st)); simpl; auto.
    rewrite bind_lift. destruct (Py.len (master_sub_comments_list st)); simpl; auto.
Qed.

Lemma load_state_quiet comments_file w :
  calls (snd (load_state comments_file w)) = calls w
  /\ quota_used (snd (load_state comments_file w)) = quota_used w.
Proof.
  unfold load_state. destruct (files w !! comments_file) as [c|]; [|auto].
  destruct (load_state_try c) as [e|r]; [|auto]. destruct e; auto.
Qed.

Lemma load_sub_comments_quiet sub_comments_file w :
  calls (snd (load_sub_comments sub_comments_file w)) = calls w
  /\ quota_used (snd (load_sub_comments sub_comments_file w)) = quota_used w.
Proof.
  unfold load_sub_comments. destruct (files w !! sub_comments_file) as [c|]; [|auto].
  destruct (json_loads c) as [e|r]; [|auto]. destruct e; auto.
Qed.

End Accounting.

(** ** The whole run *)

Lemma fetches_only_other allowed q :
  (forall v t, q <> CommentThreadsList v t) -> fetches_only allowed q.
Proof.
  intros Hq. destruct q; simpl; try exact I. exfalso. exact (Hq _ _ eq_refl).
Qed.

Lemma video_links_member comments : forall S c l,
  video_links comments = inr S -> In c comments -> has_link l c ->
  Py.str_in_set l S = true.
Proof.
  induction comments as [|c0 comments IH]; intros S c l HS Hin Hl; [destruct Hin|].
  simpl in HS.
  destruct (Py.getitem c0 "videoLink") as [e|v] eqn:Hv; [discriminate|].
  destruct (Py.hashable v); [|discriminate].
  destruct (video_links comments) as [e|vs]; [discriminate|].
  injection HS as <-. simpl. apply orb_true_iff.
  destruct Hin as [->|Hin].
  - left. unfold has_link in Hl. rewrite Hl in Hv. injection Hv as <-.
    apply String.eqb_refl.
  - right. exact (IH vs c l eq_refl Hin Hl).
Qed.

Section Run.

Variable youtube : service.
Variable uniform01 : nat -> Q.
Variable urlparse : string -> exn + parsed_url.

(** Steps 3 to 10 log only what the worklist allows. *)
Lemma run_channel_accounted fuel channel_id w (allowed : string -> Prop) :
  (forall S mc w1,
      load_state (comments_path channel_id) w = (Ret (S, mc), w1) ->
      forall wu pl wp,
        get_uploads_playlist_id youtube uniform01 channel_id wu = (Ret pl, wp) ->
        forall wa all wb,
          get_all_video_ids_and_titles youtube uniform01 fuel pl wa = (Ret all, wb) ->
          forall u, In u (worklist all S) -> allowed (vid u)) ->
  extends youtube (fetches_only allowed) w
    (snd (run_channel youtube uniform01 fuel channel_id w)).
Proof.
  intros Hallowed.
  pose proof (fetches_only_other allowed) as Hother.
  unfold run_channel. rewrite bind_eq.
  pose proof (load_state_quiet (comments_path channel_id) w) as [Hc1 Hq1].
  destruct (load_state (comments_path channel_id) w) as [[[S mc]|e|] w1] eqn:Hload;
    cbn [fst snd] in *; try (apply extends_quiet; assumption).
  specialize (Hallowed S mc w1 eq_refl).
  apply (extends_trans _ _ w w1); [apply extends_quiet; assumption|]. clear Hc1 Hq1 Hload.
  rewrite bind_eq.
  pose proof (load_sub_comments_quiet (sub_comments_path channel_id) w1) as [Hc2 Hq2].
  destruct (load_sub_comments _ w1) as [[ms|e|] w2]; cbn [fst snd] in *;
    try (apply extends_quiet; assumption).
  apply (extends_trans _ _ w1 w2); [apply extends_quiet; assumption|]. clear Hc2 Hq2.
  rewrite bind_eq.
  assert (Hsay : forall w0 : world,
            let r := (match S with
                      | _ :: _ =>
                          let* n := lift (Py.len mc) in
                          let* m := lift (Py.len ms) in
                          say (MsgResuming n m)
                      | [] => say MsgStartingFresh
                      end) w0 in
            calls (snd r) = calls w0 /\ quota_used (snd r) = quota_used w0).
  { intros w0. cbv zeta. destruct S; [simpl; auto|].
    rewrite bind_lift. destruct (Py.len mc); simpl; auto.
    rewrite bind_lift. destruct (Py.len ms); simpl; auto. }
  specialize (Hsay w2). cbv zeta in Hsay. destruct Hsay as [Hc3 Hq3].
  match goal with
  | |- context [match ?m w2 with _ => _ end] => destruct (m w2) as [[[]|e|] w3]
  end; cbn [fst snd] in *; try (apply extends_quiet; assumption).
  apply (extends_trans _ _ w2 w3); [apply extends_quiet; assumption|]. clear Hc3 Hq3.
  pose proof (accounted_get_uploads_playlist_id youtube uniform01 (fetches_only allowed)
                Hother channel_id w3) as Hup.
  destruct (get_uploads_playlist_id _ _ _ w3) as [[uploads|e|] w4] eqn:Huploads;
    cbn [fst snd] in *.
  - apply (extends_trans _ _ w3 w4 _ Hup). clear Hup.
    specialize (Hallowed w3 uploads w4 Huploads).
    pose proof (accounted_get_all_video_ids_and_titles youtube uniform01
                  (fetches_only allowed) Hother fuel uploads
                  (print (MsgFoundPlaylist uploads) w4)) as Hall.
    destruct (get_all_video_ids_and_titles _ _ _ _ _) as [[all|e|] w5] eqn:Hlisting;
      cbn [fst snd] in *; try exact Hall.
    apply (extends_trans _ _ w4 w5 _ Hall). clear Hall.
    specialize (Hallowed _ all w5 Hlisting).
    destruct (worklist all S) as [|video todo] eqn:Hwl.
    + apply extends_quiet; reflexivity.
    + apply (extends_trans _ _ w5 (print (MsgToProcess (length (video :: todo))
                                          (length all - length (video :: todo)))
                                     (print (MsgFoundVideos (length all)) w5)));
        [apply extends_quiet; reflexivity|].
      apply accounted_extract; [exact Hother|].
      apply Forall_forall. intros u Hu t. simpl.
      apply Hallowed. apply list_elem_of_In. exact Hu.
  - destruct (is_ValueError e); exact Hup.
  - exact Hup.
Qed.

Lemma main_accounted fuel channel_url w :
  extends youtube (fun _ => True) w (snd (main youtube uniform01 urlparse fuel channel_url w)).
Proof.
  assert (Hweak : forall w1 w2,
            extends youtube (fetches_only (fun _ => True)) w1 w2 ->
            extends youtube (fun _ => True) w1 w2).
  { intros w1 w2 (new & Hc & _ & Hq). exists new. split; [exact Hc|]. split; [|exact Hq].
    apply Forall_forall. intros; exact I. }
  unfold main, main_try.
  pose proof (accounted_get_channel_id_from_url youtube uniform01 urlparse
                (fun _ => True) (fun _ _ => I) channel_url w) as Hres.
  destruct (get_channel_id_from_url _ _ _ _ _) as [[channel_id|e|] w1]; cbn [fst snd] in *.
  - pose proof (run_channel_accounted fuel channel_id
                  (print (MsgProcessingChannel channel_id) w1) (fun _ => True)
                  (fun _ _ _ _ _ _ _ _ _ _ _ _ _ _ => I)) as Hrun.
    apply Hweak in Hrun.
    destruct (run_channel _ _ _ _ _) as [[status|e|] w2]; cbn [fst snd] in *;
      exact (extends_trans _ _ w w1 _ Hres Hrun).
  - destruct (is_ValueError e); exact Hres.
  - exact Hres.
Qed.

(** X18. At the end of every run, however it ends, the quota counter
    has grown by exactly the table price of the requests that were
    answered: 100 units for every answered search, one unit for every
    other answered request, and nothing for a request that failed,
    retried or not. So the counter never goes down. *)
Theorem run_charges_the_price_of_the_answered_requests fuel channel_url w :
  let r := main youtube uniform01 urlparse fuel channel_url w in
  exists new,
    calls (snd r) = calls w ++ new
    /\ quota_used (snd r) = quota_used w + spent youtube (length (calls w)) new
    /\ quota_used w <= quota_used (snd r).
Proof.
  cbv zeta. destruct (main_accounted fuel channel_url w) as (new & Hc & _ & Hq).
  exists new. split; [exact Hc|]. split; [exact Hq|].
  pose proof (spent_nonneg youtube new (length (calls w))). lia.
Qed.

(** X19. A run never asks for the comments of a video it counts as
    processed: when the comment file holds a list of records, no
    comment listing is requested for a video whose link is the
    [videoLink] of one of these records, on any page and whatever the
    channel lists. *)
Theorem processed_videos_are_not_listed_again fuel channel_id w comments S :
  files w !! comments_path channel_id = Some (JsonText (JList comments)) ->
  video_links comments = inr S ->
  let r := run_channel youtube uniform01 fuel channel_id w in
  exists new,
    calls (snd r) = calls w ++ new
    /\ (forall video_id token,
          In (CommentThreadsList video_id token) new ->
          Py.str_in_set (create_video_link video_id) S = false)
    /\ (forall video_id token c,
          In c comments -> has_link (create_video_link video_id) c ->
          ~ In (CommentThreadsList video_id token) new).
Proof.
  intros Hfile HS. cbv zeta.
  destruct (run_channel_accounted fuel channel_id w
              (fun v => Py.str_in_set (create_video_link v) S = false))
    as (new & Hc & Hnew & _).
  { intros S' mc w1 Hload wu pl wp _ wa all wb _ u Hu.
    rewrite (load_state_of_list _ _ _ _ Hfile HS) in Hload.
    injection Hload as <- _ _. apply worklist_In in Hu as [_ Hu]. exact Hu. }
  exists new. split; [exact Hc|].
  assert (Hout : forall video_id token,
             In (CommentThreadsList video_id token) new ->
             Py.str_in_set (create_video_link video_id) S = false).
  { intros video_id token Hin. rewrite Forall_forall in Hnew.
    exact (Hnew _ (proj2 (list_elem_of_In _ _) Hin)). }
  split; [exact Hout|].
  intros video_id token c Hc' Hlink Hin.
  pose proof (Hout video_id token Hin) as Hno.
  rewrite (video_links_member comments S c _ HS Hc' Hlink) in Hno. discriminate Hno.
Qed.

End Run.

(** ** Failures before the loop *)

Section BeforeTheLoop.

Variable youtube : service.
Variable uniform01 : nat -> Q.
Variable urlparse : string -> exn + parsed_url.

(** X20. The host is checked before anything else: a URL whose host is
    not [www.youtube.com], [youtube.com] or [m.youtube.com] (a
    [youtu.be] short link, [music.youtube.com]) is refused with
    [ValueError("Invalid YouTube URL: ...")], whatever its path, and
    no request is sent. *)
Theorem foreign_host_is_refused_without_a_call url parsed w :
  urlparse url = inr parsed ->
  str_in (netloc parsed) youtube_hosts = false ->
  get_channel_id_from_url youtube uniform01 urlparse url w
  = (Raise (ValueError ("Invalid YouTube URL: " +:+ url)), w).
Proof.
  intros Hparse Hhost. unfold get_channel_id_from_url, get_channel_id_from_url_try.
  rewrite bind_lift, Hparse, Hhost. reflexivity.
Qed.

(** A call that is never answered does not return. *)
Lemma retry_from_refused {A} r (answer : nat -> exn + A) op max_retries n :
  (forall k, is_ok (answer k) = false) ->
  forall attempt w,
    match fst (retry_from uniform01 (execute r answer) op max_retries n attempt w) with
    | Ret (Some _) => False
    | _ => True
    end.
Proof.
  intros Hno. induction n as [|n IH]; intros attempt w; [exact I|].
  cbn [retry_from]. unfold execute at 1. cbn beta.
  specialize (Hno (length (calls w))).
  destruct (answer (length (calls w))) as [e|a]; [|discriminate Hno].
  destruct e; try exact I.
  destruct (retryable status); [|exact I].
  destruct (_ <? _); [|exact I].
  destruct (wait_time attempt _) as [overflow|t]; [exact I|].
  destruct (sleep_too_long t); [exact I|apply IH].
Qed.

Lemma call_refused {A} r (answer : nat -> exn + A) op w :
  (forall k, is_ok (answer k) = false) ->
  exists e, fst (call uniform01 r answer op w) = Raise e.
Proof.
  intros Hno. unfold call, api_call_with_retry. rewrite bind_eq.
  pose proof (retry_from_refused r answer (Some op) retry_attempts retry_attempts Hno
                0%nat w) as Hr.
  pose proof (retry_from_total uniform01 (execute r answer) (Some op) retry_attempts
                (execute_total r answer) retry_attempts 0%nat w) as Ht.
  destruct (retry_from _ _ _ _ _ _ _) as [[[a|]|e|] w1]; simpl in *;
    [destruct Hr|eauto|eauto|congruence].
Qed.

Lemma get_uploads_playlist_id_ends channel_id w :
  match fst (get_uploads_playlist_id youtube uniform01 channel_id w) with
  | Diverge => False
  | _ => True
  end.
Proof.
  unfold get_uploads_playlist_id.
  pose proof (lookup_effect uniform01 (ChannelsContentDetails channel_id)
                (fun n => channels_details_execute youtube n channel_id) "channels.list"
                ("Channel not found: " +:+ channel_id) w) as [_ Hq].
  cbv zeta in Hq.
  destruct (bind _ _ w) as [[a|e|] w1]; simpl in *; auto.
  destruct (is_ValueError e); exact I.
Qed.

Lemma listing_refused fuel playlist_id w :
  (1 <= fuel)%nat ->
  (forall n p t, is_ok (playlist_items_execute youtube n p t) = false) ->
  exists e,
    fst (get_all_video_ids_and_titles youtube uniform01 fuel playlist_id w) = Raise e.
Proof.
  intros Hfuel Hrefused. destruct fuel as [|fuel]; [lia|].
  unfold get_all_video_ids_and_titles. cbn [videos_pages]. rewrite bind_eq.
  destruct (call_refused (PlaylistItemsList playlist_id None)
              (fun n => playlist_items_execute youtube n playlist_id None)
              "playlistItems.list" w (fun k => Hrefused k playlist_id None)) as [e He].
  destruct (call _ _ _ _ _) as [o w1]. simpl in He. subst o. eauto.
Qed.

(** X21. A failure of the video listing is fatal, a quota error
    included: when the playlist is refused, every run ends with exit
    status 1 and has written no file. The graceful stop of the main
    loop does not cover the steps before it. *)
Theorem refused_video_listing_is_fatal fuel channel_url w :
  (1 <= fuel)%nat ->
  (forall n playlist_id token, is_ok (playlist_items_execute youtube n playlist_id token) = false) ->
  let r := main youtube uniform01 urlparse fuel channel_url w in
  fst r = Some 1 /\ files (snd r) = files w.
Proof.
  intros Hfuel Hrefused. cbv zeta. unfold main, main_try.
  pose proof (tame_resolve youtube uniform01 urlparse channel_url w) as Ht0.
  pose proof (resolve_outcome youtube uniform01 urlparse channel_url w) as Ho0.
  destruct (get_channel_id_from_url _ _ _ _ _) as [[channel_id|e|] w0]; cbn [fst snd] in *;
    [|rewrite Ho0; auto|destruct Ho0].
  clear Ho0.
  assert (Hrun : forall w1,
            match fst (run_channel youtube uniform01 fuel channel_id w1) with
            | Ret status => status = 1
            | Raise _ => True
            | Diverge => False
            end
            /\ files (snd (run_channel youtube uniform01 fuel channel_id w1)) = files w1).
  { intros w1. unfold run_channel. rewrite bind_eq.
    pose proof (tame_load_state (comments_path channel_id) w1) as Ht1.
    assert (Hnd1 : fst (load_state (comments_path channel_id) w1) <> Diverge).
    { unfold load_state. destruct (files w1 !! _); [|discriminate].
      destruct (load_state_try _) as [e|r]; [|discriminate]. destruct e; discriminate. }
    destruct (load_state _ w1) as [[[S mc]|e|] w2]; cbn [fst snd] in *;
      [|split; [exact I|exact Ht1]|congruence].
    clear Hnd1.
    rewrite bind_eq.
    pose proof (tame_load_sub_comments (sub_comments_path channel_id) w2) as Ht2.
    assert (Hnd2 : fst (load_sub_comments (sub_comments_path channel_id) w2) <> Diverge).
    { unfold load_sub_comments. destruct (files w2 !! _); [|discriminate].
      destruct (json_loads _) as [e|r]; [|discriminate]. destruct e; discriminate. }
    destruct (load_sub_comments _ w2) as [[ms|e|] w3]; cbn [fst snd] in *;
      [|split; [exact I|congruence]|congruence].
    clear Hnd2.
    rewrite bind_eq.
    assert (Hsay : forall w0 : world,
              let r := (match S with
                        | _ :: _ =>
                            let* n := lift (Py.len mc) in
                            let* m := lift (Py.len ms) in
                            say (MsgResuming n m)
                        | [] => say MsgStartingFresh
                        end) w0 in
              files (snd r) = files w0 /\ fst r <> Diverge).
    { intros w5. cbv zeta. destruct S; [simpl; split; [reflexivity|discriminate]|].
      rewrite bind_lift. destruct (Py.len mc); simpl; [split; [reflexivity|discriminate]|].
      rewrite bind_lift. destruct (Py.len ms); simpl; split; try reflexivity; discriminate. }
    specialize (Hsay w3). cbv zeta in Hsay. destruct Hsay as [Ht3 Hnd3].
    match goal with
    | |- context [match ?m w3 with _ => _ end] => destruct (m w3) as [[[]|e|] w4]
    end; cbn [fst snd] in *; [|split; [exact I|congruence]|congruence].
    pose proof (tame_get_uploads_playlist_id youtube uniform01 channel_id w4) as Ht4.
    pose proof (get_uploads_playlist_id_ends channel_id w4) as Hnd4.
    destruct (get_uploads_playlist_id _ _ _ w4) as [[uploads|e|] w5]; cbn [fst snd] in *;
      [|destruct (is_ValueError e); split; [reflexivity|simpl; congruence|reflexivity|simpl; congruence]
       |destruct Hnd4].
    pose proof (tame_get_all_video_ids_and_titles youtube uniform01 fuel uploads
                  (print (MsgFoundPlaylist uploads) w5)) as Ht5.
    destruct (listing_refused fuel uploads (print (MsgFoundPlaylist uploads) w5) Hfuel Hrefused)
      as [e He].
    destruct (get_all_video_ids_and_titles _ _ _ _ _) as [o w6]; cbn [fst snd] in *.
    subst o. split; [reflexivity|]. simpl in *. congruence. }
  destruct (Hrun (print (MsgProcessingChannel channel_id) w0)) as [Hstatus Hfiles].
  destruct (run_channel _ _ _ _ _) as [[status|e|] w1]; cbn [fst snd] in *.
  - subst status. split; [reflexivity|]. simpl in Hfiles. congruence.
  - split; [reflexivity|]. simpl in *. congruence.
  - destruct Hstatus.
Qed.

End BeforeTheLoop.

(** ** The further properties on the small channels *)

Lemma main_loop_only_appends_witness :
  let r := main_loop demo half_jitter 5 (comments_path "UCx") (sub_comments_path "UCx")
             [v1; v3] (lists [] [] []) (start ∅) in
  exists cs subs ds,
    (forall p, p <> comments_path "UCx" -> p <> sub_comments_path "UCx" ->
               files (snd r) !! p = files (start ∅) !! p)
    /\ ((files (snd r) = files (start ∅) /\ cs = [] /\ subs = [] /\ ds = [])
        \/ (files (snd r) !! comments_path "UCx" = Some (JsonText (JList ([] ++ cs)))
            /\ files (snd r) !! sub_comments_path "UCx"
               = Some (JsonText (JList ([] ++ subs)))))
    /\ (forall st, fst r = Ret st -> st = lists ([] ++ cs) ([] ++ subs) ([] ++ ds)).
Proof.
  exact (main_loop_only_appends demo half_jitter 5 (comments_path "UCx")
           (sub_comments_path "UCx") [v1; v3] [] [] [] (start ∅)
           (comments_path_not_sub_comments_path "UCx")).
Defined.

Lemma merged_video_is_left_out_on_resume_witness :
  let r := process_video demo half_jitter 5 (comments_path "UCx") (sub_comments_path "UCx")
             v1 (lists [] [] []) (start ∅) in
  exists S',
    load_state (comments_path "UCx") (snd r)
    = (Ret (S', JList (map (comment_obj "First" (create_video_link "v1"))
                         [demo_thread "c1" "hello" 0; demo_thread "c2" "world" 0])),
       snd r)
    /\ (forall all, ~ In v1 (worklist all S'))
    /\ (forall all v, In v (worklist all S') -> In v (worklist all [])).
Proof.
  refine (merged_video_is_left_out_on_resume demo half_jitter 5 (comments_path "UCx")
            (sub_comments_path "UCx") v1 [] [] [] [] (start ∅)
            (lists (map (comment_obj "First" (create_video_link "v1"))
                      [demo_thread "c1" "hello" 0; demo_thread "c2" "world" 0]) [] [])
            (comments_path_not_sub_comments_path "UCx") eq_refl _ _).
  - vm_compute. reflexivity.
  - simpl. discriminate.
Defined.

Lemma failed_comment_listing_is_skipped_or_fatal_witness :
  let video := {| vid := "off"; vtitle := "Off" |} in
  let fetch := fetch_video_comments broken half_jitter 5 "off" "Off"
                 (create_video_link "off") (start ∅) in
  let r := process_video broken half_jitter 5 (comments_path "UCx") (sub_comments_path "UCx")
             video (lists [] [] []) (start ∅) in
  files (snd r) = files (start ∅)
  /\ r = (Ret (Next, lists [] [] []), print (MsgSkipDisabled "Off") (snd fetch)).
Proof.
  refine (let H := failed_comment_listing_is_skipped_or_fatal broken half_jitter 5
                     (comments_path "UCx") (sub_comments_path "UCx")
                     {| vid := "off"; vtitle := "Off" |}
                     (lists [] [] []) (start ∅)
                     (HttpError 403 (error_body "commentsDisabled")) _ in
          conj (proj1 H) (proj2 (proj2 (proj2 H)))).
  vm_compute. reflexivity.
Defined.

Lemma failed_replies_report_witness :
  let loop := main_loop demo half_jitter 5 (comments_path "UCx") (sub_comments_path "UCx")
                [v3] (lists [] [] []) (start ∅) in
  let r := extract demo half_jitter 5 "UCx" [v3] (JList []) (JList []) (start ∅) in
  fst r = Ret 0
  /\ files (snd r)
     = <[failed_replies_path "UCx" :=
           JsonText (JList (map discrepancy_json [mismatch v3 "c5" 5 3 None]))]>
         (files (snd loop)).
Proof.
  refine (let H := failed_replies_report demo half_jitter 5 "UCx" [v3] [] [] (start ∅)
                     (lists (map (comment_obj "Third" (create_video_link "v3"))
                               [demo_thread "c5" "thread" 5])
                            (map (sub_comment_obj "c5" "Third" "v3")
                               [demo_reply "r1"; demo_reply "r2"; demo_reply "r3"])
                            [mismatch v3 "c5" 5 3 None]) _ in
          conj (proj1 H) (proj1 (proj2 (proj2 (proj2 H))))).
  vm_compute. reflexivity.
Defined.

Lemma reply_file_of_another_shape_stops_the_first_merge_witness :
  let r := main_loop demo half_jitter 5 (comments_path "UCx") (sub_comments_path "UCx")
             [v1; v3]
             {| master_comments_list := JList [];
                master_sub_comments_list := JDict [];
                failed_reply_fetches := [] |} (start ∅) in
  fst r = Raise (AttributeError "object has no attribute 'extend'")
  /\ files (snd r) = files (start ∅).
Proof.
  refine (proj2 (reply_file_of_another_shape_stops_the_first_merge demo half_jitter 5
                   (comments_path "UCx") (sub_comments_path "UCx") (JDict []) v1 [v3] [] []
                   (start ∅) eq_refl)
            (map (comment_obj "First" (create_video_link "v1"))
               [demo_thread "c1" "hello" 0; demo_thread "c2" "world" 0], ([], [])) _).
  vm_compute. reflexivity.
Defined.

Lemma processed_videos_are_not_listed_again_witness :
  let saved := [comment_obj "First" (create_video_link "v1") (demo_thread "c1" "hello" 0)] in
  let w := start {[ comments_path "UCx" := JsonText (JList saved) ]} in
  let r := run_channel demo half_jitter 5 "UCx" w in
  exists new,
    calls (snd r) = calls w ++ new
    /\ (forall video_id token,
          In (CommentThreadsList video_id token) new ->
          Py.str_in_set (create_video_link video_id) [JStr (create_video_link "v1")] = false)
    /\ (forall video_id token c,
          In c saved -> has_link (create_video_link video_id) c ->
          ~ In (CommentThreadsList video_id token) new).
Proof.
  refine (processed_videos_are_not_listed_again demo half_jitter 5 "UCx"
            (start {[ comments_path "UCx" :=
                        JsonText (JList [comment_obj "First" (create_video_link "v1")
                                           (demo_thread "c1" "hello" 0)]) ]})
            [comment_obj "First" (create_video_link "v1") (demo_thread "c1" "hello" 0)]
            [JStr (create_video_link "v1")] _ eq_refl).
  vm_compute. reflexivity.
Defined.

Lemma foreign_host_is_refused_without_a_call_witness :
  get_channel_id_from_url demo half_jitter urlparse_simple
    "https://youtu.be/channel/UCx" (start ∅)
  = (Raise (ValueError ("Invalid YouTube URL: " +:+ "https://youtu.be/channel/UCx")),
     start ∅).
Proof.
  exact (foreign_host_is_refused_without_a_call demo half_jitter urlparse_simple
           "https://youtu.be/channel/UCx" {| netloc := "youtu.be"; path := "/channel/UCx" |}
           (start ∅) eq_refl eq_refl).
Defined.

Lemma refused_video_listing_is_fatal_witness :
  let r := main unlisted half_jitter urlparse_simple 1
             "https://www.youtube.com/channel/UCx" (start ∅) in
  fst r = Some 1 /\ files (snd r) = files (start ∅).
Proof.
  refine (refused_video_listing_is_fatal unlisted half_jitter urlparse_simple 1
            "https://www.youtube.com/channel/UCx" (start ∅) _ _).
  - lia.
  - intros n playlist_id token. reflexivity.
Defined.

(** * The claims that need the log of calls *)

(** ** Resolution failure and the counter *)

Section ResolutionFailure.

Variable youtube : service.
Variable uniform01 : nat -> Q.
Variable urlparse : string -> exn + parsed_url.

(** A lookup: the attempts, the charge, and what comes out. *)
Lemma lookup_log r (answer : nat -> exn + listing) op msg w :
  (forall n, listing_of youtube n r
             = match answer n with inr l => Some l | inl _ => None end) ->
  (forall n, answered youtube n r = is_ok (answer n)) ->
  charge (Some op) = request_cost r ->
  let m := (let* response := call uniform01 r answer op in first_item response msg) in
  exists k,
    (1 <= k <= 3)%nat
    /\ calls (snd (m w)) = calls w ++ replicate k r
    /\ (forall i, (i < k - 1)%nat -> answered youtube (length (calls w) + i)%nat r = false)
    /\ match listing_of youtube (length (calls w) + (k - 1))%nat r with
       | Some l =>
           quota_used (snd (m w)) = quota_used w + request_cost r
           /\ fst (m w) = match items_field l with
                          | Some (inr x :: _) => Ret x
                          | Some (inl e :: _) => Raise e
                          | _ => Raise (ValueError msg)
                          end
       | None =>
           quota_used (snd (m w)) = quota_used w
           /\ exists e, fst (m w) = Raise e
       end.
Proof.
  intros Hlisting Hanswered Hcost. cbv zeta. rewrite bind_eq.
  destruct (call_log uniform01 r answer op w) as (k & Hk & Hcalls & Hearlier & Hlast).
  cbv zeta in Hcalls, Hlast.
  exists k. split; [exact Hk|].
  destruct (call uniform01 r answer op w) as [o w1]. cbn [fst snd] in *.
  rewrite Hlisting.
  destruct (answer (length (calls w) + (k - 1))%nat) as [e0|l].
  - destruct Hlast as [[e He] Hq]. injection He as ->. cbn [fst snd].
    split; [exact Hcalls|].
    split; [intros i Hi; rewrite Hanswered; apply Hearlier; exact Hi|].
    split; [exact Hq|eauto].
  - destruct Hlast as [He Hq]. injection He as ->.
    destruct (first_item_effect l msg w1) as [Hw Hfirst].
    destruct (first_item l msg w1) as [o2 w2]. cbn [fst snd] in *. subst w2.
    split; [exact Hcalls|].
    split; [intros i Hi; rewrite Hanswered; apply Hearlier; exact Hi|].
    split; [rewrite Hq, Hcost; reflexivity|].
    destruct (items_field l) as [[|[e|x] xs]|]; exact Hfirst.
Qed.

(** What the body of the [try] of the resolution sends and charges. *)
Lemma resolve_try_log url w :
  let r := get_channel_id_from_url_try youtube uniform01 urlparse url w in
  (calls (snd r) = calls w /\ quota_used (snd r) = quota_used w)
  \/ exists q k,
       match urlparse url with
       | inr parsed => lookup_of (Py.split "/" (Py.strip "/" (path parsed))) = Some q
       | inl _ => False
       end
       /\ (1 <= k <= 3)%nat
       /\ calls (snd r) = calls w ++ replicate k q
       /\ ((exists query, q = SearchList query)
           \/ (exists username, q = ChannelsForUsername username))
       /\ (forall i, (i < k - 1)%nat ->
             answered youtube (length (calls w) + i)%nat q = false)
       /\ match listing_of youtube (length (calls w) + (k - 1))%nat q with
          | Some l =>
              quota_used (snd r) = quota_used w + request_cost q
              /\ (usable l = true -> exists x, fst r = Ret x)
              /\ (usable l = false -> exists e, fst r = Raise e)
          | None =>
              quota_used (snd r) = quota_used w
              /\ exists e, fst r = Raise e
          end.
Proof.
  cbv zeta. unfold get_channel_id_from_url_try. rewrite bind_lift.
  destruct (urlparse url) as [e|parsed]; [left; split; reflexivity|].
  destruct (negb _); [left; split; reflexivity|]. cbv zeta.
  destruct (Py.split _ _) as [|seg0 rest]; [left; split; reflexivity|].
  unfold lookup_of.
  assert (Hlookup : forall q (answer : nat -> exn + listing) op msg,
            (forall n, listing_of youtube n q
                       = match answer n with inr l => Some l | inl _ => None end) ->
            (forall n, answered youtube n q = is_ok (answer n)) ->
            charge (Some op) = request_cost q ->
            ((exists query, q = SearchList query)
             \/ (exists username, q = ChannelsForUsername username)) ->
            forall asked : option request, asked = Some q ->
            let m := (let* response := call uniform01 q answer op in
                      first_item response msg) in
            (calls (snd (m w)) = calls w /\ quota_used (snd (m w)) = quota_used w)
            \/ exists q k,
                 asked = Some q
                 /\ (1 <= k <= 3)%nat
                 /\ calls (snd (m w)) = calls w ++ replicate k q
                 /\ ((exists query, q = SearchList query)
                     \/ (exists username, q = ChannelsForUsername username))
                 /\ (forall i, (i < k - 1)%nat ->
                       answered youtube (length (calls w) + i)%nat q = false)
                 /\ match listing_of youtube (length (calls w) + (k - 1))%nat q with
                    | Some l =>
                        quota_used (snd (m w)) = quota_used w + request_cost q
                        /\ (usable l = true -> exists x, fst (m w) = Ret x)
                        /\ (usable l = false -> exists e, fst (m w) = Raise e)
                    | None =>
                        quota_used (snd (m w)) = quota_used w
                        /\ exists e, fst (m w) = Raise e
                    end).
  { intros q answer op msg Hl Ha Hc Hkind asked Hasked. cbv zeta. right.
    destruct (lookup_log q answer op msg w Hl Ha Hc) as (k & Hk & Hcalls & Hearlier & Hlast).
    cbv zeta in Hcalls, Hlast.
    exists q, k. split; [exact Hasked|]. split; [exact Hk|]. split; [exact Hcalls|]. split; [exact Hkind|].
    split; [exact Hearlier|].
    destruct (listing_of youtube (length (calls w) + (k - 1))%nat q) as [l|];
      [|exact Hlast].
    destruct Hlast as [Hq Hfst]. split; [exact Hq|]. unfold usable.
    destruct (items_field l) as [[|[e|x] xs]|]; rewrite Hfst;
      split; intros H; try discriminate H; eauto. }
  assert (Hend : forall w0,
            calls (snd ((let potential_id := Py.last_seg (seg0 :: rest) in
                         if negb (String.eqb potential_id "")
                            && (String.length potential_id =? 24)%nat
                         then ret potential_id
                         else raise (ValueError
                                ("Unable to extract channel ID from URL: " +:+ url))) w0))
            = calls w0
            /\ quota_used (snd ((let potential_id := Py.last_seg (seg0 :: rest) in
                                 if negb (String.eqb potential_id "")
                                    && (String.length potential_id =? 24)%nat
                                 then ret potential_id
                                 else raise (ValueError
                                        ("Unable to extract channel ID from URL: "
                                         +:+ url))) w0))
               = quota_used w0).
  { intros w0. cbv zeta. destruct (_ && _); split; reflexivity. }
  destruct (String.eqb seg0 "channel"), rest as [|seg1 rest'];
    try (left; split; reflexivity);
    (destruct (Py.startswith "@" seg0);
     [apply Hlookup; [reflexivity|reflexivity|reflexivity|left; eauto|reflexivity]|]);
    (destruct (String.eqb seg0 "c");
     try (apply Hlookup; [reflexivity|reflexivity|reflexivity|left; eauto|reflexivity]));
    (destruct (String.eqb seg0 "user");
     try (apply Hlookup; [reflexivity|reflexivity|reflexivity|right; eauto|reflexivity]));
    left; apply Hend.
Qed.

(** C7, as the code has it. When channel resolution fails at the start
    of a run, the run ends with status 1 after reporting the error,
    before any file is read or written and before any listing call.
    Either no request was sent and the counter is zero, or exactly one
    lookup was sent, one to three times: the one the path of the URL
    asks for, a search (for a handle or a custom name) or a
    [channels.list] for a username, every attempt but the last
    unanswered. The counter is then zero when the last
    attempt failed too; when it was answered, the answer held no usable
    channel (no item, or a first item without the field) and the
    counter holds the cost of that call: 100 for a search, 1 for a
    username lookup. *)
Theorem resolution_failure_aborts_after_at_most_one_lookup fuel url fs e w' :
  get_channel_id_from_url youtube uniform01 urlparse url (start fs) = (Raise e, w') ->
  main youtube uniform01 urlparse fuel url (start fs)
  = (Some 1, print (MsgResolveError (str_exn e)) w')
  /\ files w' = fs
  /\ ((calls w' = [] /\ quota_used w' = 0)
      \/ exists parsed q k,
           urlparse url = inr parsed
           /\ lookup_of (Py.split "/" (Py.strip "/" (path parsed))) = Some q
           /\ (1 <= k <= 3)%nat
           /\ calls w' = replicate k q
           /\ ((exists query, q = SearchList query)
               \/ (exists username, q = ChannelsForUsername username))
           /\ (forall i, (i < k - 1)%nat -> answered youtube i q = false)
           /\ match listing_of youtube (k - 1) q with
              | Some l =>
                  usable l = false
                  /\ quota_used w' = match q with SearchList _ => 100 | _ => 1 end
              | None => quota_used w' = 0
              end).
Proof.
  intros Hres.
  pose proof (resolve_outcome youtube uniform01 urlparse url (start fs)) as Hval.
  rewrite Hres in Hval. simpl in Hval.
  split; [|split].
  { unfold main, main_try. rewrite Hres, Hval. reflexivity. }
  { pose proof (tame_resolve youtube uniform01 urlparse url (start fs)) as Ht.
    rewrite Hres in Ht. exact Ht. }
  revert Hres. unfold get_channel_id_from_url.
  pose proof (resolve_try_log url (start fs)) as Hlog. cbv zeta in Hlog.
  destruct (get_channel_id_from_url_try _ _ _ _ _) as [o w0]. cbn [fst snd] in Hlog.
  intros Hres.
  assert (Hw : w0 = w' /\ exists e0, o = Raise e0).
  { destruct o as [c|e0|]; [discriminate| |discriminate].
    destruct (is_ValueError e0); injection Hres as _ <-; eauto. }
  destruct Hw as [-> [e0 ->]]. clear Hres.
  destruct Hlog as [[Hc Hq]|(q & k & Hasked & Hk & Hc & Hkind & Hearlier & Hlast)];
    [left; split; assumption|right].
  destruct (urlparse url) as [?|parsed]; [contradiction|].
  exists parsed, q, k. split; [reflexivity|]. split; [exact Hasked|]. split; [exact Hk|]. split; [exact Hc|]. split; [exact Hkind|].
  split; [exact Hearlier|]. simpl in Hlast.
  destruct (listing_of youtube (k - 1) q) as [l|]; [|exact (proj1 Hlast)].
  destruct Hlast as (Hq & Hgood & _). split.
  - destruct (usable l); [|reflexivity]. destruct (Hgood eq_refl) as [x Hx]. discriminate Hx.
  - rewrite Hq. destruct Hkind as [[query ->]|[username ->]]; reflexivity.
Qed.

End ResolutionFailure.

(** C7, as stated, fails: the handle [@ghost] is looked up with a search
    that goes through and finds nothing, so the run aborts with 100
    units on the counter. *)
Lemma resolution_failure_is_not_free :
  ~ (forall youtube uniform01 urlparse fuel url fs e w',
       get_channel_id_from_url youtube uniform01 urlparse url (start fs) = (Raise e, w') ->
       quota_used (snd (main youtube uniform01 urlparse fuel url (start fs))) = 0).
Proof.
  intros H.
  specialize (H demo half_jitter urlparse_simple 5%nat
                "https://www.youtube.com/@ghost" ∅ _ _ eq_refl).
  vm_compute in H. discriminate.
Qed.

Lemma resolution_failure_aborts_after_at_most_one_lookup_witness :
  get_channel_id_from_url demo half_jitter urlparse_simple
    "https://www.youtube.com/@ghost" (start ∅)
  = (Raise (ValueError "Channel not found for handle: @ghost"),
     mkWorld 100 [SearchList "@ghost"] [] [] ∅)
  /\ main demo half_jitter urlparse_simple 5 "https://www.youtube.com/@ghost" (start ∅)
     = (Some 1,
        mkWorld 100 [SearchList "@ghost"] []
          [MsgResolveError "Channel not found for handle: @ghost"] ∅).
Proof.
  split; [reflexivity|].
  exact (proj1 (resolution_failure_aborts_after_at_most_one_lookup
                  demo half_jitter urlparse_simple 5 "https://www.youtube.com/@ghost" ∅
                  _ _ eq_refl)).
Defined.

(** ** The discrepancies of a video *)

Section Discrepancies.

Variable youtube : service.
Variable uniform01 : nat -> Q.

Abbreviation fetch_replies := (fetch_comment_replies youtube uniform01).
Abbreviation step := (reply_step youtube uniform01).

(** The record the code builds is the one the specification asks
    for. *)
Lemma discrepancy_of_mismatch video pid E out :
  discrepancy_of video (pid, E) out
  = match out with
    | inr replies =>
        if Z.of_nat (length replies) =? E then []
        else [mismatch video pid E (Z.of_nat (length replies)) None]
    | inl e => [mismatch video pid E 0 (Some (str_exn e))]
    end.
Proof. destruct out; reflexivity. Qed.

(** The reply loop of the code, by the outcomes of its fetches. *)
Lemma replies_loop_fetches fuel video ptrs : forall subs failed w,
  replies_loop youtube uniform01 fuel video ptrs (subs, failed) w
  = match reply_fetches youtube uniform01 fuel video ptrs w with
    | (Ret outs, w') =>
        (Ret (subs ++ replies_of outs, failed ++ discrepancies_of video ptrs outs), w')
    | (Raise e, w') => (Raise e, w')
    | (Diverge, w') => (Diverge, w')
    end.
Proof.
  induction ptrs as [|[pid E] ptrs IH]; intros subs failed w.
  { simpl. unfold ret. rewrite !app_nil_r. reflexivity. }
  cbn [replies_loop reply_fetches]. rewrite bind_eq. unfold reply_step. cbn [fst snd].
  destruct (fetch_comment_replies _ _ _ _ _ _ _) as [[replies|e|] w1]; [| |reflexivity].
  - rewrite IH. unfold and_then.
    destruct (reply_fetches _ _ _ _ _ _) as [[outs|e|] w2]; [|reflexivity..].
    cbn [replies_of discrepancies_of]. rewrite discrepancy_of_mismatch.
    destruct (_ =? _); rewrite <- ?app_assoc; reflexivity.
  - rewrite IH. unfold and_then.
    destruct (reply_fetches _ _ _ _ _ _) as [[outs|e'|] w2]; [|reflexivity..].
    cbn [replies_of discrepancies_of]. rewrite discrepancy_of_mismatch.
    rewrite <- ?app_assoc. reflexivity.
Qed.

Lemma reply_fetches_shape fuel video ptrs : forall w,
  match fst (reply_fetches youtube uniform01 fuel video ptrs w) with
  | Ret outs => length outs = length ptrs
  | Raise _ => False
  | Diverge => True
  end.
Proof.
  induction ptrs as [|ptr ptrs IH]; intros w; [reflexivity|].
  cbn [reply_fetches].
  destruct (fetch_comment_replies _ _ _ _ _ _ _) as [[replies|e|] w1]; [| |exact I];
    specialize (IH w1); unfold and_then;
    destruct (reply_fetches _ _ _ _ _ _) as [[outs|e'|] w2]; simpl in *; auto.
Qed.

(** One record for every pointer that came short, and no other. *)
Lemma discrepancies_of_length video ptrs : forall outs,
  length (discrepancies_of video ptrs outs)
  = length (List.filter (fun po => short_of (fst po) (snd po)) (combine ptrs outs)).
Proof.
  induction ptrs as [|[pid E] ptrs IH]; intros [|out outs]; try reflexivity.
  cbn [discrepancies_of combine List.filter fst snd]. rewrite length_app, IH.
  rewrite discrepancy_of_mismatch. unfold short_of. cbn [snd].
  destruct out as [e|replies]; [reflexivity|].
  destruct (_ =? _); reflexivity.
Qed.

(** C8. For the pointer [(pid, E)], one pass of the reply loop: if
    the fetch returns [F] replies with [F <> E], exactly one record is
    appended, with expected [E], fetched [F], missing [E - F] and no
    error text; expected 5 and fetched 3 give missing 2. If the fetch
    raises, exactly one record is appended, with expected [E],
    fetched 0, missing [E] and the text of the exception. If [F = E]
    nothing is appended. For a video, the iteration of the main loop
    makes this pass for each pointer the comment fetch returned, in
    their order, each fetch starting where the one before ended: the
    discrepancies it adds are the records of exactly the pointers
    that came short, one each, behind those of earlier videos; the
    video is merged and saved with its comments and with the replies
    that did come, and the loop goes on. The iteration never raises
    because of a reply fetch; it does not end only if a reply listing
    never ends. *)
Theorem reply_discrepancy_recorded_once fuel video new_sub failed pid E w :
  let r := fetch_replies fuel pid (vtitle video) (vid video) w in
  let s := step fuel video (new_sub, failed) (pid, E) w in
  (forall replies, fst r = Ret replies -> Z.of_nat (length replies) <> E ->
     exists d,
       s = (Ret (new_sub ++ replies, failed ++ [d]), snd r)
       /\ d_parent_comment_id d = pid /\ d_video_id d = vid video
       /\ d_expected_count d = E
       /\ d_fetched_count d = Z.of_nat (length replies)
       /\ d_missing_count d = E - Z.of_nat (length replies)
       /\ d_error d = None
       /\ (E = 5 -> length replies = 3%nat -> d_missing_count d = 2))
  /\ (forall e, fst r = Raise e ->
        exists d,
          s = (Ret (new_sub, failed ++ [d]), snd r)
          /\ d_parent_comment_id d = pid /\ d_video_id d = vid video
          /\ d_expected_count d = E
          /\ d_fetched_count d = 0
          /\ d_missing_count d = E
          /\ d_error d = Some (str_exn e))
  /\ (forall replies, fst r = Ret replies -> Z.of_nat (length replies) = E ->
        s = (Ret (new_sub ++ replies, failed), snd r))
  /\ (forall cf sf old old_sub cs ptrs,
        let fetch := fetch_video_comments youtube uniform01 fuel (vid video) (vtitle video)
                       (create_video_link (vid video)) w in
        fst fetch = Ret (cs, ptrs) ->
        let iteration := process_video youtube uniform01 fuel cf sf video
                           (lists old old_sub failed) w in
        match reply_fetches youtube uniform01 fuel video ptrs (snd fetch) with
        | (Ret outs, w2) =>
            iteration
            = (Ret (Next, lists (old ++ cs) (old_sub ++ replies_of outs)
                            (failed ++ discrepancies_of video ptrs outs)),
               write_file sf (JsonText (JList (old_sub ++ replies_of outs)))
                 (write_file cf (JsonText (JList (old ++ cs))) w2))
            /\ length outs = length ptrs
            /\ length (discrepancies_of video ptrs outs)
               = length (List.filter (fun po => short_of (fst po) (snd po))
                           (combine ptrs outs))
        | (Raise _, _) => False
        | (Diverge, w2) => iteration = (Diverge, w2)
        end).
Proof.
  intros r s. subst r s. unfold reply_step. cbn [fst snd].
  split; [|split; [|split]].
  - intros replies Hr Hne.
    destruct (fetch_comment_replies _ _ _ _ _ _ _) as [o w1]. simpl in Hr. subst o.
    apply Z.eqb_neq in Hne. rewrite Hne. eexists. split; [reflexivity|].
    simpl. repeat split; try reflexivity. intros -> ->. reflexivity.
  - intros e Hr.
    destruct (fetch_comment_replies _ _ _ _ _ _ _) as [o w1]. simpl in Hr. subst o.
    eexists. split; [reflexivity|]. simpl. repeat split; try reflexivity. lia.
  - intros replies Hr Heq.
    destruct (fetch_comment_replies _ _ _ _ _ _ _) as [o w1]. simpl in Hr. subst o.
    apply Z.eqb_eq in Heq. rewrite Heq. reflexivity.
  - intros cf sf old old_sub cs ptrs Hfetch.
    unfold process_video, video_try. rewrite bind_eq.
    destruct (fetch_video_comments _ _ _ _ _ _ _) as [o w1]. cbn [fst snd] in *. subst o.
    rewrite bind_eq. cbn [failed_reply_fetches lists].
    rewrite replies_loop_fetches.
    pose proof (reply_fetches_shape fuel video ptrs w1) as Hshape.
    destruct (reply_fetches _ _ _ _ _ _) as [[outs|e|] w2]; cbn [fst snd] in *;
      [|exact Hshape|reflexivity].
    split; [reflexivity|]. split; [exact Hshape|apply discrepancies_of_length].
Qed.

End Discrepancies.

Lemma reply_discrepancy_recorded_once_witness :
  let fetch := fetch_video_comments demo half_jitter 5 "v3" "Third"
                 (create_video_link "v3") (start ∅) in
  let outs := [inr (map (sub_comment_obj "c5" "Third" "v3")
                      [demo_reply "r1"; demo_reply "r2"; demo_reply "r3"])] in
  fst (process_video demo half_jitter 5 (comments_path "UCx") (sub_comments_path "UCx")
         v3 (lists [] [] []) (start ∅))
  = Ret (Next, lists ([] ++ [comment_obj "Third" (create_video_link "v3")
                               (demo_thread "c5" "thread" 5)])
                 ([] ++ replies_of outs)
                 ([] ++ discrepancies_of v3 [("c5", 5)] outs))
  /\ discrepancies_of v3 [("c5", 5)] outs = [mismatch v3 "c5" 5 3 None]
  /\ d_missing_count (mismatch v3 "c5" 5 3 None) = 2.
Proof.
  cbv zeta. split; [|split; reflexivity].
  assert (Hfetch : fst (fetch_video_comments demo half_jitter 5 (vid v3) (vtitle v3)
                          (create_video_link (vid v3)) (start ∅))
                   = Ret ([comment_obj "Third" (create_video_link "v3")
                             (demo_thread "c5" "thread" 5)],
                          [("c5", 5)]))
    by (vm_compute; reflexivity).
  pose proof (proj2 (proj2 (proj2
                (reply_discrepancy_recorded_once demo half_jitter 5 v3 [] [] "c5" 5
                   (start ∅)))) (comments_path "UCx") (sub_comments_path "UCx") [] [] _ _
                Hfetch) as H.
  exact (f_equal fst (proj1 H)).
Defined.

(** ** The worklist of a second run *)

Lemma load_state_by_files comments_file w w' :
  files w = files w' ->
  fst (load_state comments_file w) = fst (load_state comments_file w').
Proof.
  intros Hf. unfold load_state. rewrite Hf.
  destruct (files w' !! comments_file) as [c|]; [|reflexivity].
  destruct (load_state_try c) as [e|r]; [|reflexivity]. destruct e; reflexivity.
Qed.

(** The processed set holds exactly the links of the loaded comments. *)
Lemma video_links_holds comments : forall S link,
  video_links comments = inr S ->
  (Py.str_in_set link S = true <-> exists c, In c comments /\ has_link link c).
Proof.
  induction comments as [|c0 comments IH]; intros S link HS.
  { injection HS as <-. simpl. split; [discriminate|intros (c & [] & _)]. }
  simpl in HS.
  destruct (Py.getitem c0 "videoLink") as [e|v] eqn:Hv; [discriminate|].
  destruct (Py.hashable v); [|discriminate].
  destruct (video_links comments) as [e|vs] eqn:Hvs; [discriminate|].
  injection HS as <-. simpl. rewrite orb_true_iff, (IH vs link eq_refl). split.
  - intros [Hhead|(c & Hc & Hl)].
    + exists c0. split; [left; reflexivity|]. unfold has_link. rewrite Hv.
      destruct v; try discriminate Hhead. apply String.eqb_eq in Hhead. subst. reflexivity.
    + exists c. split; [right; exact Hc|exact Hl].
  - intros (c & [<-|Hc] & Hl).
    + left. unfold has_link in Hl. rewrite Hl in Hv. injection Hv as <-.
      apply String.eqb_refl.
    + right. eauto.
Qed.

Lemma worklist_nil all S :
  worklist all S = [] <->
  (forall u, In u all -> Py.str_in_set (create_video_link (vid u)) S = true).
Proof.
  split.
  - intros Hnil u Hu.
    destruct (Py.str_in_set (create_video_link (vid u)) S) eqn:Hp; [reflexivity|].
    assert (Hin : In u (worklist all S)) by (apply worklist_In; auto).
    rewrite Hnil in Hin. contradiction.
  - intros Hall. destruct (worklist all S) as [|u rest] eqn:Hwl; [reflexivity|].
    assert (Hin : In u (worklist all S)) by (rewrite Hwl; left; reflexivity).
    apply worklist_In in Hin as [Hu Hp]. rewrite (Hall u Hu) in Hp. discriminate.
Qed.

Section FirstRequest.

Variable youtube : service.
Variable uniform01 : nat -> Q.

Abbreviation anything := (fun _ : request => True).

Lemma anything_other q : (forall v t, q <> CommentThreadsList v t) -> anything q.
Proof. intros _. exact I. Qed.

(** A request that was logged stays in the log. *)
Lemma calls_kept_bind {A B} q (m : M A) (k : A -> M B) w :
  In q (calls (snd (m w))) ->
  (forall a, accounted youtube anything (k a)) ->
  In q (calls (snd (bind m k w))).
Proof.
  intros Hin Hk. rewrite bind_eq.
  destruct (m w) as [[a|e|] w1]; cbn [fst snd] in *; try exact Hin.
  destruct (Hk a w1) as (new & Hc & _). rewrite Hc. apply in_or_app. left. exact Hin.
Qed.

Lemma process_video_calls fuel comments_file sub_comments_file video st w :
  calls (snd (process_video youtube uniform01 fuel comments_file sub_comments_file
                video st w))
  = calls (snd (video_try youtube uniform01 fuel video (failed_reply_fetches st) w)).
Proof.
  unfold process_video.
  destruct (video_try _ _ _ _ _ _) as [[[cs [subs ds]]|e|] w1]; cbn [fst snd]; auto.
  - unfold merge_and_save. rewrite bind_lift.
    destruct (Py.extend (master_comments_list st) cs); simpl; auto.
    rewrite bind_lift.
    destruct (Py.extend (master_sub_comments_list st) subs); simpl; auto.
  - destruct e; simpl; auto.
    unfold on_http_error. rewrite bind_lift.
    destruct (parse_http_error_reason content) as [e'|reason]; simpl; auto.
    destruct (reason_is reason "commentsDisabled"); simpl; auto.
    destruct (reason_is reason "quotaExceeded"); simpl; auto.
    rewrite bind_lift.
    destruct (Py.len (master_comments_list st)); simpl; auto.
    rewrite bind_lift.
    destruct (Py.len (master_sub_comments_list st)); simpl; auto.
Qed.

Lemma extract_calls fuel channel_id vs mc ms w :
  calls (snd (extract youtube uniform01 fuel channel_id vs mc ms w))
  = calls (snd (main_loop youtube uniform01 fuel (comments_path channel_id)
                  (sub_comments_path channel_id) vs
                  {| master_comments_list := mc;
                     master_sub_comments_list := ms;
                     failed_reply_fetches := [] |} w)).
Proof.
  unfold extract. rewrite bind_eq.
  destruct (main_loop _ _ _ _ _ _ _ _) as [[st|e|] w1]; cbn [fst snd]; auto.
  rewrite bind_eq.
  destruct (failed_reply_fetches st) as [|d ds]; simpl.
  - rewrite bind_lift. destruct (Py.len (master_comments_list st)); simpl; auto.
    rewrite bind_lift. destruct (Py.len (master_sub_comments_list st)); simpl; auto.
  - rewrite bind_lift. destruct (Py.len (master_comments_list st)); simpl; auto.
    rewrite bind_lift. destruct (Py.len (master_sub_comments_list st)); simpl; auto.
Qed.

(** A loop that ends has asked for the comments of its first video. *)
Lemma main_loop_first_request fuel comments_file sub_comments_file video rest st w :
  let r := main_loop youtube uniform01 fuel comments_file sub_comments_file
             (video :: rest) st w in
  fst r <> Diverge ->
  In (CommentThreadsList (vid video) None) (calls (snd r)).
Proof.
  cbv zeta. destruct fuel as [|fuel].
  { intros Hnd. exfalso. apply Hnd. reflexivity. }
  intros _. cbn [main_loop].
  apply calls_kept_bind.
  - rewrite process_video_calls. unfold video_try, fetch_video_comments.
    apply calls_kept_bind.
    + cbn [comment_pages]. apply calls_kept_bind.
      * destruct (call_calls uniform01 (CommentThreadsList (vid video) None)
                    (fun n => comment_threads_execute youtube n (vid video) None)
                    "commentThreads.list" w) as (k & Hk & Hcalls).
        rewrite Hcalls. apply in_or_app. right.
        destruct k as [|k]; [lia|]. left. reflexivity.
      * intros response. cbv zeta.
        destruct (more_pages _);
          [apply accounted_comment_pages; intros; exact I|apply accounted_ret].
    + intros fetched. apply accounted_bind;
        [apply accounted_replies_loop; exact anything_other|].
      intros acc. apply accounted_ret.
  - intros r. destruct (fst r); [|apply accounted_ret].
    apply accounted_main_loop; [exact anything_other|].
    apply Forall_forall. intros; exact I.
Qed.

End FirstRequest.

Section SecondWorklist.

Variable youtube : service.
Variable uniform01 : nat -> Q.
Variable urlparse : string -> exn + parsed_url.
Hypothesis steady : time_invariant youtube.
Hypothesis jitter_range : forall k, (0 <= uniform01 k)%Q /\ (uniform01 k < 1)%Q.
Variable fuel : nat.

(** Steps 3 to 10 that end with status 0 on a worklist that is not
    empty have asked for the comments of its first video. *)
Lemma run_channel_first_request channel_id w S mc pl all video rest :
  fst (load_state (comments_path channel_id) w) = Ret (S, mc) ->
  (forall w0, fst (get_uploads_playlist_id youtube uniform01 channel_id w0) = Ret pl) ->
  (forall w0, fst (get_all_video_ids_and_titles youtube uniform01 fuel pl w0) = Ret all) ->
  worklist all S = video :: rest ->
  fst (run_channel youtube uniform01 fuel channel_id w) = Ret 0 ->
  In (CommentThreadsList (vid video) None)
     (calls (snd (run_channel youtube uniform01 fuel channel_id w))).
Proof.
  intros Hload Hpl Hall Hwl. unfold run_channel. rewrite bind_eq.
  destruct (load_state (comments_path channel_id) w) as [o1 w1]. cbn [fst] in Hload.
  subst o1. cbn [fst snd]. rewrite bind_eq.
  destruct (load_sub_comments _ w1) as [[ms|e|] w2]; cbn [fst snd]; try discriminate.
  rewrite bind_eq.
  match goal with
  | |- context [match ?m w2 with _ => _ end] => destruct (m w2) as [[[]|e|] w3]
  end; cbn [fst snd]; try discriminate.
  specialize (Hpl w3).
  destruct (get_uploads_playlist_id _ _ _ w3) as [o4 w4]. cbn [fst] in Hpl. subst o4.
  specialize (Hall (print (MsgFoundPlaylist pl) w4)).
  destruct (get_all_video_ids_and_titles _ _ _ _ _) as [o5 w5]. cbn [fst] in Hall.
  subst o5. rewrite Hwl. intros Hend.
  rewrite extract_calls. apply main_loop_first_request.
  intros Hdiv. unfold extract in Hend. rewrite bind_eq in Hend.
  destruct (main_loop _ _ _ _ _ _ _ _) as [[st|e|] w6]; cbn [fst] in *; try discriminate.
Qed.

(** C3, as the code has it. Let the remote answer every request the
    same way whenever it is asked, let the jitter lie in [0, 1), and
    let a first run come to an end.
    Then a second run on the files the first one left comes to an end
    too and leaves every file, the two master sequences among them,
    exactly as it found it. Its worklist is not empty in general. Let
    the second run resolve the channel, load the processed set [S]
    from the comment file the first run left, and be served the
    listing [all]. Then the comment listings the second run requests
    are all for videos of [worklist all S], the listed videos whose
    link is not in [S]; if the run ends with status 0 and this
    worklist is not empty, the comments of its first video are
    requested again. The worklist is empty exactly when the link of
    every listed video is in [S], and a link is in [S] exactly when it
    is the [videoLink] of a persisted comment: a listed video without
    a persisted comment, one with zero comments for instance, is in
    the worklist of every run. *)
Theorem second_run_changes_nothing url fs status w1 :
  main youtube uniform01 urlparse fuel url (start fs) = (Some status, w1) ->
  let r2 := main youtube uniform01 urlparse fuel url (start (files w1)) in
  (exists status' w2, r2 = (Some status', w2) /\ files w2 = files w1)
  /\ (forall channel_id S mc pl all,
        fst (get_channel_id_from_url youtube uniform01 urlparse url (start (files w1)))
        = Ret channel_id ->
        fst (load_state (comments_path channel_id) (start (files w1))) = Ret (S, mc) ->
        fst (get_uploads_playlist_id youtube uniform01 channel_id (start (files w1)))
        = Ret pl ->
        fst (get_all_video_ids_and_titles youtube uniform01 fuel pl (start (files w1)))
        = Ret all ->
        (forall video_id token,
            In (CommentThreadsList video_id token) (calls (snd r2)) ->
            exists video, In video (worklist all S) /\ vid video = video_id)
        /\ (fst r2 = Some 0 ->
            forall video rest,
              worklist all S = video :: rest ->
              In (CommentThreadsList (vid video) None) (calls (snd r2)))
        /\ (worklist all S = [] <->
            forall video, In video all ->
              Py.str_in_set (create_video_link (vid video)) S = true)
        /\ (forall comments, mc = JList comments ->
              forall link,
                Py.str_in_set link S = true
                <-> exists c, In c comments /\ has_link link c)).
Proof.
  intros Hmain. cbv zeta.
  split; [exact (second_run_keeps_files youtube uniform01 urlparse steady jitter_range fuel url fs
                   status w1 Hmain)|].
  intros channel_id S mc pl all Hres Hload Hpl Hall.
  assert (Hpl' : forall w0,
             fst (get_uploads_playlist_id youtube uniform01 channel_id w0) = Ret pl).
  { intros w0. rewrite <- Hpl. apply blind_get_uploads_playlist_id; [exact steady|exact jitter_range]. }
  assert (Hall' : forall w0,
             fst (get_all_video_ids_and_titles youtube uniform01 fuel pl w0) = Ret all).
  { intros w0. rewrite <- Hall. apply blind_get_all_video_ids_and_titles; [exact steady|exact jitter_range]. }
  split; [|split; [|split]].
  - intros video_id token.
    unfold main, main_try.
    pose proof (accounted_get_channel_id_from_url youtube uniform01 urlparse
                  (fetches_only (fun _ => False)) (fetches_only_other _) url
                  (start (files w1))) as (new0 & Hc0 & Hnew0 & _).
    pose proof (tame_resolve youtube uniform01 urlparse url (start (files w1))) as Hf0.
    destruct (get_channel_id_from_url _ _ _ _ _) as [o0 w0]. cbn [fst snd] in *.
    subst o0.
    pose proof (run_channel_accounted youtube uniform01 fuel channel_id
                  (print (MsgProcessingChannel channel_id) w0)
                  (fun v => exists video, In video (worklist all S) /\ vid video = v))
      as Hrun.
    destruct Hrun as (new & Hc & Hnew & _).
    { intros S' mc' wl Hload' wu pl' wp Hup wa all' wb Hlist video Hvideo.
      assert (HS : Ret (S', mc') = Ret (S, mc)).
      { rewrite <- Hload.
        rewrite <- (load_state_by_files (comments_path channel_id)
                      (print (MsgProcessingChannel channel_id) w0) (start (files w1)))
          by exact Hf0.
        rewrite Hload'. reflexivity. }
      injection HS as -> _.
      assert (Hp : Ret pl' = Ret pl).
      { rewrite <- (Hpl' wu), Hup. reflexivity. }
      injection Hp as ->.
      assert (Ha : Ret all' = Ret all).
      { rewrite <- (Hall' wa), Hlist. reflexivity. }
      injection Ha as ->. eauto. }
    assert (Hcalls : calls (snd (match run_channel youtube uniform01 fuel channel_id
                                         (print (MsgProcessingChannel channel_id) w0) with
                                 | (Ret status0, w') => (Some status0, w')
                                 | (Raise e, w') =>
                                     (Some 1, print (MsgUnexpected (str_exn e)) w')
                                 | (Diverge, w') => (None, w')
                                 end))
                     = (new0 ++ new)).
    { destruct (run_channel _ _ _ _ _) as [[s|e|] w2];
        cbn [fst snd calls print start app] in *; rewrite Hc, Hc0; reflexivity. }
    rewrite Hcalls. intros Hin. apply in_app_or in Hin as [Hin|Hin].
    + exfalso. rewrite Forall_forall in Hnew0.
      exact (Hnew0 _ (proj2 (list_elem_of_In _ _) Hin)).
    + rewrite Forall_forall in Hnew.
      exact (Hnew _ (proj2 (list_elem_of_In _ _) Hin)).
  - intros Hstatus video rest Hwl. revert Hstatus.
    unfold main, main_try.
    pose proof (tame_resolve youtube uniform01 urlparse url (start (files w1))) as Hf0.
    destruct (get_channel_id_from_url _ _ _ _ _) as [o0 w0]. cbn [fst snd] in *.
    subst o0.
    pose proof (run_channel_first_request channel_id
                  (print (MsgProcessingChannel channel_id) w0) S mc pl all video rest)
      as Hfirst.
    destruct (run_channel _ _ _ _ _) as [[s|e|] w2]; cbn [fst snd] in *;
      intros [= Hs]; try discriminate.
    apply Hfirst; auto.
    + rewrite <- Hload. apply load_state_by_files. exact Hf0.
    + rewrite Hs. reflexivity.
  - apply worklist_nil.
  - intros comments -> link.
    apply video_links_holds.
    destruct (load_state (comments_path channel_id) (start (files w1))) as [o wl] eqn:Hl.
    cbn [fst] in Hload. subst o.
    exact (load_state_to_list _ _ _ _ _ Hl).
Qed.

End SecondWorklist.

Lemma second_run_changes_nothing_witness :
  let url := "https://www.youtube.com/channel/UCx" in
  let r1 := main demo half_jitter urlparse_simple 5 url (start ∅) in
  let r2 := main demo half_jitter urlparse_simple 5 url (start (files (snd r1))) in
  (exists status' w2, r2 = (Some status', w2) /\ files w2 = files (snd r1))
  /\ (forall video_id token,
        In (CommentThreadsList video_id token) (calls (snd r2)) ->
        exists video, In video [v2; v3] /\ vid video = video_id)
  /\ In (CommentThreadsList "v2" None) (calls (snd r2)).
Proof.
  cbv zeta.
  assert (H1 : main demo half_jitter urlparse_simple 5
                 "https://www.youtube.com/channel/UCx" (start ∅)
               = (Some 0, snd (main demo half_jitter urlparse_simple 5
                                 "https://www.youtube.com/channel/UCx" (start ∅))))
    by (vm_compute; reflexivity).
  pose proof (second_run_changes_nothing demo half_jitter urlparse_simple demo_steady
                half_jitter_range 5
                "https://www.youtube.com/channel/UCx" ∅ 0 _ H1) as [Hfiles Hwork].
  split; [exact Hfiles|].
  specialize (Hwork "UCx"
                [JStr (create_video_link "v1"); JStr (create_video_link "v1")]
                (JList [comment_obj "First" (create_video_link "v1")
                          (demo_thread "c1" "hello" 0);
                        comment_obj "First" (create_video_link "v1")
                          (demo_thread "c2" "world" 0)])
                "UUdemo" [v1; v2; v3]).
  destruct Hwork as (Honly & Hfirst & _); try (vm_compute; reflexivity).
  split; [exact Honly|].
  apply (Hfirst ltac:(vm_compute; reflexivity) v2 [v3]). reflexivity.
Defined.

(** C3, as stated, fails: the channel [silent] has one video, without
    comments. The first run processes it and saves two empty sequences.
    The second run finds no link in the persisted comments, so its
    worklist is not empty: it holds the video, whose comments are
    fetched again. The sequences do stay the same. *)
Lemma second_run_worklist_is_not_empty :
  let url := "https://www.youtube.com/channel/UCsilent" in
  let r1 := main silent half_jitter urlparse_simple 5 url (start ∅) in
  let r2 := main silent half_jitter urlparse_simple 5 url (start (files (snd r1))) in
  time_invariant silent
  /\ fst r1 = Some 0
  /\ files (snd r1) !! comments_path "UCsilent" = Some (JsonText (JList []))
  /\ fst (load_state (comments_path "UCsilent") (start (files (snd r1))))
     = Ret ([], JList [])
  /\ worklist [ {| vid := "s1"; vtitle := "Quiet" |} ] [] <> []
  /\ fst r2 = Some 0
  /\ calls (snd r2)
     = [ChannelsContentDetails "UCsilent"; PlaylistItemsList "UUsilent" None;
        CommentThreadsList "s1" None]
  /\ stdout (snd r2)
     = [MsgProcessingChannel "UCsilent"; MsgStartingFresh; MsgFoundPlaylist "UUsilent";
        MsgFoundVideos 1; MsgToProcess 1 0; MsgComplete 0 0 3 daily_quota_limit]
  /\ files (snd r2) = files (snd r1).
Proof.
  cbv zeta. split; [exact silent_steady|].
  repeat split; try (vm_compute; reflexivity).
  discriminate.
Qed.
